(** * SR-IOV FEC operator: the bbdev configuration compiler and tool invoker
      of the node daemon ([pkg/daemon/bbdevconfig.go]) and the cluster
      configuration reconciler ([SriovFecClusterConfigReconciler]).

    The Go code is embedded shallowly: every Go function is a Rocq function
    of the same name, stateful code threads an explicit [World] through a
    small state monad, and a Go [error] result is an [option error] whose
    [None] is Go's [nil]. *)

From Stdlib Require Import ZArith List String Ascii Lia DecimalString.
From stdpp Require Import base strings gmap list.

Open Scope Z_scope.

(** ** Go runtime prelude *)

Module Go.

(** Go's [int] on the 64-bit platforms the operator is built for: a signed
    two's-complement machine integer.  Values are carried as [Z]; every
    addition is reduced into the interval [-2^63, 2^63). *)
Definition min_int : Z := - 2 ^ 63.
Definition max_int : Z := 2 ^ 63 - 1.

Definition wrap (z : Z) : Z := (z + 2 ^ 63) mod 2 ^ 64 - 2 ^ 63.

Definition add (a b : Z) : Z := wrap (a + b).

Definition is_int (z : Z) : Prop := min_int <= z <= max_int.

(** [strconv.Itoa]: base-10 rendering, a leading minus sign for negatives. *)
Definition Itoa (z : Z) : string := NilZero.string_of_int (Z.to_int z).

(** [len] of a slice, as an [int]. *)
Definition len {A} (l : list A) : Z := Z.of_nat (length l).

End Go.

(** ** State passing

    A Go function that reads or changes the world around it (the file
    system, child processes, the logger, the objects stored by the API
    server) is a function from the world before to its result and the world
    after. *)

Definition State (W A : Type) : Type := W -> A * W.

Definition ret {W A} (a : A) : State W A := fun w => (a, w).

Definition bind {W A B} (c : State W A) (k : A -> State W B) : State W B :=
  fun w => let '(a, w') := c w in k a w'.

Notation "x <- c ;; k" := (bind c (fun x => k))
  (at level 100, c at next level, right associativity).
Notation "c ;;; k" := (bind c (fun _ => k))
  (at level 100, right associativity).

(** ** The node daemon: [pkg/daemon/bbdevconfig.go] *)

Module Daemon.

(** *** Errors *)

(** The dynamic types of [error] values that reach this file: the string
    errors of [errors.New] and [fmt.Errorf], [*exec.ExitError] carrying the
    exit code of a finished child process, and [*os.PathError] from the file
    system calls. *)
Inductive error : Type :=
| errorString (msg : string)
| ExitError (code : Z)
| PathError (op path reason : string).

(** [err.Error()], which [fmt.Errorf]'s [%s] verb prints. *)
Definition Error (e : error) : string :=
  match e with
  | errorString msg => msg
  | ExitError code => "exit status " +:+ Go.Itoa code
  | PathError op path reason => op +:+ " " +:+ path +:+ ": " +:+ reason
  end.

(** *** Constants of the file *)

Definition ul : string := "UL".
Definition dl : string := "DL".
Definition flr : string := "FLR".
Definition bandwidth : string := "bandwidth".
Definition load_balance : string := "load_balance".
Definition vfqmap : string := "vfqmap".
Definition flr_time_out : string := "flr_time_out".

Definition vfbundles : string := "VFBUNDLES".
Definition maxqsize : string := "MAXQSIZE".
Definition uplink4g : string := "QUL4G".
Definition downlink4g : string := "QDL4G".
Definition uplink5g : string := "QUL5G".
Definition downlink5g : string := "QDL5G".
Definition num_vf_bundles : string := "num_vf_bundles".
Definition max_queue_size : string := "max_queue_size".
Definition num_qgroups : string := "num_qgroups".
Definition num_aqs_per_groups : string := "num_aqs_per_groups".
Definition aq_depth_log2 : string := "aq_depth_log2".
Definition maxQueueGroups : Z := 8.

Definition mode : string := "MODE".
Definition pf_mode_en : string := "pf_mode_en".
Definition pfConfigAppFilepath : string := "/sriov_workdir/pf_bb_config".

(** *** The v2 API types, with the fields this file reads *)

Record UplinkDownlinkQueues : Type := {
  VF0 : Z; VF1 : Z; VF2 : Z; VF3 : Z; VF4 : Z; VF5 : Z; VF6 : Z; VF7 : Z
}.

Record UplinkDownlink : Type := {
  Bandwidth : Z;
  LoadBalance : Z;
  Queues : UplinkDownlinkQueues
}.

Record N3000BBDevConfig : Type := {
  N3000_PFMode : bool;
  FLRTimeOut : Z;
  Downlink : UplinkDownlink;
  Uplink : UplinkDownlink
}.

Record QueueGroupConfig : Type := {
  NumQueueGroups : Z;
  NumAqsPerGroups : Z;
  AqDepthLog2 : Z
}.

Record ACC100BBDevConfig : Type := {
  ACC100_PFMode : bool;
  NumVfBundles : Z;
  MaxQueueSize : Z;
  Uplink4G : QueueGroupConfig;
  Downlink4G : QueueGroupConfig;
  Uplink5G : QueueGroupConfig;
  Downlink5G : QueueGroupConfig
}.

(** Both variants are Go pointers: [None] is [nil]. *)
Record BBDevConfig : Type := {
  N3000 : option N3000BBDevConfig;
  ACC100 : option ACC100BBDevConfig
}.

Record SriovAccelerator : Type := {
  DeviceID : string
}.

Record PhysicalFunctionConfigExt : Type := {
  PCIAddress : string;
  PFDriver : string;
  PF_BBDevConfig : BBDevConfig
}.

(** *** The [gopkg.in/ini.v1] file object

    An [ini.File] is an ordered list of named sections, each an ordered list
    of keys with their values.  [ini.Empty] holds the default section only. *)

Definition ini_Section : Type := (string * list (string * string))%type.
Definition ini_File : Type := list ini_Section.

Definition ini_Empty : ini_File := [("DEFAULT", [])].

Fixpoint ini_hasSection (name : string) (cfg : ini_File) : bool :=
  match cfg with
  | [] => false
  | (n, _) :: rest => if String.eqb n name then true else ini_hasSection name rest
  end.

(** [File.NewSection]: an empty name is refused, an existing section is
    kept, a new one goes last. *)
Definition ini_NewSection (name : string) (cfg : ini_File) : error + ini_File :=
  if String.eqb name "" then inl (errorString "empty section name")
  else if ini_hasSection name cfg then inr cfg
  else inr (cfg ++ [(name, [])]).

(** [File.NewSections]: stops at the first refusal. *)
Fixpoint ini_NewSections (names : list string) (cfg : ini_File) : error + ini_File :=
  match names with
  | [] => inr cfg
  | n :: rest =>
      match ini_NewSection n cfg with
      | inl e => inl e
      | inr cfg' => ini_NewSections rest cfg'
      end
  end.

Fixpoint ini_setKey (key value : string) (keys : list (string * string))
  : list (string * string) :=
  match keys with
  | [] => [(key, value)]
  | (k, v) :: rest =>
      if String.eqb k key then (k, value) :: rest
      else (k, v) :: ini_setKey key value rest
  end.

(** [cfg.Section(sec).Key(key).SetValue(value)]: section and key are created
    on first use. *)
Fixpoint ini_SetValue (sec key value : string) (cfg : ini_File) : ini_File :=
  match cfg with
  | [] => [(sec, [(key, value)])]
  | (n, keys) :: rest =>
      if String.eqb n sec then (n, ini_setKey key value keys) :: rest
      else (n, keys) :: ini_SetValue sec key value rest
  end.

(** [File.WriteTo] into a [bytes.Buffer]: the buffer never refuses a write,
    so the call returns the content and no error.  The content is kept
    structured; the properties below do not depend on its spelling in bytes. *)
Definition ini_WriteTo (cfg : ini_File) : error + ini_File := inr cfg.

(** *** The world the daemon acts on *)

Inductive FileData : Type :=
| IniData (content : ini_File)
| OtherData.

Inductive LogEntry : Type :=
| LogInfo (msg : string)
| LogError (msg : string) (err : error)
| LogConfig (content : ini_File).

(** [files] is the file system by path; paths in [unwritable] refuse being
    opened for writing, and paths in [unremovable] refuse being unlinked
    (writing is a permission of the file, unlinking one of its directory).
    [exec_outcome] is what a child process started with a given argument
    vector ends with ([None]: exit status 0), and [cmds] is the list of
    argument vectors run so far, oldest first.  [logs] is the logger's
    output, oldest first. *)
Record World : Type := mkWorld {
  files : gmap string FileData;
  unwritable : gset string;
  unremovable : gset string;
  exec_outcome : list string -> option error;
  cmds : list (list string);
  logs : list LogEntry
}.

Definition M (A : Type) : Type := State World A.

Definition log (e : LogEntry) : M unit :=
  fun w => (tt, mkWorld (files w) (unwritable w) (unremovable w)
                        (exec_outcome w) (cmds w) (logs w ++ [e])).

(** [File.SaveTo]: the whole content or nothing. *)
Definition ini_SaveTo (cfg : ini_File) (file : string) : M (option error) :=
  fun w =>
    if decide (file ∈ unwritable w)
    then (Some (PathError "open" file "permission denied"), w)
    else (None, mkWorld (<[file := IniData cfg]> (files w)) (unwritable w)
                        (unremovable w) (exec_outcome w) (cmds w) (logs w)).

(** [os.Remove]. *)
Definition os_Remove (path : string) : M (option error) :=
  fun w =>
    match files w !! path with
    | None => (Some (PathError "remove" path "no such file or directory"), w)
    | Some _ =>
        if decide (path ∈ unremovable w)
        then (Some (PathError "remove" path "operation not permitted"), w)
        else (None, mkWorld (delete path (files w)) (unwritable w)
                            (unremovable w) (exec_outcome w) (cmds w) (logs w))
    end.

(** *** What the file uses and the repository declares elsewhere

    [workdir] is a package-level constant of the daemon,
    [supportedAccelerators.Devices] its table from PCI device id to device
    name (indexing a Go map at a missing key gives the empty string), and
    [Queues_String] the [String] method of the queue map of the v2 API.
    [filepath_Join] and [strings_ToLower] are the Go standard library's. *)
Class Externals : Type := {
  workdir : string;
  supportedAccelerators_Devices : gmap string string;
  Queues_String : UplinkDownlinkQueues -> string;
  filepath_Join : string -> string -> string;
  strings_ToLower : string -> string
}.

(** Modelled from the spec: [runExecCmd], the daemon's process-exec helper,
    is not part of the sources at hand.  It starts the child process with
    the given argument vector, waits for it, and returns its error. *)
Definition runExecCmd (args : list string) : M (option error) :=
  fun w => (exec_outcome w args,
            mkWorld (files w) (unwritable w) (unremovable w) (exec_outcome w)
                    (cmds w ++ [args]) (logs w)).

(** Modelled from the spec: [execAndSuppress], not part of the sources at
    hand either.  It runs the command as [runExecCmd] does and hands an
    error to the caller's [suppressError]; the error is dropped when that
    answers [true] and returned otherwise. *)
Definition execAndSuppress (args : list string)
    (suppressError : error -> M bool) : M (option error) :=
  err <- runExecCmd args ;;
  match err with
  | None => ret None
  | Some e =>
      suppressed <- suppressError e ;;
      if (suppressed : bool) then ret None else ret (Some e)
  end.

(** *** The functions of the file *)

Definition logBBDevConfigFile (cfg : ini_File) : M (option error) :=
  match ini_WriteTo cfg with
  | inl err =>
      ret (Some (errorString
                   ("Unable to write config to log writer, " +:+ Error err)))
  | inr b => log (LogConfig b) ;;; ret None
  end.

Definition modeValue (PFMode : bool) : string := if PFMode then "1" else "0".

Section WithExternals.
Context `{Externals}.

Definition generateN3000BBDevConfigFile (nc : option N3000BBDevConfig)
    (file : string) : M (option error) :=
  match nc with
  | None => ret (Some (errorString "received nil N3000BBDevConfig"))
  | Some nc =>
      match ini_NewSections [mode; ul; dl; flr] ini_Empty with
      | inl _ =>
          ret (Some (errorString "Unable to create sections in bbdevconfig"))
      | inr cfg =>
          let cfg := ini_SetValue mode pf_mode_en (modeValue (N3000_PFMode nc)) cfg in
          let cfg := ini_SetValue ul bandwidth (Go.Itoa (Bandwidth (Uplink nc))) cfg in
          let cfg := ini_SetValue ul load_balance (Go.Itoa (LoadBalance (Uplink nc))) cfg in
          let cfg := ini_SetValue ul vfqmap (Queues_String (Queues (Uplink nc))) cfg in
          let cfg := ini_SetValue dl bandwidth (Go.Itoa (Bandwidth (Downlink nc))) cfg in
          let cfg := ini_SetValue dl load_balance (Go.Itoa (LoadBalance (Downlink nc))) cfg in
          let cfg := ini_SetValue dl vfqmap (Queues_String (Queues (Downlink nc))) cfg in
          let cfg := ini_SetValue flr flr_time_out (Go.Itoa (FLRTimeOut nc)) cfg in
          err <- logBBDevConfigFile cfg ;;
          match err with
          | Some e => ret (Some e)
          | None =>
              err <- ini_SaveTo cfg file ;;
              match err with
              | Some _ =>
                  ret (Some (errorString
                               ("Unable to write config to file: " +:+ file)))
              | None => ret None
              end
          end
      end
  end.

(** The three sums of the capacity check, each a Go [int] addition. *)
Definition total4GQueueGroups (nc : ACC100BBDevConfig) : Z :=
  Go.add (NumQueueGroups (Uplink4G nc)) (NumQueueGroups (Downlink4G nc)).

Definition total5GQueueGroups (nc : ACC100BBDevConfig) : Z :=
  Go.add (NumQueueGroups (Uplink5G nc)) (NumQueueGroups (Downlink5G nc)).

Definition totalQueueGroups (nc : ACC100BBDevConfig) : Z :=
  Go.add (total4GQueueGroups nc) (total5GQueueGroups nc).

Definition ACC100_content (nc : ACC100BBDevConfig) (cfg : ini_File) : ini_File :=
  let cfg := ini_SetValue mode pf_mode_en (modeValue (ACC100_PFMode nc)) cfg in
  let cfg := ini_SetValue vfbundles num_vf_bundles (Go.Itoa (NumVfBundles nc)) cfg in
  let cfg := ini_SetValue maxqsize max_queue_size (Go.Itoa (MaxQueueSize nc)) cfg in
  let cfg := ini_SetValue uplink4g num_qgroups (Go.Itoa (NumQueueGroups (Uplink4G nc))) cfg in
  let cfg := ini_SetValue uplink4g num_aqs_per_groups (Go.Itoa (NumAqsPerGroups (Uplink4G nc))) cfg in
  let cfg := ini_SetValue uplink4g aq_depth_log2 (Go.Itoa (AqDepthLog2 (Uplink4G nc))) cfg in
  let cfg := ini_SetValue downlink4g num_qgroups (Go.Itoa (NumQueueGroups (Downlink4G nc))) cfg in
  let cfg := ini_SetValue downlink4g num_aqs_per_groups (Go.Itoa (NumAqsPerGroups (Downlink4G nc))) cfg in
  let cfg := ini_SetValue downlink4g aq_depth_log2 (Go.Itoa (AqDepthLog2 (Downlink4G nc))) cfg in
  let cfg := ini_SetValue uplink5g num_qgroups (Go.Itoa (NumQueueGroups (Uplink5G nc))) cfg in
  let cfg := ini_SetValue uplink5g num_aqs_per_groups (Go.Itoa (NumAqsPerGroups (Uplink5G nc))) cfg in
  let cfg := ini_SetValue uplink5g aq_depth_log2 (Go.Itoa (AqDepthLog2 (Uplink5G nc))) cfg in
  let cfg := ini_SetValue downlink5g num_qgroups (Go.Itoa (NumQueueGroups (Downlink5G nc))) cfg in
  let cfg := ini_SetValue downlink5g num_aqs_per_groups (Go.Itoa (NumAqsPerGroups (Downlink5G nc))) cfg in
  ini_SetValue downlink5g aq_depth_log2 (Go.Itoa (AqDepthLog2 (Downlink5G nc))) cfg.

Definition generateACC100BBDevConfigFile (nc : option ACC100BBDevConfig)
    (file : string) : M (option error) :=
  match nc with
  | None => ret (Some (errorString "received nil ACC100BBDevConfig"))
  | Some nc =>
      if totalQueueGroups nc >? maxQueueGroups
      then ret (Some (errorString
             ("Total number of requested queue groups (4G/5G) exceeds the maximum ("
              +:+ Go.Itoa maxQueueGroups +:+ ")")))
      else
        match ini_NewSections
                [mode; vfbundles; maxqsize; uplink4g; downlink4g; uplink5g; downlink5g]
                ini_Empty with
        | inl _ =>
            ret (Some (errorString "Unable to create sections in bbdevconfig"))
        | inr cfg =>
            let cfg := ACC100_content nc cfg in
            err <- logBBDevConfigFile cfg ;;
            match err with
            | Some e => ret (Some e)
            | None =>
                err <- ini_SaveTo cfg file ;;
                match err with
                | Some _ =>
                    ret (Some (errorString
                                 ("Unable to write config to file: " +:+ file)))
                | None => ret None
                end
            end
        end
  end.

Definition generateBBDevConfigFile (pfCfg : BBDevConfig) (file : string)
  : M (option error) :=
  match ACC100 pfCfg with
  | Some _ =>
      err <- generateACC100BBDevConfigFile (ACC100 pfCfg) file ;;
      match err with
      | Some e =>
          ret (Some (errorString
                       ("ACC100 config file creation failed, " +:+ Error e)))
      | None => ret None
      end
  | None =>
      match N3000 pfCfg with
      | Some _ =>
          err <- generateN3000BBDevConfigFile (N3000 pfCfg) file ;;
          match err with
          | Some e =>
              ret (Some (errorString
                           ("N3000 config file creation failed, " +:+ Error e)))
          | None => ret None
          end
      | None => ret (Some (errorString "Received nil configs"))
      end
  end.

Record pfBBConfigController : Type := {
  sharedVfioToken : string
}.

Definition NewPfBBConfigController (sharedVfioToken : string)
  : pfBBConfigController :=
  {| sharedVfioToken := sharedVfioToken |}.

Definition acceptedDeviceName (deviceName : string) : bool :=
  String.eqb deviceName "FPGA_LTE" || String.eqb deviceName "FPGA_5GNR"
  || String.eqb deviceName "ACC100".

(** [token] is a Go [*string]: [None] is [nil]. *)
Definition runPFConfig (p : pfBBConfigController)
    (deviceName cfgFilepath pciAddress : string) (token : option string)
  : M (option error) :=
  if negb (acceptedDeviceName deviceName)
  then ret (Some (errorString
                    ("incorrect deviceName for pf config: " +:+ deviceName)))
  else
    match token with
    | None =>
        runExecCmd [pfConfigAppFilepath; deviceName; "-c"; cfgFilepath;
                    "-p"; pciAddress]
    | Some token =>
        runExecCmd [pfConfigAppFilepath; deviceName; "-c"; cfgFilepath;
                    "-v"; token; "-p"; pciAddress]
    end.

Definition notNil {A} (ptr : option A) : bool :=
  match ptr with Some _ => true | None => false end.

(** The token handed to [runPFConfig]: the address of the controller's
    shared token for the VFIO driver, [nil] otherwise. *)
Definition tokenFor (p : pfBBConfigController) (pf : PhysicalFunctionConfigExt)
  : option string :=
  if String.eqb (strings_ToLower (PFDriver pf)) (strings_ToLower "vfio-pci")
  then Some (sharedVfioToken p)
  else None.

Definition initializePfBBConfig (p : pfBBConfigController)
    (acc : SriovAccelerator) (pf : PhysicalFunctionConfigExt)
  : M (option error) :=
  if notNil (N3000 (PF_BBDevConfig pf)) || notNil (ACC100 (PF_BBDevConfig pf))
  then
    let bbdevConfigFilepath := filepath_Join workdir (PCIAddress pf +:+ ".ini") in
    err <- generateBBDevConfigFile (PF_BBDevConfig pf) bbdevConfigFilepath ;;
    match err with
    | Some e =>
        log (LogError "failed to create bbdev config file" e) ;;;
        ret (Some e)
    | None =>
        (* the function's remainder, then the deferred removal *)
        result <-
          (let deviceName :=
             default "" (supportedAccelerators_Devices !! DeviceID acc) in
           let token := tokenFor p pf in
           err <- runPFConfig p deviceName bbdevConfigFilepath (PCIAddress pf) token ;;
           match err with
           | Some e =>
               log (LogError "failed to configure device's queues" e) ;;;
               ret (Some e)
           | None => ret None
           end) ;;
        err <- os_Remove bbdevConfigFilepath ;;
        match err with
        | Some e => log (LogError "failed to remove old bbdev config file" e)
        | None => ret tt
        end ;;;
        ret result
    end
  else
    log (LogInfo "N3000 and ACC100 BBDevConfig are nil - queues will not be (re)configured") ;;;
    ret None.

(** The function literal that [stopPfBBConfig] hands to [execAndSuppress]. *)
Definition pkillSuppress (e : error) : M bool :=
  match e with
  | ExitError code =>
      if code =? 1
      then
        log (LogInfo "ignoring errorCode(1) returned by pkill") ;;;
        ret true
      else ret false
  | _ => ret false
  end.

Definition stopPfBBConfig (p : pfBBConfigController) (pciAddress : string)
  : M (option error) :=
  err <- execAndSuppress
           ["chroot"; "/host/"; "pkill"; "-9"; "-f";
            "pf_bb_config.*" +:+ pciAddress]
           pkillSuppress ;;
  let sockFileToBeDeleted := "/tmp/pf_bb_config." +:+ pciAddress +:+ ".sock" in
  log (LogInfo ("deleting" +:+ sockFileToBeDeleted)) ;;;
  rmErr <- os_Remove sockFileToBeDeleted ;;
  match rmErr with
  | Some e =>
      log (LogInfo ("cannot remove (" +:+ sockFileToBeDeleted +:+ ")) file: "
                    +:+ Error e)) ;;;
      ret None
  | None => ret err
  end.

End WithExternals.

(** *** Vocabulary of the properties *)

(** The sum of the four queue-group counts as the specification reads it:
    the exact integer sum. *)
Definition exactQueueGroups (nc : ACC100BBDevConfig) : Z :=
  NumQueueGroups (Uplink4G nc) + NumQueueGroups (Downlink4G nc)
  + NumQueueGroups (Uplink5G nc) + NumQueueGroups (Downlink5G nc).

(** Both generators end in the same three steps. *)
Definition logAndSave (cfg : ini_File) (file : string) : M (option error) :=
  err <- logBBDevConfigFile cfg ;;
  match err with
  | Some e => ret (Some e)
  | None =>
      err <- ini_SaveTo cfg file ;;
      match err with
      | Some _ =>
          ret (Some (errorString ("Unable to write config to file: " +:+ file)))
      | None => ret None
      end
  end.

(** What the kill step reports: the error of the kill utility, except that
    exit code 1 counts as success. *)
Definition killStepResult (outcome : option error) : option error :=
  match outcome with
  | Some (ExitError code) => if code =? 1 then None else outcome
  | _ => outcome
  end.

End Daemon.

(** ** The cluster configuration reconciler:
       [controllers/sriovfecclusterconfig_controller.go] and the v1 API types *)

Module Controllers.

(** *** API types ([api/v1]) *)

Record UplinkDownlinkQueues : Type := {
  VF0 : Z; VF1 : Z; VF2 : Z; VF3 : Z; VF4 : Z; VF5 : Z; VF6 : Z; VF7 : Z
}.

Record UplinkDownlink : Type := {
  Bandwidth : Z;
  LoadBalance : Z;
  Queues : UplinkDownlinkQueues
}.

Record BBDevConfig : Type := {
  NetworkType : string;
  PFMode : bool;
  FLRTimeOut : Z;
  Downlink : UplinkDownlink;
  Uplink : UplinkDownlink
}.

Record CardConfig : Type := {
  PCIAddress : string;
  VendorID : string;
  PFDeviceID : string;
  PFDriver : string;
  VFDeviceID : string;
  VFDriver : string;
  VFAmount : Z;
  Card_BBDevConfig : BBDevConfig
}.

Record NodeConfig : Type := {
  NodeName : string;
  OneCardConfigForAll : bool;
  Cards : list CardConfig
}.

Record SriovFecClusterConfigSpec : Type := {
  OneNodeConfigForAll : bool;
  Nodes : list NodeConfig
}.

Record SriovFecClusterConfigStatus : Type := {
  SyncStatus : string;
  LastSyncError : string
}.

Record TypeMeta : Type := {
  APIVersion : string;
  Kind : string
}.

Record ObjectMeta : Type := {
  Name : string;
  Namespace : string
}.

Record SriovFecClusterConfig : Type := {
  CC_TypeMeta : TypeMeta;
  CC_ObjectMeta : ObjectMeta;
  CC_Spec : SriovFecClusterConfigSpec;
  CC_Status : SriovFecClusterConfigStatus
}.

(** The per-node object.  Its declaration is in another file of [api/v1];
    the fields are those the reconciler sets and reads.  The status belongs
    to the node daemon and is opaque content here. *)
Record SriovFecNodeConfigSpec : Type := {
  NC_OneCardConfigForAll : bool;
  NC_Cards : list CardConfig
}.

Record SriovFecNodeConfig : Type := {
  NC_TypeMeta : TypeMeta;
  NC_ObjectMeta : ObjectMeta;
  NC_Spec : SriovFecNodeConfigSpec;
  NC_Status : list (string * string)
}.

Definition GetName (nc : SriovFecNodeConfig) : string := Name (NC_ObjectMeta nc).
Definition GetNamespace (nc : SriovFecNodeConfig) : string :=
  Namespace (NC_ObjectMeta nc).

(** [corev1.Node], with what label selection and rendering read. *)
Record Node : Type := {
  Node_Name : string;
  Node_Labels : gmap string string
}.

Record NamespacedName : Type := {
  NN_Namespace : string;
  NN_Name : string
}.

(** [ctrl.Request] and [ctrl.Result]. *)
Record Request : Type := {
  Req_NamespacedName : NamespacedName
}.

Record Result : Type := {
  Requeue : bool;
  RequeueAfter : Z
}.

Definition emptyResult : Result := {| Requeue := false; RequeueAfter := 0 |}.

Definition DEFAULT_CLUSTER_CONFIG_NAME : string := "config".

(** *** Errors of the API client *)

Inductive StatusReason : Type :=
| NotFound
| AlreadyExists
| Conflict
| InternalError.

Inductive error : Type :=
| StatusError (reason : StatusReason)
| otherError (msg : string).

(** [errors.IsNotFound]. *)
Definition IsNotFound (e : error) : bool :=
  match e with
  | StatusError NotFound => true
  | _ => false
  end.

(** *** The control plane

    The API server is a collaborator: the world holds the objects it stores
    (in the order a list call returns them), the label-carrying nodes, and a
    schedule of injected faults.  Every client call takes the next entry of
    the schedule; [Some e] makes the call fail with [e] and change nothing,
    [None] (or an exhausted schedule) lets it run against the store.  [calls]
    is the history of client calls with their outcomes, oldest first.
    [NAMESPACE] is the environment variable the package reads at start-up. *)

Inductive Call : Type :=
| GetClusterConfigCall (key : NamespacedName)
| GetNodeConfigCall (key : NamespacedName)
| ListNodesCall (selector : list (string * string))
| ListNodeConfigsCall
| CreateCall (obj : SriovFecNodeConfig)
| UpdateCall (obj : SriovFecNodeConfig)
| DeleteCall (obj : SriovFecNodeConfig)
| StatusUpdateCall (obj : SriovFecClusterConfig).

Record World : Type := mkWorld {
  NAMESPACE : string;
  clusterConfigs : list SriovFecClusterConfig;
  nodeConfigs : list SriovFecNodeConfig;
  nodes : list Node;
  faults : list (option error);
  calls : list (Call * option error)
}.

Definition M (A : Type) : Type := State World A.

Definition getNAMESPACE : M string := fun w => (NAMESPACE w, w).

(** One client call: [run] is the call's effect on the store when no fault
    is injected; it gives the outcome, the value the call hands back and the
    store after. *)
Definition nextFault (w : World) : option error * list (option error) :=
  match faults w with
  | [] => (None, [])
  | f :: rest => (f, rest)
  end.

Definition record (c : Call) (outcome : option error) (w : World) : World :=
  mkWorld (NAMESPACE w) (clusterConfigs w) (nodeConfigs w) (nodes w)
          (snd (nextFault w)) (calls w ++ [(c, outcome)]).

Definition sameKey (ns name : string) (m : ObjectMeta) : bool :=
  String.eqb (Namespace m) ns && String.eqb (Name m) name.

Definition findClusterConfig (key : NamespacedName) (l : list SriovFecClusterConfig)
  : option SriovFecClusterConfig :=
  List.find (fun o => sameKey (NN_Namespace key) (NN_Name key) (CC_ObjectMeta o)) l.

Definition findNodeConfig (key : NamespacedName) (l : list SriovFecNodeConfig)
  : option SriovFecNodeConfig :=
  List.find (fun o => sameKey (NN_Namespace key) (NN_Name key) (NC_ObjectMeta o)) l.

Definition keyOf (m : ObjectMeta) : NamespacedName :=
  {| NN_Namespace := Namespace m; NN_Name := Name m |}.

(** [r.Get] of a cluster configuration. *)
Definition Get_ClusterConfig (key : NamespacedName)
  : M (error + SriovFecClusterConfig) :=
  fun w =>
    let c := GetClusterConfigCall key in
    match fst (nextFault w) with
    | Some e => (inl e, record c (Some e) w)
    | None =>
        match findClusterConfig key (clusterConfigs w) with
        | None => (inl (StatusError NotFound), record c (Some (StatusError NotFound)) w)
        | Some o => (inr o, record c None w)
        end
    end.

(** [r.Get] of a node configuration. *)
Definition Get_NodeConfig (key : NamespacedName)
  : M (error + SriovFecNodeConfig) :=
  fun w =>
    let c := GetNodeConfigCall key in
    match fst (nextFault w) with
    | Some e => (inl e, record c (Some e) w)
    | None =>
        match findNodeConfig key (nodeConfigs w) with
        | None => (inl (StatusError NotFound), record c (Some (StatusError NotFound)) w)
        | Some o => (inr o, record c None w)
        end
    end.

Definition matchesLabels (selector : list (string * string)) (n : Node) : bool :=
  forallb (fun kv => bool_decide (Node_Labels n !! fst kv = Some (snd kv))) selector.

(** [r.List] of nodes under a label selector. *)
Definition List_Nodes (selector : list (string * string))
  : M (error + list Node) :=
  fun w =>
    let c := ListNodesCall selector in
    match fst (nextFault w) with
    | Some e => (inl e, record c (Some e) w)
    | None => (inr (List.filter (matchesLabels selector) (nodes w)), record c None w)
    end.

(** [r.List] of the node configurations, in every namespace.  The list
    object of the caller is left empty when the call fails. *)
Definition List_NodeConfigs : M (option error * list SriovFecNodeConfig) :=
  fun w =>
    let c := ListNodeConfigsCall in
    match fst (nextFault w) with
    | Some e => ((Some e, []), record c (Some e) w)
    | None => ((None, nodeConfigs w), record c None w)
    end.

Definition withNodeConfigs (l : list SriovFecNodeConfig) (w : World) : World :=
  mkWorld (NAMESPACE w) (clusterConfigs w) l (nodes w) (faults w) (calls w).

Definition withClusterConfigs (l : list SriovFecClusterConfig) (w : World) : World :=
  mkWorld (NAMESPACE w) l (nodeConfigs w) (nodes w) (faults w) (calls w).

Definition isObj (obj : SriovFecNodeConfig) (o : SriovFecNodeConfig) : bool :=
  sameKey (GetNamespace obj) (GetName obj) (NC_ObjectMeta o).

(** [r.Create]. *)
Definition Create (obj : SriovFecNodeConfig) : M (option error) :=
  fun w =>
    let c := CreateCall obj in
    match fst (nextFault w) with
    | Some e => (Some e, record c (Some e) w)
    | None =>
        match findNodeConfig (keyOf (NC_ObjectMeta obj)) (nodeConfigs w) with
        | Some _ => (Some (StatusError AlreadyExists),
                     record c (Some (StatusError AlreadyExists)) w)
        | None => (None, record c None (withNodeConfigs (nodeConfigs w ++ [obj]) w))
        end
    end.

(** [r.Update]. *)
Definition Update (obj : SriovFecNodeConfig) : M (option error) :=
  fun w =>
    let c := UpdateCall obj in
    match fst (nextFault w) with
    | Some e => (Some e, record c (Some e) w)
    | None =>
        match findNodeConfig (keyOf (NC_ObjectMeta obj)) (nodeConfigs w) with
        | None => (Some (StatusError NotFound),
                   record c (Some (StatusError NotFound)) w)
        | Some _ =>
            (None, record c None
                     (withNodeConfigs
                        (List.map (fun o => if isObj obj o then obj else o)
                                  (nodeConfigs w)) w))
        end
    end.

(** [r.Delete]. *)
Definition Delete (obj : SriovFecNodeConfig) : M (option error) :=
  fun w =>
    let c := DeleteCall obj in
    match fst (nextFault w) with
    | Some e => (Some e, record c (Some e) w)
    | None =>
        match findNodeConfig (keyOf (NC_ObjectMeta obj)) (nodeConfigs w) with
        | None => (Some (StatusError NotFound),
                   record c (Some (StatusError NotFound)) w)
        | Some _ =>
            (None, record c None
                     (withNodeConfigs
                        (List.filter (fun o => negb (isObj obj o)) (nodeConfigs w)) w))
        end
    end.

Definition withStatus (st : SriovFecClusterConfigStatus) (o : SriovFecClusterConfig)
  : SriovFecClusterConfig :=
  {| CC_TypeMeta := CC_TypeMeta o; CC_ObjectMeta := CC_ObjectMeta o;
     CC_Spec := CC_Spec o; CC_Status := st |}.

(** [r.Status().Update]: the status of the stored object is replaced, the
    rest of it is kept. *)
Definition Status_Update (obj : SriovFecClusterConfig) : M (option error) :=
  fun w =>
    let c := StatusUpdateCall obj in
    match fst (nextFault w) with
    | Some e => (Some e, record c (Some e) w)
    | None =>
        match findClusterConfig (keyOf (CC_ObjectMeta obj)) (clusterConfigs w) with
        | None => (Some (StatusError NotFound),
                   record c (Some (StatusError NotFound)) w)
        | Some _ =>
            (None, record c None
                     (withClusterConfigs
                        (List.map (fun o =>
                           if sameKey (Namespace (CC_ObjectMeta obj))
                                      (Name (CC_ObjectMeta obj)) (CC_ObjectMeta o)
                           then withStatus (CC_Status obj) o else o)
                           (clusterConfigs w)) w))
        end
    end.

(** *** The functions of the reconciler

    The logger calls of the source change nothing the reconciler or the
    API server reads, and are left out. *)

Definition intelAcceleratorLabels : list (string * string) :=
  [("node-role.kubernetes.io/worker", "");
   ("beta.kubernetes.io/os", "linux");
   ("feature.node.kubernetes.io/pci-8086.present", "true")].

Definition getNodesWithIntelAccelerator : M (error + list Node) :=
  res <- List_Nodes intelAcceleratorLabels ;;
  match res with
  | inl err => ret (inl err)
  | inr nodeList => ret (inr nodeList)
  end.

Definition nodeConfigTypeMeta : TypeMeta :=
  {| APIVersion := "v1"; Kind := "SriovFecNodeConfig" |}.

(** The object literal of the source followed by [SetName] and
    [SetNamespace]. *)
Definition newNodeCfg (oneCardConfigForAll : bool) (cards : list CardConfig)
    (name : string) : SriovFecNodeConfig :=
  {| NC_TypeMeta := nodeConfigTypeMeta;
     NC_ObjectMeta := {| Name := name; Namespace := "default" |};
     NC_Spec := {| NC_OneCardConfigForAll := oneCardConfigForAll;
                   NC_Cards := cards |};
     NC_Status := [] |}.

(** The closure [nodeHasAccelerator] of [renderNodeConfigs]. *)
Fixpoint nodeHasAccelerator (items : list Node) (nodeName : string) : bool :=
  match items with
  | [] => false
  | node :: rest =>
      if String.eqb (Node_Name node) nodeName then true
      else nodeHasAccelerator rest nodeName
  end.

(** The loop of the uniform branch.  [Nodes[0]] is evaluated in every
    iteration; on an empty slice Go panics (index out of range), which is
    the result [None]. *)
Fixpoint renderForAll (specNodes : list NodeConfig) (items : list Node)
  : option (list SriovFecNodeConfig) :=
  match items with
  | [] => Some []
  | node :: rest =>
      match specNodes with
      | [] => None
      | first :: _ =>
          match renderForAll specNodes rest with
          | None => None
          | Some nodeConfigs =>
              Some (newNodeCfg true (Cards first) (Node_Name node) :: nodeConfigs)
          end
      end
  end.

(** The loop of the per-node branch. *)
Fixpoint renderPerNode (items : list Node) (specNodes : list NodeConfig)
  : list SriovFecNodeConfig :=
  match specNodes with
  | [] => []
  | nodeConfigSpec :: rest =>
      if negb (nodeHasAccelerator items (NodeName nodeConfigSpec))
      then renderPerNode items rest
      else newNodeCfg (OneCardConfigForAll nodeConfigSpec) (Cards nodeConfigSpec)
                      (NodeName nodeConfigSpec)
           :: renderPerNode items rest
  end.

Definition renderNodeConfigs (clusterConfig : SriovFecClusterConfig)
    (nodeList : list Node) : option (list SriovFecNodeConfig) :=
  if OneNodeConfigForAll (CC_Spec clusterConfig)
  then renderForAll (Nodes (CC_Spec clusterConfig)) nodeList
  else Some (renderPerNode nodeList (Nodes (CC_Spec clusterConfig))).

Definition updateOrCreateNodeConfig (nodeCfg : SriovFecNodeConfig)
  : M (option error) :=
  res <- Get_NodeConfig {| NN_Namespace := GetNamespace nodeCfg;
                           NN_Name := GetName nodeCfg |} ;;
  match res with
  | inl err =>
      if IsNotFound err
      then
        err <- Create nodeCfg ;;
        match err with
        | Some e => ret (Some e)
        | None => ret None
        end
      else ret (Some err)
  | inr prev =>
      let prev := {| NC_TypeMeta := NC_TypeMeta prev;
                     NC_ObjectMeta := NC_ObjectMeta prev;
                     NC_Spec := NC_Spec nodeCfg;
                     NC_Status := NC_Status prev |} in
      err <- Update prev ;;
      match err with
      | Some e => ret (Some e)
      | None => ret None
      end
  end.

(** The inner loop of [removeOldNodeConfigs]: the final value of [deleteNC]. *)
Fixpoint deleteNC (nc : SriovFecNodeConfig) (newNodeCfgs : list SriovFecNodeConfig)
  : bool :=
  match newNodeCfgs with
  | [] => true
  | nNC :: rest =>
      if String.eqb (GetName nc) (GetName nNC) then false
      else deleteNC nc rest
  end.

(** The outer loop of [removeOldNodeConfigs]. *)
Fixpoint removeEach (newNodeCfgs : list SriovFecNodeConfig)
    (items : list SriovFecNodeConfig) : M (option error) :=
  match items with
  | [] => ret None
  | nc :: rest =>
      if deleteNC nc newNodeCfgs
      then
        err <- Delete nc ;;
        match err with
        | Some e => ret (Some e)
        | None => removeEach newNodeCfgs rest
        end
      else removeEach newNodeCfgs rest
  end.

Definition removeOldNodeConfigs (newNodeCfgs : list SriovFecNodeConfig)
  : M (option error) :=
  res <- List_NodeConfigs ;;
  let '(err, ncList) := res in
  match err with
  | Some e =>
      if negb (IsNotFound e) then ret (Some e)
      else removeEach newNodeCfgs ncList
  | None => removeEach newNodeCfgs ncList
  end.

(** The loop of [syncNodeConfigs]. *)
Fixpoint updateOrCreateEach (nodeCfgs : list SriovFecNodeConfig)
  : M (option error) :=
  match nodeCfgs with
  | [] => ret None
  | nodeCfg :: rest =>
      err <- updateOrCreateNodeConfig nodeCfg ;;
      match err with
      | Some e => ret (Some e)
      | None => updateOrCreateEach rest
      end
  end.

Definition syncNodeConfigs (nodeCfgs : list SriovFecNodeConfig)
  : M (option error) :=
  err <- removeOldNodeConfigs nodeCfgs ;;
  match err with
  | Some e => ret (Some e)
  | None => updateOrCreateEach nodeCfgs
  end.

(** The closure [updateStatus] of [Reconcile]; a failure of the status
    write is logged and goes no further. *)
Definition updateStatus (clusterConfig : SriovFecClusterConfig)
    (status reason : string) : M unit :=
  let clusterConfig :=
    withStatus {| SyncStatus := status; LastSyncError := reason |} clusterConfig in
  _ <- Status_Update clusterConfig ;;
  ret tt.

(** The validation loop of [Reconcile]: the index of the first node entry
    that asks for one card configuration for all cards and does not carry
    exactly one. *)
Fixpoint firstInvalidNode (idx : Z) (specNodes : list NodeConfig) : option Z :=
  match specNodes with
  | [] => None
  | nodeConfig :: rest =>
      if OneCardConfigForAll nodeConfig && negb (Go.len (Cards nodeConfig) =? 1)
      then Some idx
      else firstInvalidNode (idx + 1) rest
  end.

(** [Reconcile] from its validation loop over the node entries to its end.
    The result [None] stands for a panic. *)
Definition reconcileNodes (clusterConfig : SriovFecClusterConfig)
  : M (option (Result * option error)) :=
  let spec := CC_Spec clusterConfig in
  match firstInvalidNode 0 (Nodes spec) with
  | Some idx =>
      updateStatus clusterConfig "InvalidConfig"
        ("OneCardConfigForAll requested but amount of provided cardConfigs is "
         +:+ Go.Itoa (Go.len (Nodes spec)) +:+ " (should be 1) for "
         +:+ Go.Itoa idx +:+ " node on the list") ;;;
      ret (Some (emptyResult, None))
  | None =>
      res <- getNodesWithIntelAccelerator ;;
      match res with
      | inl err =>
          updateStatus clusterConfig "NfdFailure"
            "failed to obtain nodes with Intel accelerator - check logs" ;;;
          ret (Some (emptyResult, Some err))
      | inr nodeList =>
          match renderNodeConfigs clusterConfig nodeList with
          | None => ret None
          | Some nodeConfigs =>
              err <- syncNodeConfigs nodeConfigs ;;
              match err with
              | Some e =>
                  updateStatus clusterConfig "NodeConfigsCreationFailed"
                    "failed to create NodeConfigs - check logs" ;;;
                  ret (Some (emptyResult, Some e))
              | None =>
                  updateStatus clusterConfig "NodeConfigsCreated" "" ;;;
                  ret (Some (emptyResult, None))
              end
          end
      end
  end.

Definition Reconcile (req : Request) : M (option (Result * option error)) :=
  res <- Get_ClusterConfig (Req_NamespacedName req) ;;
  match res with
  | inl err =>
      if IsNotFound err then ret (Some (emptyResult, None))
      else ret (Some (emptyResult, Some err))
  | inr clusterConfig =>
      ns <- getNAMESPACE ;;
      if negb (String.eqb (NN_Namespace (Req_NamespacedName req)) ns)
         || negb (String.eqb (NN_Name (Req_NamespacedName req))
                             DEFAULT_CLUSTER_CONFIG_NAME)
      then
        updateStatus clusterConfig "Ignored"
          ("Only SriovFecClusterConfig with name '" +:+ DEFAULT_CLUSTER_CONFIG_NAME
           +:+ "' and namespace '" +:+ ns +:+ "' are handled") ;;;
        ret (Some (emptyResult, None))
      else
        let spec := CC_Spec clusterConfig in
        if OneNodeConfigForAll spec
        then
          if negb (Go.len (Nodes spec) =? 1)
          then
            updateStatus clusterConfig "InvalidConfig"
              ("OneNodeConfigForAll requested but amount of provided nodeConfigs is "
               +:+ Go.Itoa (Go.len (Nodes spec)) +:+ " (should be 1)") ;;;
            ret (Some (emptyResult, None))
          else
            match Nodes spec with
            | [] => ret None
            | first :: _ =>
                if negb (OneCardConfigForAll first)
                then
                  updateStatus clusterConfig "InvalidConfig"
                    "OneNodeConfigForAll requested but OneCardConfigForAll is false. It must be true" ;;;
                  ret (Some (emptyResult, None))
                else reconcileNodes clusterConfig
            end
        else reconcileNodes clusterConfig
  end.

(** *** Vocabulary of the properties *)

Definition isDeleteCall (c : Call) : bool :=
  match c with DeleteCall _ => true | _ => false end.

(** The calls of [updateOrCreateNodeConfig]. *)
Definition isUpsertCall (c : Call) : bool :=
  match c with
  | GetNodeConfigCall _ | CreateCall _ | UpdateCall _ => true
  | _ => false
  end.

(** The calls that change the stored node configurations. *)
Definition isWriteCall (c : Call) : bool :=
  match c with
  | CreateCall _ | UpdateCall _ | DeleteCall _ => true
  | _ => false
  end.

Definition outcomeOf {A} (res : error + A) : option error :=
  match res with inl e => Some e | inr _ => None end.

(** What a list call of the node configurations hands to the caller. *)
Definition listed (outcome : option error) (w : World) : list SriovFecNodeConfig :=
  match outcome with None => nodeConfigs w | Some _ => [] end.

(** The object a delete call of a successful removal names. *)
Definition deleted (nc : SriovFecNodeConfig) : Call * option error :=
  (DeleteCall nc, None).

Definition stale (newNodeCfgs : list SriovFecNodeConfig)
    (items : list SriovFecNodeConfig) : list SriovFecNodeConfig :=
  List.filter (fun nc => deleteNC nc newNodeCfgs) items.

Definition creationFailed : SriovFecClusterConfigStatus :=
  {| SyncStatus := "NodeConfigsCreationFailed";
     LastSyncError := "failed to create NodeConfigs - check logs" |}.

(** The delete calls of a removal phase that a failed delete ended with
    [e]: the stale objects before the failing one were deleted, in their
    order, and the failing call is the last one. *)
Definition deletedUntil (staleItems : list SriovFecNodeConfig)
    (dels : list (Call * option error)) (e : error) : Prop :=
  exists pre nc post,
    staleItems = pre ++ nc :: post /\
    dels = map deleted pre ++ [(DeleteCall nc, Some e)].

(** The last step of a pass whose synchronisation failed: the status write
    for the cluster configuration the pass works on. *)
Definition endsInCreationFailed (clusterConfig : SriovFecClusterConfig)
    (w w' : World) : Prop :=
  exists w2 d2,
    w' = snd (updateStatus clusterConfig "NodeConfigsCreationFailed"
                "failed to create NodeConfigs - check logs" w2) /\
    calls w2 = calls w ++ d2.

(** What the history of a pass for [req] started in [w] shows: a failed
    create, update or delete is returned, and the pass ends in the status
    write for the cluster configuration that its get call loaded. *)
Definition failedWriteReported (req : Request) (w : World)
    (res : option (Result * option error) * World) : Prop :=
  exists d,
    calls (snd res) = calls w ++ d /\
    forall c e, In (c, Some e) d -> isWriteCall c = true ->
      fst res = Some (emptyResult, Some e) /\
      exists loaded,
        fst (Get_ClusterConfig (Req_NamespacedName req) w) = inr loaded /\
        endsInCreationFailed loaded w (snd res).

End Controllers.

(** ** Concrete inputs *)

Module Examples.

(** *** For the daemon *)

(** ASCII lower-casing, as [strings.ToLower] acts on ASCII text. *)
Definition lowerAscii (c : ascii) : ascii :=
  let n := nat_of_ascii c in
  if (65 <=? n)%nat && (n <=? 90)%nat then ascii_of_nat (n + 32) else c.

Fixpoint lowerString (s : string) : string :=
  match s with
  | EmptyString => EmptyString
  | String c rest => String (lowerAscii c) (lowerString rest)
  end.

Definition queuesString (q : Daemon.UplinkDownlinkQueues) : string :=
  Go.Itoa (Daemon.VF0 q) +:+ "," +:+ Go.Itoa (Daemon.VF1 q) +:+ "," +:+
  Go.Itoa (Daemon.VF2 q) +:+ "," +:+ Go.Itoa (Daemon.VF3 q) +:+ "," +:+
  Go.Itoa (Daemon.VF4 q) +:+ "," +:+ Go.Itoa (Daemon.VF5 q) +:+ "," +:+
  Go.Itoa (Daemon.VF6 q) +:+ "," +:+ Go.Itoa (Daemon.VF7 q).

Definition externals : Daemon.Externals :=
  {| Daemon.workdir := "/sriov_artifacts";
     Daemon.supportedAccelerators_Devices :=
       <["0d8f" := "FPGA_5GNR"]> (<["5052" := "FPGA_LTE"]> (<["0d5c" := "ACC100"]> ∅));
     Daemon.Queues_String := queuesString;
     Daemon.filepath_Join := fun dir name => dir +:+ "/" +:+ name;
     Daemon.strings_ToLower := lowerString |}.

Definition queueGroup (n : Z) : Daemon.QueueGroupConfig :=
  {| Daemon.NumQueueGroups := n; Daemon.NumAqsPerGroups := 16;
     Daemon.AqDepthLog2 := 4 |}.

Definition acc100 (ul4 dl4 ul5 dl5 : Z) : Daemon.ACC100BBDevConfig :=
  {| Daemon.ACC100_PFMode := false; Daemon.NumVfBundles := 16;
     Daemon.MaxQueueSize := 1024;
     Daemon.Uplink4G := queueGroup ul4; Daemon.Downlink4G := queueGroup dl4;
     Daemon.Uplink5G := queueGroup ul5; Daemon.Downlink5G := queueGroup dl5 |}.

(** Nine queue groups: 2 + 2 + 3 + 2. *)
Definition acc100Nine : Daemon.ACC100BBDevConfig := acc100 2 2 3 2.

(** Eight queue groups. *)
Definition acc100Eight : Daemon.ACC100BBDevConfig := acc100 2 2 2 2.

(** Two values of [2^62] each: their Go sum is [-2^63]. *)
Definition acc100Huge : Daemon.ACC100BBDevConfig :=
  acc100 (2 ^ 62) (2 ^ 62) 0 0.

Definition queues0 : Daemon.UplinkDownlinkQueues :=
  {| Daemon.VF0 := 16; Daemon.VF1 := 16; Daemon.VF2 := 0; Daemon.VF3 := 0;
     Daemon.VF4 := 0; Daemon.VF5 := 0; Daemon.VF6 := 0; Daemon.VF7 := 0 |}.

Definition link0 : Daemon.UplinkDownlink :=
  {| Daemon.Bandwidth := 3; Daemon.LoadBalance := 128; Daemon.Queues := queues0 |}.

Definition n3000 : Daemon.N3000BBDevConfig :=
  {| Daemon.N3000_PFMode := false; Daemon.FLRTimeOut := 610;
     Daemon.Downlink := link0; Daemon.Uplink := link0 |}.

Definition artifact : string := "/sriov_artifacts/0000:af:00.0.ini".

Definition pkillArgs (pciAddress : string) : list string :=
  ["chroot"; "/host/"; "pkill"; "-9"; "-f"; "pf_bb_config.*" +:+ pciAddress].

(** A node with an empty work directory on which every command succeeds. *)
Definition quietWorld : Daemon.World :=
  Daemon.mkWorld ∅ ∅ ∅ (fun _ => None) [] [].

(** A node on which the kill utility ends with the given exit code and any
    other command succeeds; the socket file of the card is there or not. *)
Definition killWorld (code : Z) (socketThere : bool) : Daemon.World :=
  Daemon.mkWorld
    (if socketThere
     then {[ "/tmp/pf_bb_config.0000:af:00.0.sock" := Daemon.OtherData ]}
     else ∅)
    ∅ ∅
    (fun args =>
       if bool_decide (args = pkillArgs "0000:af:00.0")
       then Some (Daemon.ExitError code) else None)
    [] [].

Definition controller : Daemon.pfBBConfigController :=
  Daemon.NewPfBBConfigController "02bddbbf-bbb0-4d79-886b-91bad3fbb510".

Definition accelerator : Daemon.SriovAccelerator :=
  {| Daemon.DeviceID := "0d5c" |}.

Definition pfWith (driver : string) (cfg : Daemon.BBDevConfig)
  : Daemon.PhysicalFunctionConfigExt :=
  {| Daemon.PCIAddress := "0000:af:00.0"; Daemon.PFDriver := driver;
     Daemon.PF_BBDevConfig := cfg |}.

Definition bothNil : Daemon.BBDevConfig :=
  {| Daemon.N3000 := None; Daemon.ACC100 := None |}.

Definition bothSet : Daemon.BBDevConfig :=
  {| Daemon.N3000 := Some n3000; Daemon.ACC100 := Some acc100Eight |}.

Definition onlyACC100 : Daemon.BBDevConfig :=
  {| Daemon.N3000 := None; Daemon.ACC100 := Some acc100Eight |}.

(** A node whose artifact path cannot be written. *)
Definition readOnlyWorld : Daemon.World :=
  Daemon.mkWorld ∅ {[ artifact ]} ∅ (fun _ => None) [] [].

(** A node on which every command ends with exit code 3, and which holds a
    file of an earlier run at the artifact's path. *)
Definition toolFailsWorld : Daemon.World :=
  Daemon.mkWorld {[ artifact := Daemon.OtherData ]} ∅ ∅
    (fun _ => Some (Daemon.ExitError 3)) [] [].

(** A node with an empty work directory on which every command succeeds,
    and whose file system refuses the removal of the artifact. *)
Definition stickyWorld : Daemon.World :=
  Daemon.mkWorld ∅ ∅ {[ artifact ]} (fun _ => None) [] [].

(** A device id that is not in the table of [externals]. *)
Definition unknownAccelerator : Daemon.SriovAccelerator :=
  {| Daemon.DeviceID := "ffff" |}.

Definition onlyN3000 : Daemon.BBDevConfig :=
  {| Daemon.N3000 := Some n3000; Daemon.ACC100 := None |}.

Definition nineGroups : Daemon.BBDevConfig :=
  {| Daemon.N3000 := None; Daemon.ACC100 := Some acc100Nine |}.

(** *** For the reconciler *)

Definition queuesA : Controllers.UplinkDownlinkQueues :=
  {| Controllers.VF0 := 16; Controllers.VF1 := 16; Controllers.VF2 := 0;
     Controllers.VF3 := 0; Controllers.VF4 := 0; Controllers.VF5 := 0;
     Controllers.VF6 := 0; Controllers.VF7 := 0 |}.

Definition linkA : Controllers.UplinkDownlink :=
  {| Controllers.Bandwidth := 3; Controllers.LoadBalance := 128;
     Controllers.Queues := queuesA |}.

Definition cardA : Controllers.CardConfig :=
  {| Controllers.PCIAddress := "0000:af:00.0";
     Controllers.VendorID := "8086";
     Controllers.PFDeviceID := "0d8f";
     Controllers.PFDriver := "pci-pf-stub";
     Controllers.VFDeviceID := "0d90";
     Controllers.VFDriver := "vfio-pci";
     Controllers.VFAmount := 2;
     Controllers.Card_BBDevConfig :=
       {| Controllers.NetworkType := "FPGA_5GNR"; Controllers.PFMode := false;
          Controllers.FLRTimeOut := 610; Controllers.Downlink := linkA;
          Controllers.Uplink := linkA |} |}.

(** A worker node that node feature discovery has labelled. *)
Definition worker (name : string) : Controllers.Node :=
  {| Controllers.Node_Name := name;
     Controllers.Node_Labels :=
       <["node-role.kubernetes.io/worker" := ""]>
         (<["beta.kubernetes.io/os" := "linux"]>
            (<["feature.node.kubernetes.io/pci-8086.present" := "true"]> ∅)) |}.

Definition inventory3 : list Controllers.Node :=
  [worker "n1"; worker "n2"; worker "n3"].

Definition inventory2 : list Controllers.Node :=
  [worker "worker-1"; worker "worker-2"].

Definition entry (name : string) (oneCard : bool) : Controllers.NodeConfig :=
  {| Controllers.NodeName := name; Controllers.OneCardConfigForAll := oneCard;
     Controllers.Cards := [cardA] |}.

Definition operatorNamespace : string := "vran-acceleration-operators".

Definition clusterConfig (uniform : bool) (entries : list Controllers.NodeConfig)
  : Controllers.SriovFecClusterConfig :=
  {| Controllers.CC_TypeMeta :=
       {| Controllers.APIVersion := "sriovfec.intel.com/v1";
          Controllers.Kind := "SriovFecClusterConfig" |};
     Controllers.CC_ObjectMeta :=
       {| Controllers.Name := "config"; Controllers.Namespace := operatorNamespace |};
     Controllers.CC_Spec :=
       {| Controllers.OneNodeConfigForAll := uniform;
          Controllers.Nodes := entries |};
     Controllers.CC_Status :=
       {| Controllers.SyncStatus := ""; Controllers.LastSyncError := "" |} |}.

(** Uniform mode, one entry. *)
Definition uniformConfig : Controllers.SriovFecClusterConfig :=
  clusterConfig true [entry "" true].

(** Uniform mode with an entry that declares [oneCardConfigForAll] false. *)
Definition uniformDeclaredFalse : Controllers.SriovFecClusterConfig :=
  clusterConfig true [entry "" false].

(** Per-node mode: an entry for a node that is not in [inventory2], then an
    entry for a node that is. *)
Definition perNodeConfig : Controllers.SriovFecClusterConfig :=
  clusterConfig false [entry "worker-9" true; entry "worker-1" true].

Definition request : Controllers.Request :=
  {| Controllers.Req_NamespacedName :=
       {| Controllers.NN_Namespace := operatorNamespace;
          Controllers.NN_Name := "config" |} |}.

Definition storedNodeConfig (name : string) : Controllers.SriovFecNodeConfig :=
  Controllers.newNodeCfg true [cardA] name.

(** A cluster with the honoured cluster configuration in per-node mode for
    [worker-1], no node configuration stored yet, and an API server that
    fails the fifth call of the pass: the create. *)
Definition createFailsWorld : Controllers.World :=
  Controllers.mkWorld operatorNamespace
    [clusterConfig false [entry "worker-1" true]]
    []
    inventory2
    [None; None; None; None;
     Some (Controllers.StatusError Controllers.InternalError)]
    [].

(** A cluster that stores the node configurations of [n1] and [n2], for a
    synchronisation whose target set is [n2] and [n4]. *)
Definition shrinkingWorld : Controllers.World :=
  Controllers.mkWorld operatorNamespace [] [storedNodeConfig "n1"; storedNodeConfig "n2"]
    [] [] [].

(** A cluster with one cluster configuration, the nodes of [inventory2], a
    store of node configurations and a fault schedule. *)
Definition clusterWorld (cc : Controllers.SriovFecClusterConfig)
    (store : list Controllers.SriovFecNodeConfig)
    (schedule : list (option Controllers.error)) : Controllers.World :=
  Controllers.mkWorld operatorNamespace [cc] store inventory2 schedule [].

(** The stored node configuration of [worker-1] with a status that the
    node daemon has written, and a spec for no cards. *)
Definition reportedNodeConfig : Controllers.SriovFecNodeConfig :=
  {| Controllers.NC_TypeMeta := Controllers.nodeConfigTypeMeta;
     Controllers.NC_ObjectMeta :=
       {| Controllers.Name := "worker-1"; Controllers.Namespace := "default" |};
     Controllers.NC_Spec :=
       {| Controllers.NC_OneCardConfigForAll := false; Controllers.NC_Cards := [] |};
     Controllers.NC_Status := [("inventory", "0000:af:00.0")] |}.

(** The stored node configuration of a node that has left the target set. *)
Definition leftoverNodeConfig : Controllers.SriovFecNodeConfig :=
  storedNodeConfig "worker-7".

(** The honoured cluster configuration in per-node mode for [worker-1] and
    [worker-2]. *)
Definition twoWorkersConfig : Controllers.SriovFecClusterConfig :=
  clusterConfig false [entry "worker-1" true; entry "worker-2" true].

(** A cluster configuration under another name, and the request for it. *)
Definition otherConfig : Controllers.SriovFecClusterConfig :=
  {| Controllers.CC_TypeMeta := Controllers.CC_TypeMeta twoWorkersConfig;
     Controllers.CC_ObjectMeta :=
       {| Controllers.Name := "other"; Controllers.Namespace := operatorNamespace |};
     Controllers.CC_Spec := Controllers.CC_Spec twoWorkersConfig;
     Controllers.CC_Status := Controllers.CC_Status twoWorkersConfig |}.

Definition otherRequest : Controllers.Request :=
  {| Controllers.Req_NamespacedName :=
       {| Controllers.NN_Namespace := operatorNamespace;
          Controllers.NN_Name := "other" |} |}.

Definition internalError : Controllers.error :=
  Controllers.StatusError Controllers.InternalError.

(** The target set of [twoWorkersConfig] over [inventory2]. *)
Definition twoTargets : list Controllers.SriovFecNodeConfig :=
  [storedNodeConfig "worker-1"; storedNodeConfig "worker-2"].

(** A cluster that stores the leftover object and the object of
    [worker-1], with no fault injected. *)
Definition staleStore : Controllers.World :=
  clusterWorld twoWorkersConfig [leftoverNodeConfig; reportedNodeConfig] [].

(** The cluster of [staleStore] with an API server that answers the third
    call of the pass, the list call of the node configurations, NotFound. *)
Definition listNotFoundWorld : Controllers.World :=
  clusterWorld twoWorkersConfig [leftoverNodeConfig; reportedNodeConfig]
    [None; None; Some (Controllers.StatusError Controllers.NotFound)].

(** The create call of the pass over [createFailsWorld]. *)
Definition createWorker1 : Controllers.Call :=
  Controllers.CreateCall (Controllers.newNodeCfg true [cardA] "worker-1").

End Examples.

(** ** The artifacts and command lines, spelled out *)

Module DaemonLayout.
Import Daemon.

Definition queueGroupKeys (q : QueueGroupConfig) : list (string * string) :=
  [(num_qgroups, Go.Itoa (NumQueueGroups q));
   (num_aqs_per_groups, Go.Itoa (NumAqsPerGroups q));
   (aq_depth_log2, Go.Itoa (AqDepthLog2 q))].

(** The ACC100 artifact: the default section, then the seven sections in
    the order the generator creates them. *)
Definition acc100Artifact (nc : ACC100BBDevConfig) : ini_File :=
  [("DEFAULT", []);
   ("MODE", [("pf_mode_en", if ACC100_PFMode nc then "1" else "0")]);
   ("VFBUNDLES", [("num_vf_bundles", Go.Itoa (NumVfBundles nc))]);
   ("MAXQSIZE", [("max_queue_size", Go.Itoa (MaxQueueSize nc))]);
   ("QUL4G", queueGroupKeys (Uplink4G nc));
   ("QDL4G", queueGroupKeys (Downlink4G nc));
   ("QUL5G", queueGroupKeys (Uplink5G nc));
   ("QDL5G", queueGroupKeys (Downlink5G nc))].

Section WithExternals.
Context `{Externals}.

Definition linkKeys (l : UplinkDownlink) : list (string * string) :=
  [("bandwidth", Go.Itoa (Bandwidth l));
   ("load_balance", Go.Itoa (LoadBalance l));
   ("vfqmap", Queues_String (Queues l))].

(** The N3000 artifact. *)
Definition n3000Artifact (nc : N3000BBDevConfig) : ini_File :=
  [("DEFAULT", []);
   ("MODE", [("pf_mode_en", if N3000_PFMode nc then "1" else "0")]);
   ("UL", linkKeys (Uplink nc));
   ("DL", linkKeys (Downlink nc));
   ("FLR", [("flr_time_out", Go.Itoa (FLRTimeOut nc))])].

(** The content the generator compiles for a configuration: the ACC100
    variant's when it is set, the N3000 variant's otherwise. *)
Definition artifactOf (pfCfg : BBDevConfig) : option ini_File :=
  match ACC100 pfCfg, N3000 pfCfg with
  | Some a, _ => Some (acc100Artifact a)
  | None, Some n => Some (n3000Artifact n)
  | None, None => None
  end.

(** The path of the artifact of a card. *)
Definition artifactPath (pf : PhysicalFunctionConfigExt) : string :=
  filepath_Join workdir (PCIAddress pf +:+ ".ini").

Definition deviceNameOf (acc : SriovAccelerator) : string :=
  default "" (supportedAccelerators_Devices !! DeviceID acc).

(** The command line of the configuration tool for a card. *)
Definition applyArgs (p : pfBBConfigController) (acc : SriovAccelerator)
    (pf : PhysicalFunctionConfigExt) : list string :=
  if String.eqb (strings_ToLower (PFDriver pf)) (strings_ToLower "vfio-pci")
  then [pfConfigAppFilepath; deviceNameOf acc; "-c"; artifactPath pf;
        "-v"; sharedVfioToken p; "-p"; PCIAddress pf]
  else [pfConfigAppFilepath; deviceNameOf acc; "-c"; artifactPath pf;
        "-p"; PCIAddress pf].

End WithExternals.

(** The capacity condition of a configuration: the Go sum of the four
    queue-group counts of the ACC100 variant is at most 8; the N3000 variant
    has none. *)
Definition compiles (pfCfg : BBDevConfig) : Prop :=
  match ACC100 pfCfg, N3000 pfCfg with
  | Some a, _ => totalQueueGroups a <= maxQueueGroups
  | None, Some _ => True
  | None, None => False
  end.

(** The command line of the kill step and the socket file of a card. *)
Definition pkillArgs (pciAddress : string) : list string :=
  ["chroot"; "/host/"; "pkill"; "-9"; "-f"; "pf_bb_config.*" +:+ pciAddress].

Definition socketPath (pciAddress : string) : string :=
  "/tmp/pf_bb_config." +:+ pciAddress +:+ ".sock".

(** A world with its file system, command list and log replaced. *)
Definition withFiles (f : gmap string FileData) (w : World) : World :=
  mkWorld f (unwritable w) (unremovable w) (exec_outcome w) (cmds w) (logs w).

Definition withLogged (e : LogEntry) (w : World) : World :=
  mkWorld (files w) (unwritable w) (unremovable w) (exec_outcome w) (cmds w)
          (logs w ++ [e]).

End DaemonLayout.

(** ** The store of node configurations, as a value *)

Module ReconcilerStore.
Import Controllers.

(** The key under which the API server holds a node configuration. *)
Definition nodeConfigKey (nc : SriovFecNodeConfig) : NamespacedName :=
  {| NN_Namespace := GetNamespace nc; NN_Name := GetName nc |}.

(** A stored object with its spec replaced, as [updateOrCreateNodeConfig]
    builds it before the update call. *)
Definition withSpec (spec : SriovFecNodeConfigSpec) (prev : SriovFecNodeConfig)
  : SriovFecNodeConfig :=
  {| NC_TypeMeta := NC_TypeMeta prev;
     NC_ObjectMeta := NC_ObjectMeta prev;
     NC_Spec := spec;
     NC_Status := NC_Status prev |}.

(** The store after a successful delete call for [nc]. *)
Definition storeDelete (nc : SriovFecNodeConfig) (store : list SriovFecNodeConfig)
  : list SriovFecNodeConfig :=
  List.filter (fun o => negb (isObj nc o)) store.

(** The store after a successful [updateOrCreateNodeConfig] of [nodeCfg]:
    appended when no object has its key, and otherwise the first object of
    its key, with the spec of [nodeCfg], in the place of every object of
    that key. *)
Definition storeUpsert (nodeCfg : SriovFecNodeConfig)
    (store : list SriovFecNodeConfig) : list SriovFecNodeConfig :=
  match findNodeConfig (nodeConfigKey nodeCfg) store with
  | None => store ++ [nodeCfg]
  | Some prev =>
      List.map (fun o => if isObj (withSpec (NC_Spec nodeCfg) prev) o
                         then withSpec (NC_Spec nodeCfg) prev else o) store
  end.

(** The stored objects whose name is in the target set. *)
Definition keepNamed (newNodeCfgs store : list SriovFecNodeConfig)
  : list SriovFecNodeConfig :=
  List.filter (fun o => negb (deleteNC o newNodeCfgs)) store.

(** The store after a successful synchronisation. *)
Definition synced (nodeCfgs store : list SriovFecNodeConfig)
  : list SriovFecNodeConfig :=
  fold_left (fun st nodeCfg => storeUpsert nodeCfg st) nodeCfgs
            (keepNamed nodeCfgs store).

(** A target object is settled in a store: the store holds an object of its
    key with its spec, and every stored object of that key is that one. *)
Definition settled (nodeCfg : SriovFecNodeConfig)
    (store : list SriovFecNodeConfig) : Prop :=
  exists o,
    findNodeConfig (nodeConfigKey nodeCfg) store = Some o /\
    NC_Spec o = NC_Spec nodeCfg /\
    forall o', In o' store -> isObj nodeCfg o' = true -> o' = o.

(** A successful get of a node configuration or a successful update. *)
Definition isQuietRefresh (x : Call * option error) : Prop :=
  snd x = None /\
  match fst x with
  | GetNodeConfigCall _ | UpdateCall _ => True
  | _ => False
  end.

(** The structural checks of [Reconcile] on a cluster configuration. *)
Definition cardCountValid (nodeConfig : NodeConfig) : bool :=
  negb (OneCardConfigForAll nodeConfig) || (Go.len (Cards nodeConfig) =? 1).

Definition uniformValid (spec : SriovFecClusterConfigSpec) : bool :=
  negb (OneNodeConfigForAll spec)
  || match Nodes spec with
     | [first] => OneCardConfigForAll first
     | _ => false
     end.

Definition structurallyValid (spec : SriovFecClusterConfigSpec) : bool :=
  uniformValid spec && forallb cardCountValid (Nodes spec).

(** The request names the one cluster configuration that is honoured. *)
Definition honoured (req : Request) (w : World) : bool :=
  String.eqb (NN_Namespace (Req_NamespacedName req)) (NAMESPACE w)
  && String.eqb (NN_Name (Req_NamespacedName req)) DEFAULT_CLUSTER_CONFIG_NAME.

(** The message of the status Ignored. *)
Definition ignoredMessage (w : World) : string :=
  "Only SriovFecClusterConfig with name '" +:+ DEFAULT_CLUSTER_CONFIG_NAME
  +:+ "' and namespace '" +:+ NAMESPACE w +:+ "' are handled".

(** The nodes that the label selector of the reconciler matches. *)
Definition inventoryOf (w : World) : list Node :=
  List.filter (matchesLabels intelAcceleratorLabels) (nodes w).

Definition isStatusCall (c : Call) : bool :=
  match c with StatusUpdateCall _ => true | _ => false end.

Definition isNodeConfigCall (c : Call) : bool :=
  match c with
  | GetNodeConfigCall _ | ListNodeConfigsCall
  | CreateCall _ | UpdateCall _ | DeleteCall _ => true
  | _ => false
  end.

Definition statusOf (status reason : string) : SriovFecClusterConfigStatus :=
  {| SyncStatus := status; LastSyncError := reason |}.

End ReconcilerStore.

(** ** Properties of the daemon *)

Module DaemonProofs.
Import Daemon.

(** *** Go integer addition *)

Lemma wrap_mod (z : Z) : Go.wrap z mod 2 ^ 64 = z mod 2 ^ 64.
Proof.
  unfold Go.wrap.
  rewrite Zminus_mod_idemp_l. f_equal. lia.
Qed.

Lemma wrap_small (z : Z) : Go.is_int z -> Go.wrap z = z.
Proof.
  unfold Go.is_int, Go.min_int, Go.max_int, Go.wrap. intros Hz.
  rewrite Z.mod_small; lia.
Qed.

Lemma wrap_congr (x y : Z) : x mod 2 ^ 64 = y mod 2 ^ 64 -> Go.wrap x = Go.wrap y.
Proof.
  intros Hxy. unfold Go.wrap. f_equal.
  rewrite (Zplus_mod x), (Zplus_mod y), Hxy. reflexivity.
Qed.

Lemma add_wrap (a b : Z) : Go.add (Go.wrap a) (Go.wrap b) = Go.wrap (a + b).
Proof.
  unfold Go.add. apply wrap_congr.
  rewrite Zplus_mod, !wrap_mod, <- Zplus_mod. reflexivity.
Qed.

(** The capacity check compares the exact sum reduced once. *)
Lemma totalQueueGroups_wrap (nc : ACC100BBDevConfig) :
  totalQueueGroups nc =
  Go.wrap (NumQueueGroups (Uplink4G nc) + NumQueueGroups (Downlink4G nc)
           + NumQueueGroups (Uplink5G nc) + NumQueueGroups (Downlink5G nc)).
Proof.
  unfold totalQueueGroups, total4GQueueGroups, total5GQueueGroups.
  unfold Go.add at 2 3. rewrite add_wrap. f_equal. lia.
Qed.

Lemma totalQueueGroups_exact (nc : ACC100BBDevConfig) :
  Go.is_int (exactQueueGroups nc) -> totalQueueGroups nc = exactQueueGroups nc.
Proof.
  intros Hint. rewrite totalQueueGroups_wrap. apply wrap_small. exact Hint.
Qed.

(** *** What each step leaves untouched *)

Lemma log_spec (e : LogEntry) (w : World) :
  log e w = (tt, mkWorld (files w) (unwritable w) (unremovable w)
                         (exec_outcome w) (cmds w) (logs w ++ [e])).
Proof. reflexivity. Qed.

Lemma logBBDevConfigFile_spec (cfg : ini_File) (w : World) :
  logBBDevConfigFile cfg w =
  (None, mkWorld (files w) (unwritable w) (unremovable w)
                 (exec_outcome w) (cmds w) (logs w ++ [LogConfig cfg])).
Proof. reflexivity. Qed.

Lemma ini_SaveTo_cmds (cfg : ini_File) (file : string) (w : World) :
  cmds (snd (ini_SaveTo cfg file w)) = cmds w.
Proof. unfold ini_SaveTo. destruct (decide _); reflexivity. Qed.

Lemma os_Remove_cmds (path : string) (w : World) :
  cmds (snd (os_Remove path w)) = cmds w.
Proof.
  unfold os_Remove. destruct (files w !! path); [|reflexivity].
  destruct (decide _); reflexivity.
Qed.

Lemma logAndSave_cmds (cfg : ini_File) (file : string) (w : World) :
  cmds (snd (logAndSave cfg file w)) = cmds w.
Proof.
  unfold logAndSave, bind. rewrite logBBDevConfigFile_spec.
  pose proof (ini_SaveTo_cmds cfg file
    (mkWorld (files w) (unwritable w) (unremovable w)
             (exec_outcome w) (cmds w) (logs w ++ [LogConfig cfg]))) as Hsave.
  destruct (ini_SaveTo _ _ _) as [[e|] w']; exact Hsave.
Qed.

Lemma generateACC100_accepted (nc : ACC100BBDevConfig) (file : string) (w : World) :
  (totalQueueGroups nc >? maxQueueGroups) = false ->
  generateACC100BBDevConfigFile (Some nc) file w =
  logAndSave
    (ACC100_content nc
       [("DEFAULT", []); (mode, []); (vfbundles, []); (maxqsize, []);
        (uplink4g, []); (downlink4g, []); (uplink5g, []); (downlink5g, [])])
    file w.
Proof.
  intros Hle. unfold generateACC100BBDevConfigFile. rewrite Hle. reflexivity.
Qed.

Lemma generateACC100_rejected (nc : ACC100BBDevConfig) (file : string) (w : World) :
  (totalQueueGroups nc >? maxQueueGroups) = true ->
  generateACC100BBDevConfigFile (Some nc) file w =
  (Some (errorString
     "Total number of requested queue groups (4G/5G) exceeds the maximum (8)"), w).
Proof.
  intros Hgt. unfold generateACC100BBDevConfigFile. rewrite Hgt. reflexivity.
Qed.

Lemma generateACC100_cmds (nc : option ACC100BBDevConfig) (file : string) (w : World) :
  cmds (snd (generateACC100BBDevConfigFile nc file w)) = cmds w.
Proof.
  destruct nc as [nc|]; [|reflexivity].
  destruct (totalQueueGroups nc >? maxQueueGroups) eqn:Hcap.
  - rewrite generateACC100_rejected by exact Hcap. reflexivity.
  - rewrite generateACC100_accepted by exact Hcap. apply logAndSave_cmds.
Qed.

Section WithExternals.
Context `{Externals}.

Lemma generateN3000_cmds (nc : option N3000BBDevConfig) (file : string) (w : World) :
  cmds (snd (generateN3000BBDevConfigFile nc file w)) = cmds w.
Proof.
  destruct nc as [nc|]; [|reflexivity].
  unfold generateN3000BBDevConfigFile.
  change (ini_NewSections [mode; ul; dl; flr] ini_Empty)
    with (@inr error ini_File
            [("DEFAULT", []); (mode, []); (ul, []); (dl, []); (flr, [])]).
  cbv beta iota zeta. apply logAndSave_cmds.
Qed.

Lemma generateBBDevConfigFile_cmds (pfCfg : BBDevConfig) (file : string) (w : World) :
  cmds (snd (generateBBDevConfigFile pfCfg file w)) = cmds w.
Proof.
  unfold generateBBDevConfigFile, bind.
  destruct (ACC100 pfCfg) as [a|].
  - pose proof (generateACC100_cmds (Some a) file w) as Hc.
    destruct (generateACC100BBDevConfigFile _ _ _) as [[e|] w']; exact Hc.
  - destruct (N3000 pfCfg) as [n|]; [|reflexivity].
    pose proof (generateN3000_cmds (Some n) file w) as Hc.
    destruct (generateN3000BBDevConfigFile _ _ _) as [[e|] w']; exact Hc.
Qed.

(** *** The capacity check *)

(** C1, as amended.  For every second-generation (ACC100) configuration
    whose four [numQueueGroups] values have a sum that exceeds 8 and fits
    Go's [int] (is at most [2^63 - 1]), compiling it returns the validation
    error and leaves the world as it was: no file is written at the target
    path or anywhere else, and the content is neither built nor logged. *)
Theorem acc100_capacity_rejected (nc : ACC100BBDevConfig) (file : string)
    (w : World) :
  8 < exactQueueGroups nc <= Go.max_int ->
  generateACC100BBDevConfigFile (Some nc) file w =
  (Some (errorString
     "Total number of requested queue groups (4G/5G) exceeds the maximum (8)"), w).
Proof.
  intros [Hlo Hhi]. apply generateACC100_rejected.
  rewrite totalQueueGroups_exact.
  - unfold maxQueueGroups. apply Z.gtb_lt. exact Hlo.
  - unfold Go.is_int, Go.min_int. split; [lia | exact Hhi].
Qed.

(** A configuration asking for 2 + 2 + 3 + 2 = 9 queue groups is rejected and
    nothing exists at the artifact's path afterwards. *)
Lemma acc100_capacity_rejected_witness :
  8 < exactQueueGroups Examples.acc100Nine <= Go.max_int /\
  generateACC100BBDevConfigFile (Some Examples.acc100Nine) Examples.artifact
    Examples.quietWorld =
  (Some (errorString
     "Total number of requested queue groups (4G/5G) exceeds the maximum (8)"),
   Examples.quietWorld) /\
  files Examples.quietWorld !! Examples.artifact = None.
Proof.
  assert (Hsum : 8 < exactQueueGroups Examples.acc100Nine <= Go.max_int)
    by (vm_compute; split; [reflexivity | discriminate]).
  split; [exact Hsum | split].
  - exact (acc100_capacity_rejected Examples.acc100Nine Examples.artifact
             Examples.quietWorld Hsum).
  - reflexivity.
Defined.

(** C1 as stated fails where the additions overflow.  The four values
    [2^62], [2^62], 0 and 0 are Go [int]s and their sum [2^63] exceeds 8; the
    sum the code compares is [-2^63], no error is returned and the artifact
    is written at the target path. *)
Lemma acc100_capacity_overflow_accepted :
  Go.is_int (NumQueueGroups (Uplink4G Examples.acc100Huge)) /\
  Go.is_int (NumQueueGroups (Downlink4G Examples.acc100Huge)) /\
  Go.is_int (NumQueueGroups (Uplink5G Examples.acc100Huge)) /\
  Go.is_int (NumQueueGroups (Downlink5G Examples.acc100Huge)) /\
  8 < exactQueueGroups Examples.acc100Huge /\
  totalQueueGroups Examples.acc100Huge = - 2 ^ 63 /\
  fst (generateACC100BBDevConfigFile (Some Examples.acc100Huge) Examples.artifact
         Examples.quietWorld) = None /\
  is_Some (files (snd (generateACC100BBDevConfigFile (Some Examples.acc100Huge)
                         Examples.artifact Examples.quietWorld))
           !! Examples.artifact).
Proof.
  repeat split; try (vm_compute; congruence).
  vm_compute. eexists. reflexivity.
Qed.

(** *** Dispatch on the variant *)

(** C2, as amended.  With both variants nil the generator returns the error
    "Received nil configs" and changes nothing.  With both variants set it
    raises no error on that account: the ACC100 variant is compiled and the
    N3000 variant is ignored, exactly as if the ACC100 variant alone were
    set. *)
Theorem generate_dispatch (file : string) (w : World) :
  generateBBDevConfigFile {| N3000 := None; ACC100 := None |} file w =
    (Some (errorString "Received nil configs"), w) /\
  forall (n : N3000BBDevConfig) (a : ACC100BBDevConfig),
    generateBBDevConfigFile {| N3000 := Some n; ACC100 := Some a |} file w =
    generateBBDevConfigFile {| N3000 := None; ACC100 := Some a |} file w.
Proof. split; [reflexivity | intros n a; reflexivity]. Qed.

(** *** Running the configuration tool *)

(** C8.  An invocation of [initializePfBBConfig] runs the configuration tool
    exactly when a variant is set, the artifact was generated and the device
    name is one of the three accepted ones, and then runs it once.  Its
    command line is tool path, device name, [-c] artifact path, [-v] token,
    [-p] PCI address when the PF driver equals "vfio-pci" after lower-casing
    both, and tool path, device name, [-c] artifact path, [-p] PCI address
    for any other driver. *)
Theorem apply_command_line (p : pfBBConfigController) (acc : SriovAccelerator)
    (pf : PhysicalFunctionConfigExt) (w : World) :
  let path := filepath_Join workdir (PCIAddress pf +:+ ".ini") in
  let deviceName := default "" (supportedAccelerators_Devices !! DeviceID acc) in
  let invoked :=
    (notNil (N3000 (PF_BBDevConfig pf)) || notNil (ACC100 (PF_BBDevConfig pf)))
    && negb (notNil (fst (generateBBDevConfigFile (PF_BBDevConfig pf) path w)))
    && acceptedDeviceName deviceName in
  cmds (snd (initializePfBBConfig p acc pf w)) =
  cmds w ++
  (if invoked
   then [if String.eqb (strings_ToLower (PFDriver pf)) (strings_ToLower "vfio-pci")
         then [pfConfigAppFilepath; deviceName; "-c"; path;
               "-v"; sharedVfioToken p; "-p"; PCIAddress pf]
         else [pfConfigAppFilepath; deviceName; "-c"; path;
               "-p"; PCIAddress pf]]
   else []).
Proof.
  intros path deviceName invoked. subst invoked.
  unfold initializePfBBConfig.
  destruct (notNil (N3000 (PF_BBDevConfig pf)) || notNil (ACC100 (PF_BBDevConfig pf))).
  2: { cbn. rewrite app_nil_r. reflexivity. }
  fold path. unfold bind at 1.
  pose proof (generateBBDevConfigFile_cmds (PF_BBDevConfig pf) path w) as Hgen.
  destruct (generateBBDevConfigFile (PF_BBDevConfig pf) path w) as [[e|] w1];
    cbn [fst snd notNil negb andb] in *.
  { cbn. rewrite app_nil_r. exact Hgen. }
  fold deviceName. unfold bind, runPFConfig, tokenFor.
  destruct (acceptedDeviceName deviceName); cbn [negb].
  - destruct (String.eqb _ _); cbn [runExecCmd exec_outcome cmds];
      match goal with
      | |- context [exec_outcome w1 ?args] =>
          destruct (exec_outcome w1 args) as [xe|]
      end; cbn [log ret bind cmds];
      match goal with
      | |- context [os_Remove path ?w0] =>
          pose proof (os_Remove_cmds path w0) as Hrm;
          destruct (os_Remove path w0) as [[re|] w2]
      end; cbn [log ret bind cmds fst snd] in *; rewrite Hrm, Hgen; reflexivity.
  - cbn [ret log].
    match goal with
    | |- context [os_Remove path ?w0] =>
        pose proof (os_Remove_cmds path w0) as Hrm;
        destruct (os_Remove path w0) as [[re|] w2]
    end; cbn [log ret bind cmds fst snd] in *; rewrite Hrm, Hgen, app_nil_r;
      reflexivity.
Qed.

(** C10.  For a card whose BBDevConfig has both variants nil,
    [initializePfBBConfig] returns nil; it writes no file, runs no command,
    and leaves one line in the log. *)
Theorem initialize_nil_configs_skipped (p : pfBBConfigController)
    (acc : SriovAccelerator) (pf : PhysicalFunctionConfigExt) (w : World) :
  N3000 (PF_BBDevConfig pf) = None ->
  ACC100 (PF_BBDevConfig pf) = None ->
  fst (initializePfBBConfig p acc pf w) = None /\
  files (snd (initializePfBBConfig p acc pf w)) = files w /\
  cmds (snd (initializePfBBConfig p acc pf w)) = cmds w /\
  logs (snd (initializePfBBConfig p acc pf w)) =
    logs w ++ [LogInfo "N3000 and ACC100 BBDevConfig are nil - queues will not be (re)configured"].
Proof.
  intros HN HA. unfold initializePfBBConfig. rewrite HN, HA.
  repeat split; reflexivity.
Qed.

End WithExternals.

(** A card with both variants nil on a node with an empty work directory. *)
Lemma initialize_nil_configs_skipped_witness :
  fst (@initializePfBBConfig Examples.externals Examples.controller
         Examples.accelerator (Examples.pfWith "vfio-pci" Examples.bothNil)
         Examples.quietWorld) = None /\
  files (snd (@initializePfBBConfig Examples.externals Examples.controller
         Examples.accelerator (Examples.pfWith "vfio-pci" Examples.bothNil)
         Examples.quietWorld)) = ∅ /\
  cmds (snd (@initializePfBBConfig Examples.externals Examples.controller
         Examples.accelerator (Examples.pfWith "vfio-pci" Examples.bothNil)
         Examples.quietWorld)) = [].
Proof.
  pose proof (@initialize_nil_configs_skipped Examples.externals
                Examples.controller Examples.accelerator
                (Examples.pfWith "vfio-pci" Examples.bothNil)
                Examples.quietWorld eq_refl eq_refl) as (Hr & Hf & Hc & _).
  split; [exact Hr | split; [exact Hf | exact Hc]].
Defined.

(** C2 as stated fails when both variants are set: the generator returns
    nil and the ACC100 artifact is written. *)
Lemma both_variants_set_accepted :
  notNil (N3000 Examples.bothSet) = true /\
  notNil (ACC100 Examples.bothSet) = true /\
  fst (@generateBBDevConfigFile Examples.externals Examples.bothSet
         Examples.artifact Examples.quietWorld) = None /\
  is_Some (files (snd (@generateBBDevConfigFile Examples.externals
                         Examples.bothSet Examples.artifact Examples.quietWorld))
           !! Examples.artifact).
Proof.
  repeat split; try reflexivity.
  vm_compute. eexists. reflexivity.
Qed.

(** The command lines of C8 on a node: an upper-case spelling of the VFIO
    driver gets the token, another driver does not. *)
Example apply_vfio_upper_case :
  cmds (snd (@initializePfBBConfig Examples.externals Examples.controller
               Examples.accelerator (Examples.pfWith "VFIO-PCI" Examples.onlyACC100)
               Examples.quietWorld)) =
  [["/sriov_workdir/pf_bb_config"; "ACC100"; "-c";
    "/sriov_artifacts/0000:af:00.0.ini";
    "-v"; "02bddbbf-bbb0-4d79-886b-91bad3fbb510"; "-p"; "0000:af:00.0"]].
Proof. vm_compute. reflexivity. Qed.

Example apply_other_driver :
  cmds (snd (@initializePfBBConfig Examples.externals Examples.controller
               Examples.accelerator (Examples.pfWith "pci-pf-stub" Examples.onlyACC100)
               Examples.quietWorld)) =
  [["/sriov_workdir/pf_bb_config"; "ACC100"; "-c";
    "/sriov_artifacts/0000:af:00.0.ini"; "-p"; "0000:af:00.0"]].
Proof. vm_compute. reflexivity. Qed.

(** *** Teardown *)

Lemma kill_step (args : list string) (w : World) :
  fst (execAndSuppress args pkillSuppress w) = killStepResult (exec_outcome w args)
  /\ files (snd (execAndSuppress args pkillSuppress w)) = files w
  /\ unremovable (snd (execAndSuppress args pkillSuppress w)) = unremovable w.
Proof.
  unfold execAndSuppress, runExecCmd, bind. cbn [fst snd].
  destruct (exec_outcome w args) as [[msg|code|op path reason]|];
    cbn [killStepResult pkillSuppress]; try destruct (code =? 1);
    repeat split; reflexivity.
Qed.

Lemma os_Remove_result (path : string) (w : World) :
  fst (os_Remove path w) =
  match files w !! path with
  | None => Some (PathError "remove" path "no such file or directory")
  | Some _ =>
      if decide (path ∈ unremovable w)
      then Some (PathError "remove" path "operation not permitted")
      else None
  end.
Proof.
  unfold os_Remove. destruct (files w !! path); [|reflexivity].
  destruct (decide _); reflexivity.
Qed.

(** The result of [stopPfBBConfig] in full: the kill step's result when the
    socket file was there and could be removed, nil whenever the removal
    failed. *)
Lemma stopPfBBConfig_result (p : pfBBConfigController) (pciAddress : string)
    (w : World) :
  let sock := "/tmp/pf_bb_config." +:+ pciAddress +:+ ".sock" in
  let args := ["chroot"; "/host/"; "pkill"; "-9"; "-f";
               "pf_bb_config.*" +:+ pciAddress] in
  fst (stopPfBBConfig p pciAddress w) =
  match files w !! sock with
  | None => None
  | Some _ =>
      if decide (sock ∈ unremovable w) then None
      else killStepResult (exec_outcome w args)
  end.
Proof.
  intros sock args. unfold stopPfBBConfig. fold sock. fold args.
  unfold bind at 1.
  destruct (kill_step args w) as (Hres & Hfiles & Hunw).
  destruct (execAndSuppress args pkillSuppress w) as [err w1].
  cbn [fst snd] in Hres, Hfiles, Hunw. subst err.
  unfold bind at 1. rewrite log_spec. unfold bind at 1.
  match goal with
  | |- context [os_Remove sock ?w0] =>
      pose proof (os_Remove_result sock w0) as Hrm;
      destruct (os_Remove sock w0) as [[re|] w2]
  end; cbn [fst files unremovable] in Hrm; rewrite Hfiles, Hunw in Hrm;
    destruct (files w !! sock); try discriminate;
    try destruct (decide (sock ∈ unremovable w)); try discriminate; reflexivity.
Qed.

(** C4, the failing input.  The kill utility ends with exit code 2 and the
    socket file of the card does not exist: the removal fails, and teardown
    returns nil although the kill step failed. *)
Lemma teardown_kill_failure_masked :
  exec_outcome (Examples.killWorld 2 false) (Examples.pkillArgs "0000:af:00.0")
    = Some (ExitError 2) /\
  files (Examples.killWorld 2 false) !! "/tmp/pf_bb_config.0000:af:00.0.sock"
    = None /\
  fst (stopPfBBConfig Examples.controller "0000:af:00.0"
         (Examples.killWorld 2 false)) = None.
Proof. repeat split; vm_compute; reflexivity. Qed.

(** With the socket file in place the removal succeeds and teardown reports
    the kill step: exit code 1 is success, exit code 2 is the error. *)
Example teardown_exit_code_1 :
  fst (stopPfBBConfig Examples.controller "0000:af:00.0"
         (Examples.killWorld 1 true)) = None.
Proof. vm_compute. reflexivity. Qed.

Example teardown_exit_code_2 :
  fst (stopPfBBConfig Examples.controller "0000:af:00.0"
         (Examples.killWorld 2 true)) = Some (ExitError 2).
Proof. vm_compute. reflexivity. Qed.

End DaemonProofs.

(** ** Properties of the reconciler *)

Module ControllersProofs.
Import Controllers.

(** *** Rendering *)

Lemma nodeHasAccelerator_In (items : list Node) (nodeName : string) :
  nodeHasAccelerator items nodeName = true <-> In nodeName (map Node_Name items).
Proof.
  induction items as [|node rest IH]; cbn.
  - split; [discriminate | tauto].
  - destruct (String.eqb (Node_Name node) nodeName) eqn:Heq.
    + apply String.eqb_eq in Heq. tauto.
    + apply String.eqb_neq in Heq. rewrite IH. tauto.
Qed.

Lemma renderForAll_map (first : NodeConfig) (others : list NodeConfig)
    (items : list Node) :
  renderForAll (first :: others) items =
  Some (map (fun node => newNodeCfg true (Cards first) (Node_Name node)) items).
Proof.
  induction items as [|node rest IH]; [reflexivity|].
  cbn [renderForAll]. rewrite IH. reflexivity.
Qed.

Lemma renderForAll_empty_inventory (specNodes : list NodeConfig) :
  renderForAll specNodes [] = Some [].
Proof. reflexivity. Qed.

Lemma renderPerNode_map (items : list Node) (specNodes : list NodeConfig) :
  renderPerNode items specNodes =
  map (fun entry => newNodeCfg (OneCardConfigForAll entry) (Cards entry)
                               (NodeName entry))
      (List.filter (fun entry => nodeHasAccelerator items (NodeName entry))
                   specNodes).
Proof.
  induction specNodes as [|entry rest IH]; [reflexivity|].
  cbn [renderPerNode List.filter].
  destruct (nodeHasAccelerator items (NodeName entry)); cbn [negb map];
    rewrite IH; reflexivity.
Qed.

(** C6.  In uniform mode with a declared node entry, rendering returns one
    object per node of the inventory, in the inventory's order: the output
    has the inventory's length, the objects carry the inventory's node
    names, and each carries the card list of the declared entry as it is. *)
Theorem render_uniform (clusterConfig : SriovFecClusterConfig)
    (nodeList : list Node) (first : NodeConfig) (others : list NodeConfig) :
  OneNodeConfigForAll (CC_Spec clusterConfig) = true ->
  Nodes (CC_Spec clusterConfig) = first :: others ->
  exists nodeConfigs,
    renderNodeConfigs clusterConfig nodeList = Some nodeConfigs /\
    length nodeConfigs = length nodeList /\
    map GetName nodeConfigs = map Node_Name nodeList /\
    Forall (fun o => NC_Cards (NC_Spec o) = Cards first) nodeConfigs.
Proof.
  intros Huniform Hnodes.
  exists (map (fun node => newNodeCfg true (Cards first) (Node_Name node)) nodeList).
  unfold renderNodeConfigs. rewrite Huniform, Hnodes.
  split; [apply renderForAll_map | split; [apply length_map | split]].
  - rewrite map_map. reflexivity.
  - apply List.Forall_forall. intros o Ho. apply in_map_iff in Ho.
    destruct Ho as (node & <- & _). reflexivity.
Qed.

(** C7.  In per-node mode rendering returns normally, with the objects of
    the entries whose node is in the inventory, in the entries' order; for
    every entry of the desired list, its object is in the output if and only
    if its node name is in the inventory. *)
Theorem render_per_node (clusterConfig : SriovFecClusterConfig)
    (nodeList : list Node) :
  OneNodeConfigForAll (CC_Spec clusterConfig) = false ->
  let objectOf := fun entry =>
    newNodeCfg (OneCardConfigForAll entry) (Cards entry) (NodeName entry) in
  exists nodeConfigs,
    renderNodeConfigs clusterConfig nodeList = Some nodeConfigs /\
    nodeConfigs =
      map objectOf
          (List.filter (fun entry => nodeHasAccelerator nodeList (NodeName entry))
                       (Nodes (CC_Spec clusterConfig))) /\
    (forall entry, In entry (Nodes (CC_Spec clusterConfig)) ->
       (In (objectOf entry) nodeConfigs <->
        In (NodeName entry) (map Node_Name nodeList))) /\
    (forall o, In o nodeConfigs -> In (GetName o) (map Node_Name nodeList)).
Proof.
  intros Hper objectOf.
  eexists. split; [|split; [reflexivity|split]].
  - unfold renderNodeConfigs. rewrite Hper, renderPerNode_map. reflexivity.
  - intros entry Hentry. rewrite in_map_iff. split.
    + intros (entry' & Heq & Hin). apply filter_In in Hin as [_ Hacc].
      apply nodeHasAccelerator_In in Hacc.
      assert (Hname : NodeName entry' = NodeName entry)
        by (apply (f_equal GetName) in Heq; exact Heq).
      rewrite <- Hname. exact Hacc.
    + intros Hinv. exists entry. split; [reflexivity|].
      apply filter_In. split; [exact Hentry|].
      apply nodeHasAccelerator_In. exact Hinv.
  - intros o Ho. apply in_map_iff in Ho as (entry & <- & Hin).
    apply filter_In in Hin as [_ Hacc].
    apply nodeHasAccelerator_In in Hacc. exact Hacc.
Qed.

(** C9.  Every object that rendering returns, in either mode, has the
    namespace "default" and the name of a node of the inventory; in uniform
    mode its [OneCardConfigForAll] is true, whatever the cluster
    configuration declares. *)
Theorem render_metadata (clusterConfig : SriovFecClusterConfig)
    (nodeList : list Node) (nodeConfigs : list SriovFecNodeConfig)
    (o : SriovFecNodeConfig) :
  renderNodeConfigs clusterConfig nodeList = Some nodeConfigs ->
  In o nodeConfigs ->
  GetNamespace o = "default" /\
  In (GetName o) (map Node_Name nodeList) /\
  (OneNodeConfigForAll (CC_Spec clusterConfig) = true ->
   NC_OneCardConfigForAll (NC_Spec o) = true).
Proof.
  unfold renderNodeConfigs. intros Hrender Ho.
  destruct (OneNodeConfigForAll (CC_Spec clusterConfig)).
  - destruct (Nodes (CC_Spec clusterConfig)) as [|first others].
    + destruct nodeList as [|node rest]; cbn in Hrender.
      * injection Hrender as <-. destruct Ho.
      * discriminate.
    + rewrite renderForAll_map in Hrender. injection Hrender as <-.
      apply in_map_iff in Ho as (node & <- & Hnode).
      repeat split. cbn. apply in_map. exact Hnode.
  - injection Hrender as <-. rewrite renderPerNode_map in Ho.
    apply in_map_iff in Ho as (entry & <- & Hin).
    apply filter_In in Hin as [_ Hacc]. apply nodeHasAccelerator_In in Hacc.
    split; [reflexivity | split; [exact Hacc | discriminate]].
Qed.

(** *** The history of client calls *)

Lemma Delete_calls (obj : SriovFecNodeConfig) (w : World) :
  calls (snd (Delete obj w)) = calls w ++ [(DeleteCall obj, fst (Delete obj w))].
Proof.
  unfold Delete. destruct (fst (nextFault w)); [reflexivity|].
  destruct (findNodeConfig _ _); reflexivity.
Qed.

Lemma Create_calls (obj : SriovFecNodeConfig) (w : World) :
  calls (snd (Create obj w)) = calls w ++ [(CreateCall obj, fst (Create obj w))].
Proof.
  unfold Create. destruct (fst (nextFault w)); [reflexivity|].
  destruct (findNodeConfig _ _); reflexivity.
Qed.

Lemma Update_calls (obj : SriovFecNodeConfig) (w : World) :
  calls (snd (Update obj w)) = calls w ++ [(UpdateCall obj, fst (Update obj w))].
Proof.
  unfold Update. destruct (fst (nextFault w)); [reflexivity|].
  destruct (findNodeConfig _ _); reflexivity.
Qed.

Lemma Status_Update_calls (obj : SriovFecClusterConfig) (w : World) :
  calls (snd (Status_Update obj w)) =
  calls w ++ [(StatusUpdateCall obj, fst (Status_Update obj w))].
Proof.
  unfold Status_Update. destruct (fst (nextFault w)); [reflexivity|].
  destruct (findClusterConfig _ _); reflexivity.
Qed.

Lemma Get_NodeConfig_calls (key : NamespacedName) (w : World) :
  calls (snd (Get_NodeConfig key w)) =
  calls w ++ [(GetNodeConfigCall key, outcomeOf (fst (Get_NodeConfig key w)))].
Proof.
  unfold Get_NodeConfig. destruct (fst (nextFault w)); [reflexivity|].
  destruct (findNodeConfig _ _); reflexivity.
Qed.

Lemma Get_ClusterConfig_calls (key : NamespacedName) (w : World) :
  calls (snd (Get_ClusterConfig key w)) =
  calls w ++ [(GetClusterConfigCall key, outcomeOf (fst (Get_ClusterConfig key w)))].
Proof.
  unfold Get_ClusterConfig. destruct (fst (nextFault w)); [reflexivity|].
  destruct (findClusterConfig _ _); reflexivity.
Qed.

Lemma List_Nodes_calls (selector : list (string * string)) (w : World) :
  calls (snd (List_Nodes selector w)) =
  calls w ++ [(ListNodesCall selector, outcomeOf (fst (List_Nodes selector w)))].
Proof. unfold List_Nodes. destruct (fst (nextFault w)); reflexivity. Qed.

Lemma List_NodeConfigs_calls (w : World) :
  calls (snd (List_NodeConfigs w)) =
    calls w ++ [(ListNodeConfigsCall, fst (fst (List_NodeConfigs w)))] /\
  snd (fst (List_NodeConfigs w)) = listed (fst (fst (List_NodeConfigs w))) w.
Proof. unfold List_NodeConfigs. destruct (fst (nextFault w)); split; reflexivity. Qed.

Lemma updateStatus_calls (clusterConfig : SriovFecClusterConfig)
    (status reason : string) (w : World) :
  exists outcome,
    calls (snd (updateStatus clusterConfig status reason w)) =
    calls w ++ [(StatusUpdateCall
                   (withStatus {| SyncStatus := status; LastSyncError := reason |}
                               clusterConfig), outcome)].
Proof.
  unfold updateStatus, bind.
  pose proof (Status_Update_calls
    (withStatus {| SyncStatus := status; LastSyncError := reason |} clusterConfig) w)
    as Hc.
  destruct (Status_Update _ w) as [r w']. exists r. exact Hc.
Qed.

Lemma deleteNC_absent (nc : SriovFecNodeConfig)
    (newNodeCfgs : list SriovFecNodeConfig) :
  deleteNC nc newNodeCfgs = true <-> ~ In (GetName nc) (map GetName newNodeCfgs).
Proof.
  induction newNodeCfgs as [|nNC rest IH]; cbn.
  - tauto.
  - destruct (String.eqb (GetName nc) (GetName nNC)) eqn:Heq.
    + apply String.eqb_eq in Heq. split; [discriminate|]. intros Hno.
      exfalso. apply Hno. left. symmetry. exact Heq.
    + apply String.eqb_neq in Heq. rewrite IH. split.
      * intros Hno [Hhd|Htl]; [apply Heq; symmetry; exact Hhd | tauto].
      * tauto.
Qed.

(** The delete loop: it calls nothing but [Delete], on stale listed objects
    in their order, and stops at the first failure, which is its result. *)
Lemma removeEach_trace (newNodeCfgs items : list SriovFecNodeConfig) (w : World) :
  exists dels,
    calls (snd (removeEach newNodeCfgs items w)) = calls w ++ dels /\
    List.Forall (fun x => exists nc, fst x = DeleteCall nc /\ In nc items /\
                                     deleteNC nc newNodeCfgs = true) dels /\
    (forall c e, In (c, Some e) dels ->
       fst (removeEach newNodeCfgs items w) = Some e) /\
    (fst (removeEach newNodeCfgs items w) = None ->
       dels = map deleted (stale newNodeCfgs items)).
Proof.
  revert w. induction items as [|nc rest IH]; intros w.
  - exists []. cbn. rewrite app_nil_r. repeat split; auto.
    intros c e [].
  - cbn [removeEach stale List.filter].
    destruct (deleteNC nc newNodeCfgs) eqn:Hdel.
    + unfold bind. pose proof (Delete_calls nc w) as Hc.
      destruct (Delete nc w) as [[e|] w1]; cbn [fst snd] in Hc.
      * exists [(DeleteCall nc, Some e)]. cbn [ret fst snd].
        split; [exact Hc | split; [|split]].
        -- constructor; [|constructor]. exists nc. cbn. auto.
        -- intros c e' [Heq|[]]. congruence.
        -- discriminate.
      * destruct (IH w1) as (dels & Hcalls & Hall & Hfail & Hdone).
        exists ((DeleteCall nc, None) :: dels).
        split; [|split; [|split]].
        -- rewrite Hcalls, Hc, <- app_assoc. reflexivity.
        -- constructor.
           ++ exists nc. cbn. auto.
           ++ eapply List.Forall_impl; [|exact Hall].
              intros x (nc' & Hx & Hin & Hst). exists nc'. cbn. auto.
        -- intros c e [Heq|Hin]; [discriminate | eauto].
        -- intros Hres. cbn [map]. unfold deleted at 1. f_equal.
           apply Hdone. exact Hres.
    + destruct (IH w) as (dels & Hcalls & Hall & Hfail & Hdone).
      exists dels. split; [exact Hcalls | split; [|split]]; auto.
      eapply List.Forall_impl; [|exact Hall].
      intros x (nc' & Hx & Hin & Hst). exists nc'. cbn. auto.
Qed.

Lemma listed_stored (outcome : option error) (w : World) (nc : SriovFecNodeConfig) :
  In nc (listed outcome w) -> In nc (nodeConfigs w).
Proof. destruct outcome; cbn; tauto. Qed.

(** The removal phase: one list call, then the delete loop over what the
    list call handed back. *)
Lemma removeOldNodeConfigs_trace (newNodeCfgs : list SriovFecNodeConfig) (w : World) :
  exists lo dels,
    calls (snd (removeOldNodeConfigs newNodeCfgs w)) =
      calls w ++ (ListNodeConfigsCall, lo) :: dels /\
    List.Forall (fun x => exists nc, fst x = DeleteCall nc /\
                                     In nc (nodeConfigs w) /\
                                     deleteNC nc newNodeCfgs = true) dels /\
    (forall c e, In (c, Some e) dels ->
       fst (removeOldNodeConfigs newNodeCfgs w) = Some e) /\
    (fst (removeOldNodeConfigs newNodeCfgs w) = None ->
       dels = map deleted (stale newNodeCfgs (listed lo w))).
Proof.
  unfold removeOldNodeConfigs, bind.
  destruct (List_NodeConfigs_calls w) as [Hc Hitems].
  destruct (List_NodeConfigs w) as [[lo ncList] w1]. cbn [fst snd] in Hc, Hitems.
  exists lo.
  assert (Hloop : exists dels,
    calls (snd (removeEach newNodeCfgs ncList w1)) =
      calls w ++ (ListNodeConfigsCall, lo) :: dels /\
    List.Forall (fun x => exists nc, fst x = DeleteCall nc /\
                                     In nc (nodeConfigs w) /\
                                     deleteNC nc newNodeCfgs = true) dels /\
    (forall c e, In (c, Some e) dels ->
       fst (removeEach newNodeCfgs ncList w1) = Some e) /\
    (fst (removeEach newNodeCfgs ncList w1) = None ->
       dels = map deleted (stale newNodeCfgs (listed lo w)))).
  { destruct (removeEach_trace newNodeCfgs ncList w1)
      as (dels & Hcalls & Hall & Hfail & Hdone).
    exists dels. split; [|split; [|split]].
    - rewrite Hcalls, Hc, <- app_assoc. reflexivity.
    - eapply List.Forall_impl; [|exact Hall].
      intros x (nc & Hx & Hin & Hst). exists nc.
      rewrite Hitems in Hin. apply listed_stored in Hin. auto.
    - exact Hfail.
    - rewrite <- Hitems. exact Hdone. }
  destruct lo as [e|]; [|exact Hloop].
  destruct (IsNotFound e); cbn [negb]; [exact Hloop|].
  exists []. cbn [ret fst snd]. split; [exact Hc | split; [constructor | split]].
  - intros c e' [].
  - discriminate.
Qed.

(** One target object: a get, then a create or an update; the result is the
    error of the step that failed. *)
Lemma updateOrCreateNodeConfig_trace (nodeCfg : SriovFecNodeConfig) (w : World) :
  exists ups,
    calls (snd (updateOrCreateNodeConfig nodeCfg w)) = calls w ++ ups /\
    List.Forall (fun x => isUpsertCall (fst x) = true) ups /\
    ups <> [] /\
    (forall c e, In (c, Some e) ups -> isWriteCall c = true ->
       fst (updateOrCreateNodeConfig nodeCfg w) = Some e).
Proof.
  unfold updateOrCreateNodeConfig, bind.
  pose proof (Get_NodeConfig_calls
    {| NN_Namespace := GetNamespace nodeCfg; NN_Name := GetName nodeCfg |} w) as Hget.
  destruct (Get_NodeConfig _ w) as [[err|prev] w1]; cbn [fst snd outcomeOf] in Hget.
  - destruct (IsNotFound err).
    + pose proof (Create_calls nodeCfg w1) as Hcr.
      destruct (Create nodeCfg w1) as [r w2]. cbn [fst snd] in Hcr.
      eexists [_; _]. split; [|split; [|split]].
      * destruct r; cbn [ret snd]; rewrite Hcr, Hget, <- app_assoc; reflexivity.
      * repeat constructor.
      * discriminate.
      * intros c e [Heq|[Heq|[]]] Hw; injection Heq as <- Hr.
        -- discriminate.
        -- subst r. reflexivity.
    + eexists [_]. cbn [ret fst snd]. split; [exact Hget | split; [|split]].
      * repeat constructor.
      * discriminate.
      * intros c e [Heq|[]] Hw. injection Heq as <- _. discriminate.
  - match goal with
    | |- context [Update ?obj w1] =>
        pose proof (Update_calls obj w1) as Hup;
        destruct (Update obj w1) as [r w2]
    end. cbn [fst snd] in Hup.
    eexists [_; _]. split; [|split; [|split]].
    + destruct r; cbn [ret snd]; rewrite Hup, Hget, <- app_assoc; reflexivity.
    + repeat constructor.
    + discriminate.
    + intros c e [Heq|[Heq|[]]] Hw; injection Heq as <- Hr.
      * discriminate.
      * subst r. reflexivity.
Qed.

Lemma updateOrCreateEach_trace (nodeCfgs : list SriovFecNodeConfig) (w : World) :
  exists ups,
    calls (snd (updateOrCreateEach nodeCfgs w)) = calls w ++ ups /\
    List.Forall (fun x => isUpsertCall (fst x) = true) ups /\
    (forall c e, In (c, Some e) ups -> isWriteCall c = true ->
       fst (updateOrCreateEach nodeCfgs w) = Some e).
Proof.
  revert w. induction nodeCfgs as [|nodeCfg rest IH]; intros w.
  - exists []. cbn. rewrite app_nil_r. split; [reflexivity | split; [constructor|]].
    intros c e [].
  - cbn [updateOrCreateEach]. unfold bind.
    destruct (updateOrCreateNodeConfig_trace nodeCfg w)
      as (ups1 & Hc1 & Hall1 & _ & Hfail1).
    destruct (updateOrCreateNodeConfig nodeCfg w) as [[e1|] w1];
      cbn [fst snd] in Hc1, Hfail1.
    + exists ups1. cbn [ret fst snd]. auto.
    + destruct (IH w1) as (ups2 & Hc2 & Hall2 & Hfail2).
      exists (ups1 ++ ups2). split; [|split].
      * rewrite Hc2, Hc1, <- app_assoc. reflexivity.
      * apply List.Forall_app. auto.
      * intros c e Hin Hw. apply in_app_iff in Hin as [Hin|Hin].
        -- specialize (Hfail1 c e Hin Hw). discriminate.
        -- eauto.
Qed.

(** The whole synchronisation: the list call, the delete calls, then the
    gets, creates and updates. *)
Lemma syncNodeConfigs_trace (nodeCfgs : list SriovFecNodeConfig) (w : World) :
  exists lo dels ups,
    calls (snd (syncNodeConfigs nodeCfgs w)) =
      calls w ++ (ListNodeConfigsCall, lo) :: dels ++ ups /\
    List.Forall (fun x => exists nc, fst x = DeleteCall nc /\
                                     In nc (nodeConfigs w) /\
                                     deleteNC nc nodeCfgs = true) dels /\
    List.Forall (fun x => isUpsertCall (fst x) = true) ups /\
    (forall c e, In (c, Some e) dels ->
       ups = [] /\ fst (syncNodeConfigs nodeCfgs w) = Some e) /\
    (forall c e, In (c, Some e) ups -> isWriteCall c = true ->
       fst (syncNodeConfigs nodeCfgs w) = Some e) /\
    (ups <> [] \/ fst (syncNodeConfigs nodeCfgs w) = None ->
       dels = map deleted (stale nodeCfgs (listed lo w))).
Proof.
  unfold syncNodeConfigs, bind.
  destruct (removeOldNodeConfigs_trace nodeCfgs w)
    as (lo & dels & Hc1 & Hall1 & Hfail1 & Hdone1).
  destruct (removeOldNodeConfigs nodeCfgs w) as [[e1|] w1];
    cbn [fst snd] in Hc1, Hfail1, Hdone1.
  - exists lo, dels, []. cbn [ret fst snd]. rewrite app_nil_r.
    split; [exact Hc1 | split; [exact Hall1 | split; [constructor | split; [|split]]]].
    + intros c e Hin. split; [reflexivity | eauto].
    + intros c e [].
    + intros [Hne|Hres]; [congruence | discriminate].
  - destruct (updateOrCreateEach_trace nodeCfgs w1) as (ups & Hc2 & Hall2 & Hfail2).
    exists lo, dels, ups.
    split; [|split; [exact Hall1 | split; [exact Hall2 | split; [|split]]]].
    + rewrite Hc2, Hc1, <- app_assoc. reflexivity.
    + intros c e Hin. specialize (Hfail1 c e Hin). discriminate.
    + exact Hfail2.
    + intros _. apply Hdone1. reflexivity.
Qed.

(** *** The removal phase, call by call *)

(** The delete loop deletes the stale objects of its list in their order:
    all of them when it returns nil, and otherwise those before the one
    whose delete call failed, that call being its last. *)
Lemma removeEach_prefix (newNodeCfgs items : list SriovFecNodeConfig) (w : World) :
  exists dels,
    calls (snd (removeEach newNodeCfgs items w)) = calls w ++ dels /\
    match fst (removeEach newNodeCfgs items w) with
    | None => dels = map deleted (stale newNodeCfgs items)
    | Some e => deletedUntil (stale newNodeCfgs items) dels e
    end.
Proof.
  revert w. induction items as [|nc rest IH]; intros w.
  - exists []. cbn. rewrite app_nil_r. split; reflexivity.
  - cbn [removeEach stale List.filter].
    destruct (deleteNC nc newNodeCfgs) eqn:Hdel; [|exact (IH w)].
    unfold bind. pose proof (Delete_calls nc w) as Hc.
    destruct (Delete nc w) as [[e|] w1]; cbn [fst snd] in Hc.
    + exists [(DeleteCall nc, Some e)]. cbn [ret fst snd].
      split; [exact Hc|]. exists [], nc, (stale newNodeCfgs rest).
      split; reflexivity.
    + destruct (IH w1) as (dels & Hcalls & Hshape).
      exists ((DeleteCall nc, None) :: dels). split.
      * rewrite Hcalls, Hc, <- app_assoc. reflexivity.
      * destruct (fst (removeEach newNodeCfgs rest w1)) as [e|].
        -- destruct Hshape as (pre & nc' & post & Hstale & Hdels).
           exists (nc :: pre), nc', post. fold (stale newNodeCfgs rest).
           rewrite Hstale, Hdels. split; reflexivity.
        -- rewrite Hshape. reflexivity.
Qed.

(** A delete call adds nothing to the store, and a successful one leaves
    no object under the key of its argument. *)
Lemma Delete_store (obj : SriovFecNodeConfig) (w : World) :
  (forall o, In o (nodeConfigs (snd (Delete obj w))) -> In o (nodeConfigs w)) /\
  (fst (Delete obj w) = None ->
   forall o, In o (nodeConfigs (snd (Delete obj w))) -> isObj obj o = false).
Proof.
  unfold Delete. destruct (fst (nextFault w)).
  { split; [intros o Ho; exact Ho | discriminate]. }
  destruct (findNodeConfig _ _).
  - cbn [fst snd record nodeConfigs withNodeConfigs]. split.
    + intros o Ho. apply filter_In in Ho as [Ho _]. exact Ho.
    + intros _ o Ho. apply filter_In in Ho as [_ Hno].
      apply negb_true_iff in Hno. exact Hno.
  - split; [intros o Ho; exact Ho | discriminate].
Qed.

Lemma removeEach_store (newNodeCfgs items : list SriovFecNodeConfig) (w : World) :
  (forall o, In o (nodeConfigs (snd (removeEach newNodeCfgs items w))) ->
             In o (nodeConfigs w)) /\
  (fst (removeEach newNodeCfgs items w) = None ->
   forall nc, In nc items -> deleteNC nc newNodeCfgs = true ->
   forall o, In o (nodeConfigs (snd (removeEach newNodeCfgs items w))) ->
             isObj nc o = false).
Proof.
  revert w. induction items as [|nc rest IH]; intros w.
  - cbn. split; [tauto|]. intros _ nc [].
  - cbn [removeEach].
    destruct (deleteNC nc newNodeCfgs) eqn:Hdel.
    + unfold bind. destruct (Delete_store nc w) as [Hsub Hgone].
      destruct (Delete nc w) as [[e|] w1]; cbn [fst snd ret] in *.
      * split; [exact Hsub | discriminate].
      * destruct (IH w1) as [Hsub1 Hgone1]. split; [auto|].
        intros Hres nc' [<-|Hin] Hst o Ho.
        -- apply (Hgone eq_refl). apply Hsub1. exact Ho.
        -- exact (Hgone1 Hres nc' Hin Hst o Ho).
    + destruct (IH w) as [Hsub1 Hgone1]. split; [exact Hsub1|].
      intros Hres nc' [<-|Hin] Hst o Ho; [congruence|].
      exact (Hgone1 Hres nc' Hin Hst o Ho).
Qed.

Lemma isObj_refl (o : SriovFecNodeConfig) : isObj o o = true.
Proof.
  unfold isObj, sameKey, GetNamespace, GetName.
  rewrite !String.eqb_refl. reflexivity.
Qed.

(** The removal phase by the outcome of its list call.  When the list call
    succeeds, the phase deletes the stale objects of the store; when it
    returns nil, no stored object is stale any more.  When the list call
    fails, nothing is deleted; the failure NotFound is not returned. *)
Lemma removeOldNodeConfigs_phase (newNodeCfgs : list SriovFecNodeConfig) (w : World) :
  exists lo dels,
    calls (snd (removeOldNodeConfigs newNodeCfgs w)) =
      calls w ++ (ListNodeConfigsCall, lo) :: dels /\
    match lo with
    | None =>
        match fst (removeOldNodeConfigs newNodeCfgs w) with
        | None =>
            dels = map deleted (stale newNodeCfgs (nodeConfigs w)) /\
            List.Forall (fun o => In (GetName o) (map GetName newNodeCfgs))
                        (nodeConfigs (snd (removeOldNodeConfigs newNodeCfgs w)))
        | Some e => deletedUntil (stale newNodeCfgs (nodeConfigs w)) dels e
        end
    | Some e =>
        dels = [] /\
        fst (removeOldNodeConfigs newNodeCfgs w) =
          (if IsNotFound e then None else Some e)
    end.
Proof.
  unfold removeOldNodeConfigs, bind, List_NodeConfigs.
  destruct (fst (nextFault w)) as [e|].
  - exists (Some e), []. destruct (IsNotFound e); cbn; auto.
  - set (w1 := record ListNodeConfigsCall None w).
    destruct (removeEach_prefix newNodeCfgs (nodeConfigs w) w1) as (dels & Hc & Hshape).
    destruct (removeEach_store newNodeCfgs (nodeConfigs w) w1) as [Hsub Hgone].
    exists None, dels. split.
    + rewrite Hc. unfold w1. cbn [record calls]. rewrite <- app_assoc. reflexivity.
    + destruct (fst (removeEach newNodeCfgs (nodeConfigs w) w1)) as [e|];
        [exact Hshape|].
      split; [exact Hshape|]. apply List.Forall_forall. intros o Ho.
      specialize (Hsub o Ho). change (nodeConfigs w1) with (nodeConfigs w) in Hsub.
      destruct (deleteNC o newNodeCfgs) eqn:Hdel.
      * pose proof (Hgone eq_refl o Hsub Hdel o Ho) as Hno.
        rewrite isObj_refl in Hno. discriminate.
      * destruct (in_dec string_dec (GetName o) (map GetName newNodeCfgs))
          as [Hin|Hout]; [exact Hin|].
        apply deleteNC_absent in Hout. congruence.
Qed.

(** C5, as amended.  The calls of a synchronisation are the list call, then
    delete calls, then gets, creates and updates, in this order; no delete
    call follows a get, create or update.  When the list call succeeds,
    either every stored object with a name absent from the target set is
    deleted successfully, in the store's order, before the first get, create
    or update, and at that moment no stored object has such a name; or a
    delete call fails, the stale objects before it having been deleted, and
    the synchronisation ends with that error and no get, create or update.
    When the list call fails nothing is deleted: any failure but NotFound
    ends the synchronisation with it, and NotFound lets it go on to the
    gets, creates and updates. *)
Theorem deletions_before_upserts (nodeCfgs : list SriovFecNodeConfig) (w : World) :
  exists lo dels ups,
    let afterRemoval := snd (removeOldNodeConfigs nodeCfgs w) in
    calls (snd (syncNodeConfigs nodeCfgs w)) =
      calls w ++ (ListNodeConfigsCall, lo) :: dels ++ ups /\
    List.Forall (fun x => isUpsertCall (fst x) = true /\
                          isDeleteCall (fst x) = false) ups /\
    match lo with
    | None =>
        (dels = map deleted (stale nodeCfgs (nodeConfigs w)) /\
         List.Forall (fun o => In (GetName o) (map GetName nodeCfgs))
                     (nodeConfigs afterRemoval) /\
         syncNodeConfigs nodeCfgs w = updateOrCreateEach nodeCfgs afterRemoval /\
         calls (snd (updateOrCreateEach nodeCfgs afterRemoval)) =
           calls afterRemoval ++ ups)
        \/
        (exists e,
           deletedUntil (stale nodeCfgs (nodeConfigs w)) dels e /\
           ups = [] /\
           fst (syncNodeConfigs nodeCfgs w) = Some e)
    | Some e =>
        dels = [] /\
        if IsNotFound e
        then syncNodeConfigs nodeCfgs w = updateOrCreateEach nodeCfgs afterRemoval /\
             calls (snd (updateOrCreateEach nodeCfgs afterRemoval)) =
               calls afterRemoval ++ ups
        else ups = [] /\ fst (syncNodeConfigs nodeCfgs w) = Some e
    end.
Proof.
  destruct (removeOldNodeConfigs_phase nodeCfgs w) as (lo & dels & Hc1 & Hshape).
  assert (Hupsert : forall ups,
            List.Forall (fun x => isUpsertCall (fst x) = true) ups ->
            List.Forall (fun x : Call * option error =>
                           isUpsertCall (fst x) = true /\
                           isDeleteCall (fst x) = false) ups).
  { intros ups Hups. eapply List.Forall_impl; [|exact Hups].
    intros [c o] Hc. cbn in *. split; [exact Hc|].
    destruct c; try discriminate; reflexivity. }
  assert (Hgo : fst (removeOldNodeConfigs nodeCfgs w) = None ->
            syncNodeConfigs nodeCfgs w =
            updateOrCreateEach nodeCfgs (snd (removeOldNodeConfigs nodeCfgs w))).
  { unfold syncNodeConfigs, bind.
    destruct (removeOldNodeConfigs nodeCfgs w) as [[e|] w1]; cbn [fst snd];
      [discriminate | reflexivity]. }
  assert (Hstop : forall e, fst (removeOldNodeConfigs nodeCfgs w) = Some e ->
            syncNodeConfigs nodeCfgs w =
            (Some e, snd (removeOldNodeConfigs nodeCfgs w))).
  { intros e. unfold syncNodeConfigs, bind.
    destruct (removeOldNodeConfigs nodeCfgs w) as [[e'|] w1]; cbn [fst snd ret];
      [intros [= ->]; reflexivity | discriminate]. }
  destruct (updateOrCreateEach_trace nodeCfgs (snd (removeOldNodeConfigs nodeCfgs w)))
    as (ups & Hc2 & Hups & _).
  exists lo.
  destruct lo as [e|].
  - destruct Hshape as [-> Hres]. exists []. destruct (IsNotFound e).
    + exists ups. cbv zeta.
      split; [rewrite (Hgo Hres), Hc2, Hc1, <- app_assoc; reflexivity|].
      split; [exact (Hupsert ups Hups)|].
      split; [reflexivity | split; [exact (Hgo Hres) | exact Hc2]].
    + exists []. cbv zeta. rewrite (Hstop e Hres). cbn [fst snd].
      split; [exact Hc1 | split; [constructor|]].
      split; [reflexivity | split; reflexivity].
  - exists dels.
    destruct (fst (removeOldNodeConfigs nodeCfgs w)) as [e|] eqn:Hres.
    + exists []. cbv zeta. rewrite (Hstop e eq_refl). cbn [fst snd].
      rewrite app_nil_r. split; [exact Hc1 | split; [constructor|]].
      right. exists e. split; [exact Hshape | split; reflexivity].
    + destruct Hshape as [Hdels Hclean]. exists ups. cbv zeta.
      split; [rewrite (Hgo eq_refl), Hc2, Hc1, <- app_assoc; reflexivity|].
      split; [exact (Hupsert ups Hups)|].
      left. split; [exact Hdels | split; [exact Hclean|]].
      split; [exact (Hgo eq_refl) | exact Hc2].
Qed.

(** *** The status on a failed synchronisation *)

Lemma Status_Update_stored (obj : SriovFecClusterConfig) (w : World) :
  fst (Status_Update obj w) = None ->
  exists stored,
    In stored (clusterConfigs (snd (Status_Update obj w))) /\
    CC_ObjectMeta stored = CC_ObjectMeta obj /\
    CC_Status stored = CC_Status obj.
Proof.
  unfold Status_Update. destruct (fst (nextFault w)); [discriminate|].
  destruct (findClusterConfig _ _) as [found|] eqn:Hfind; [|discriminate].
  intros _. apply find_some in Hfind as [Hin Hkey].
  exists (withStatus (CC_Status obj) found). cbn [snd record clusterConfigs
    withClusterConfigs]. split; [|split].
  - apply in_map_iff. exists found. split; [|exact Hin].
    cbn [keyOf NN_Namespace NN_Name] in Hkey. rewrite Hkey. reflexivity.
  - cbn. unfold sameKey in Hkey. cbn in Hkey.
    apply andb_prop in Hkey as [Hns Hname].
    apply String.eqb_eq in Hns. apply String.eqb_eq in Hname.
    destruct (CC_ObjectMeta found), (CC_ObjectMeta obj). cbn in *. congruence.
  - reflexivity.
Qed.

Lemma updateStatus_then_ret {A} (clusterConfig : SriovFecClusterConfig)
    (status reason : string) (x : A) (w : World) :
  (updateStatus clusterConfig status reason ;;; ret x) w =
  (x, snd (updateStatus clusterConfig status reason w)).
Proof.
  unfold bind. destruct (updateStatus clusterConfig status reason w) as [[] w'].
  reflexivity.
Qed.

Lemma reconcileNodes_trace (clusterConfig : SriovFecClusterConfig) (w : World) :
  exists d,
    calls (snd (reconcileNodes clusterConfig w)) = calls w ++ d /\
    forall c e, In (c, Some e) d -> isWriteCall c = true ->
      fst (reconcileNodes clusterConfig w) = Some (emptyResult, Some e) /\
      endsInCreationFailed clusterConfig w (snd (reconcileNodes clusterConfig w)).
Proof.
  destruct (reconcileNodes clusterConfig w) as [res w'] eqn:Hrec. cbn [fst snd].
  unfold reconcileNodes in Hrec.
  destruct (firstInvalidNode 0 (Nodes (CC_Spec clusterConfig))) as [idx|].
  { rewrite updateStatus_then_ret in Hrec. injection Hrec as <- <-.
    match goal with
    | |- context [updateStatus clusterConfig ?s ?r w] =>
        destruct (updateStatus_calls clusterConfig s r w) as (o & Hc)
    end. eexists. split; [exact Hc|].
    intros c e [Heq|[]] Hw. injection Heq as <- _. discriminate. }
  unfold bind at 1 in Hrec. unfold getNodesWithIntelAccelerator, bind at 1 in Hrec.
  pose proof (List_Nodes_calls intelAcceleratorLabels w) as Hlist.
  destruct (List_Nodes intelAcceleratorLabels w) as [[err|nodeList] w1];
    cbn [fst snd ret outcomeOf] in *.
  { rewrite updateStatus_then_ret in Hrec. injection Hrec as <- <-.
    match goal with
    | |- context [updateStatus clusterConfig ?s ?r w1] =>
        destruct (updateStatus_calls clusterConfig s r w1) as (o & Hc)
    end. eexists. split.
    - rewrite Hc, Hlist, <- app_assoc. reflexivity.
    - intros c e [Heq|[Heq|[]]] Hw; injection Heq as <- _; discriminate. }
  destruct (renderNodeConfigs clusterConfig nodeList) as [nodeConfigs|].
  2: { injection Hrec as <- <-. eexists. split; [exact Hlist|].
       intros c e [Heq|[]] Hw. injection Heq as <- _. discriminate. }
  unfold bind at 1 in Hrec.
  destruct (syncNodeConfigs_trace nodeConfigs w1)
    as (lo & dels & ups & Hsync & _ & Hups & Hfaild & Hfailu & _).
  destruct (syncNodeConfigs nodeConfigs w1) as [r w2]. cbn [fst snd] in *.
  assert (Hwrite : forall c e (last : Call * option error),
            isWriteCall (fst last) = false ->
            In (c, Some e)
               ([(ListNodesCall intelAcceleratorLabels, @None error)]
                ++ ((ListNodeConfigsCall, lo) :: dels ++ ups) ++ [last]) ->
            isWriteCall c = true -> r = Some e).
  { intros c e last Hlast Hin Hw.
    apply in_app_iff in Hin as [[Heq|[]]|Hin];
      [injection Heq as <- _; discriminate|].
    apply in_app_iff in Hin as [[Heq|Hin]|[Heq|[]]].
    - injection Heq as <- _. discriminate.
    - apply in_app_iff in Hin as [Hin|Hin]; [apply (Hfaild c e Hin) | eauto].
    - subst last. cbn in Hlast. congruence. }
  destruct r as [e0|]; rewrite updateStatus_then_ret in Hrec;
    injection Hrec as <- <-;
    match goal with
    | |- context [updateStatus clusterConfig ?s ?r w2] =>
        destruct (updateStatus_calls clusterConfig s r w2) as (o & Hc)
    end;
    (eexists; split;
     [rewrite Hc, Hsync, Hlist, <- !app_assoc; reflexivity|]);
    intros c e Hin Hw;
    pose proof (fun Hlast => Hwrite c e _ Hlast Hin Hw) as Hr;
    specialize (Hr eq_refl).
  - injection Hr as ->. split; [reflexivity|].
    exists w2. eexists. split; [reflexivity|].
    rewrite Hsync, Hlist, <- app_assoc. reflexivity.
  - discriminate.
Qed.

Lemma updateStatus_spec (clusterConfig : SriovFecClusterConfig)
    (status reason : string) (w : World) :
  exists outcome,
    calls (snd (updateStatus clusterConfig status reason w)) =
      calls w ++ [(StatusUpdateCall
                     (withStatus {| SyncStatus := status; LastSyncError := reason |}
                                 clusterConfig), outcome)] /\
    (outcome = None ->
     exists stored,
       In stored (clusterConfigs (snd (updateStatus clusterConfig status reason w))) /\
       CC_ObjectMeta stored = CC_ObjectMeta clusterConfig /\
       CC_Status stored = {| SyncStatus := status; LastSyncError := reason |}).
Proof.
  unfold updateStatus, bind.
  set (obj := withStatus {| SyncStatus := status; LastSyncError := reason |}
                         clusterConfig).
  pose proof (Status_Update_calls obj w) as Hc.
  pose proof (Status_Update_stored obj w) as Hst.
  destruct (Status_Update obj w) as [r w']. cbn [fst snd ret] in *.
  exists r. split; [exact Hc|]. exact Hst.
Qed.

Lemma reconcileNodes_after_get (req : Request) (w w1 : World) (o : option error)
    (clusterConfig : SriovFecClusterConfig) :
  fst (Get_ClusterConfig (Req_NamespacedName req) w) = inr clusterConfig ->
  calls w1 = calls w ++ [(GetClusterConfigCall (Req_NamespacedName req), o)] ->
  failedWriteReported req w (reconcileNodes clusterConfig w1).
Proof.
  intros Hloaded Hget.
  destruct (reconcileNodes_trace clusterConfig w1) as (d & Hc & Hfail).
  eexists. split; [rewrite Hc, Hget, <- app_assoc; reflexivity|].
  intros c e [Heq|Hin] Hw; [injection Heq as <- _; discriminate|].
  destruct (Hfail c e Hin Hw) as (Hres & w2 & d2 & Hend & Hcalls).
  split; [exact Hres|]. exists clusterConfig. split; [exact Hloaded|].
  exists w2. eexists. split; [exact Hend|].
  rewrite Hcalls, Hget, <- app_assoc. reflexivity.
Qed.

Lemma status_after_get (req : Request) (w w1 : World) (o : option error)
    (clusterConfig : SriovFecClusterConfig) (status reason : string)
    (x : option (Result * option error)) :
  calls w1 = calls w ++ [(GetClusterConfigCall (Req_NamespacedName req), o)] ->
  failedWriteReported req w ((updateStatus clusterConfig status reason ;;; ret x) w1).
Proof.
  intros Hget. rewrite updateStatus_then_ret.
  destruct (updateStatus_calls clusterConfig status reason w1) as (o' & Hc).
  eexists. cbn [fst snd]. split; [rewrite Hc, Hget, <- app_assoc; reflexivity|].
  intros c e [Heq|[Heq|[]]] Hw; injection Heq as <- _; discriminate.
Qed.

Lemma only_get (req : Request) (w w1 : World) (o : option error)
    (x : option (Result * option error)) :
  calls w1 = calls w ++ [(GetClusterConfigCall (Req_NamespacedName req), o)] ->
  failedWriteReported req w (x, w1).
Proof.
  intros Hget. eexists. split; [exact Hget|].
  intros c e [Heq|[]] Hw. injection Heq as <- _. discriminate.
Qed.

Lemma Reconcile_trace (req : Request) (w : World) :
  failedWriteReported req w (Reconcile req w).
Proof.
  unfold Reconcile. unfold bind at 1.
  pose proof (Get_ClusterConfig_calls (Req_NamespacedName req) w) as Hget.
  assert (Hloaded : forall loaded,
            fst (Get_ClusterConfig (Req_NamespacedName req) w) = inr loaded ->
            fst (Get_ClusterConfig (Req_NamespacedName req) w) = inr loaded)
    by (intros loaded Hl; exact Hl).
  destruct (Get_ClusterConfig (Req_NamespacedName req) w) as [[err|clusterConfig] w1]
    in Hget, Hloaded at 1 |- *; cbn [fst snd outcomeOf] in Hget.
  { destruct (IsNotFound err); eapply only_get; exact Hget. }
  specialize (Hloaded clusterConfig eq_refl).
  unfold bind at 1. cbn [getNAMESPACE].
  destruct (negb _ || negb _); [eapply status_after_get; exact Hget|].
  cbv zeta.
  destruct (OneNodeConfigForAll (CC_Spec clusterConfig));
    [|eapply reconcileNodes_after_get; [exact Hloaded | exact Hget]].
  destruct (negb (Go.len (Nodes (CC_Spec clusterConfig)) =? 1));
    [eapply status_after_get; exact Hget|].
  destruct (Nodes (CC_Spec clusterConfig)) as [|first others];
    [eapply only_get; exact Hget|].
  destruct (negb (OneCardConfigForAll first));
    [eapply status_after_get; exact Hget
    | eapply reconcileNodes_after_get; [exact Hloaded | exact Hget]].
Qed.

(** A successful get hands back an object stored under the requested key. *)
Lemma Get_ClusterConfig_key (key : NamespacedName) (w : World)
    (loaded : SriovFecClusterConfig) :
  fst (Get_ClusterConfig key w) = inr loaded ->
  In loaded (clusterConfigs w) /\ keyOf (CC_ObjectMeta loaded) = key.
Proof.
  unfold Get_ClusterConfig. destruct (fst (nextFault w)); [discriminate|].
  destruct (findClusterConfig key (clusterConfigs w)) as [found|] eqn:Hfind;
    [|discriminate].
  cbn [fst]. intros [= <-]. apply find_some in Hfind as [Hin Hkey].
  split; [exact Hin|].
  unfold sameKey in Hkey. apply andb_prop in Hkey as [Hns Hname].
  apply String.eqb_eq in Hns. apply String.eqb_eq in Hname.
  destruct key. unfold keyOf. cbn in *. congruence.
Qed.

(** C3, as amended.  In every reconciliation pass in which a create, update
    or delete call fails, the pass returns that call's error to the caller,
    and its last call is a status write for the cluster configuration that
    the pass loaded under the request's key: the loaded object with the
    status NodeConfigsCreationFailed and the message "failed to create
    NodeConfigs - check logs".  Unless the status write fails itself, an
    object stored under that key carries that status afterwards. *)
Theorem sync_failure_status (req : Request) (w : World)
    (d : list (Call * option error)) (c : Call) (e : error) :
  calls (snd (Reconcile req w)) = calls w ++ d ->
  In (c, Some e) d ->
  isWriteCall c = true ->
  fst (Reconcile req w) = Some (emptyResult, Some e) /\
  exists loaded pre outcome,
    fst (Get_ClusterConfig (Req_NamespacedName req) w) = inr loaded /\
    In loaded (clusterConfigs w) /\
    keyOf (CC_ObjectMeta loaded) = Req_NamespacedName req /\
    d = pre ++ [(StatusUpdateCall (withStatus creationFailed loaded), outcome)] /\
    (outcome = None ->
     exists stored,
       In stored (clusterConfigs (snd (Reconcile req w))) /\
       keyOf (CC_ObjectMeta stored) = Req_NamespacedName req /\
       CC_Status stored = creationFailed).
Proof.
  intros Hd Hin Hw.
  destruct (Reconcile_trace req w) as (d0 & Hc & Hfail).
  assert (d0 = d) as -> by (rewrite Hc in Hd; apply app_inv_head in Hd; exact Hd).
  destruct (Hfail c e Hin Hw) as (Hres & loaded & Hloaded & w2 & d2 & Hend & Hcalls).
  split; [exact Hres|].
  destruct (Get_ClusterConfig_key _ _ _ Hloaded) as [Hstoredw Hkey].
  destruct (updateStatus_spec loaded "NodeConfigsCreationFailed"
              "failed to create NodeConfigs - check logs" w2) as (o & Hsu & Hstored).
  rewrite <- Hend in Hsu, Hstored.
  exists loaded, d2, o.
  split; [exact Hloaded | split; [exact Hstoredw | split; [exact Hkey | split]]].
  - rewrite Hc, Hcalls, <- app_assoc in Hsu. apply app_inv_head in Hsu. exact Hsu.
  - intros Ho. destruct (Hstored Ho) as (stored & Hins & Hmeta & Hstatus).
    exists stored. split; [exact Hins | split; [|exact Hstatus]].
    rewrite Hmeta. exact Hkey.
Qed.

(** *** No panic

    [renderNodeConfigs] indexes [Nodes[0]] in uniform mode; [Reconcile]
    reaches it only after it has checked that there is exactly one entry. *)

Lemma renderNodeConfigs_panics (clusterConfig : SriovFecClusterConfig)
    (nodeList : list Node) :
  renderNodeConfigs clusterConfig nodeList = None ->
  OneNodeConfigForAll (CC_Spec clusterConfig) = true /\
  Nodes (CC_Spec clusterConfig) = [].
Proof.
  unfold renderNodeConfigs.
  destruct (OneNodeConfigForAll (CC_Spec clusterConfig)); [|discriminate].
  destruct (Nodes (CC_Spec clusterConfig)) as [|first others]; [auto|].
  rewrite renderForAll_map. discriminate.
Qed.

Lemma reconcileNodes_returns (clusterConfig : SriovFecClusterConfig) (w : World) :
  (OneNodeConfigForAll (CC_Spec clusterConfig) = true ->
   Nodes (CC_Spec clusterConfig) <> []) ->
  fst (reconcileNodes clusterConfig w) <> None.
Proof.
  intros Hone. unfold reconcileNodes.
  destruct (firstInvalidNode 0 (Nodes (CC_Spec clusterConfig))) as [idx|].
  { rewrite updateStatus_then_ret. discriminate. }
  unfold bind at 1.
  destruct (getNodesWithIntelAccelerator w) as [[err|nodeList] w1].
  { rewrite updateStatus_then_ret. discriminate. }
  destruct (renderNodeConfigs clusterConfig nodeList) as [nodeConfigs|] eqn:Hrender.
  - unfold bind at 1.
    destruct (syncNodeConfigs nodeConfigs w1) as [[e|] w2];
      rewrite updateStatus_then_ret; discriminate.
  - apply renderNodeConfigs_panics in Hrender as [Huniform Hnil].
    exfalso. apply (Hone Huniform). exact Hnil.
Qed.

(** [Reconcile] returns on every request in every world. *)
Lemma Reconcile_returns (req : Request) (w : World) :
  fst (Reconcile req w) <> None.
Proof.
  unfold Reconcile. unfold bind at 1.
  destruct (Get_ClusterConfig (Req_NamespacedName req) w) as [[err|clusterConfig] w1].
  { destruct (IsNotFound err); discriminate. }
  unfold bind at 1. cbn [getNAMESPACE].
  destruct (negb _ || negb _); [rewrite updateStatus_then_ret; discriminate|].
  cbv zeta.
  destruct (OneNodeConfigForAll (CC_Spec clusterConfig)) eqn:Huniform;
    [|apply reconcileNodes_returns; rewrite Huniform; discriminate].
  destruct (Nodes (CC_Spec clusterConfig)) as [|first others] eqn:Hnodes.
  { change (negb (Go.len (@nil NodeConfig) =? 1)) with true. cbv iota.
    rewrite updateStatus_then_ret. discriminate. }
  destruct (negb (Go.len (first :: others) =? 1));
    [rewrite updateStatus_then_ret; discriminate|].
  destruct (negb (OneCardConfigForAll first));
    [rewrite updateStatus_then_ret; discriminate|].
  apply reconcileNodes_returns. rewrite Hnodes. discriminate.
Qed.

(** *** The theorems at concrete inputs *)

(** Uniform mode over an inventory of three nodes: three objects, named
    [n1], [n2] and [n3], each with the declared card list. *)
Lemma render_uniform_witness :
  exists nodeConfigs,
    renderNodeConfigs Examples.uniformConfig Examples.inventory3 = Some nodeConfigs /\
    length nodeConfigs = 3%nat /\
    map GetName nodeConfigs = ["n1"; "n2"; "n3"] /\
    List.Forall (fun o => NC_Cards (NC_Spec o) = [Examples.cardA]) nodeConfigs.
Proof.
  exact (render_uniform Examples.uniformConfig Examples.inventory3
           (Examples.entry "" true) [] eq_refl eq_refl).
Defined.

(** Per-node mode with entries for [worker-9] and [worker-1] over the
    inventory [worker-1], [worker-2]: the entry of [worker-9] is dropped,
    the entry of [worker-1] after it is rendered, [worker-2] gets nothing. *)
Lemma render_per_node_witness :
  renderNodeConfigs Examples.perNodeConfig Examples.inventory2 =
    Some [newNodeCfg true [Examples.cardA] "worker-1"] /\
  ~ In "worker-9" (map Node_Name Examples.inventory2).
Proof.
  destruct (render_per_node Examples.perNodeConfig Examples.inventory2 eq_refl)
    as (nodeConfigs & Hrender & Hlist & _ & _).
  split.
  - rewrite Hrender, Hlist. reflexivity.
  - cbn. intros [H|[H|[]]]; discriminate.
Defined.

(** Uniform mode with a declared [oneCardConfigForAll] of false: the object
    of [n1] has it true, lives in "default" and is named after the node. *)
Lemma render_metadata_witness :
  OneCardConfigForAll (Examples.entry "" false) = false /\
  GetNamespace (newNodeCfg true [Examples.cardA] "n1") = "default" /\
  In (GetName (newNodeCfg true [Examples.cardA] "n1"))
     (map Node_Name Examples.inventory3) /\
  NC_OneCardConfigForAll (NC_Spec (newNodeCfg true [Examples.cardA] "n1")) = true.
Proof.
  destruct (render_metadata Examples.uniformDeclaredFalse Examples.inventory3
              (map (fun node => newNodeCfg true [Examples.cardA] (Node_Name node))
                   Examples.inventory3)
              (newNodeCfg true [Examples.cardA] "n1")
              eq_refl (or_introl eq_refl)) as (Hns & Hname & Hone).
  split; [reflexivity | split; [exact Hns | split; [exact Hname |]]].
  apply Hone. reflexivity.
Defined.

(** The target set drops [n1], keeps [n2] and adds [n4]: the stored object
    of [n1] is deleted before [n2] is updated and [n4] is created. *)
Example shrinking_target_set :
  map fst (calls (snd (syncNodeConfigs
                         [Examples.storedNodeConfig "n2"; Examples.storedNodeConfig "n4"]
                         Examples.shrinkingWorld))) =
  [ListNodeConfigsCall;
   DeleteCall (Examples.storedNodeConfig "n1");
   GetNodeConfigCall {| NN_Namespace := "default"; NN_Name := "n2" |};
   UpdateCall (Examples.storedNodeConfig "n2");
   GetNodeConfigCall {| NN_Namespace := "default"; NN_Name := "n4" |};
   CreateCall (Examples.storedNodeConfig "n4")] /\
  map GetName (nodeConfigs (snd (syncNodeConfigs
                         [Examples.storedNodeConfig "n2"; Examples.storedNodeConfig "n4"]
                         Examples.shrinkingWorld))) = ["n2"; "n4"].
Proof. split; vm_compute; reflexivity. Qed.

(** C5 as stated fails.  The store holds the object of [worker-7], a name
    absent from the target set, and the API server answers the list call of
    the node configurations NotFound.  The pass does not return that
    failure: it makes no delete call, updates the object of [worker-1],
    creates the object of [worker-2] and returns no error, and the object of
    [worker-7] is stored when the pass ends, beside the created one. *)
Lemma stale_object_outlives_create :
  renderNodeConfigs Examples.twoWorkersConfig Examples.inventory2 =
    Some Examples.twoTargets /\
  In Examples.leftoverNodeConfig (nodeConfigs Examples.listNotFoundWorld) /\
  ~ In (GetName Examples.leftoverNodeConfig) (map GetName Examples.twoTargets) /\
  fst (Reconcile Examples.request Examples.listNotFoundWorld) =
    Some (emptyResult, None) /\
  List.filter (fun x => isWriteCall (fst x))
              (calls (snd (Reconcile Examples.request Examples.listNotFoundWorld))) =
    [(UpdateCall (ReconcilerStore.withSpec
                    (NC_Spec (Examples.storedNodeConfig "worker-1"))
                    Examples.reportedNodeConfig), None);
     (CreateCall (Examples.storedNodeConfig "worker-2"), None)] /\
  In Examples.leftoverNodeConfig
     (nodeConfigs (snd (Reconcile Examples.request Examples.listNotFoundWorld))) /\
  map GetName (nodeConfigs (snd (Reconcile Examples.request Examples.listNotFoundWorld)))
    = ["worker-7"; "worker-1"; "worker-2"].
Proof.
  split; [vm_compute; reflexivity|].
  split; [left; reflexivity|].
  split; [cbn; intros [H|[H|[]]]; discriminate|].
  split; [vm_compute; reflexivity|].
  split; [vm_compute; reflexivity|].
  split; [vm_compute; left; reflexivity | vm_compute; reflexivity].
Qed.

Lemma create_fails_in_pass :
  In (Examples.createWorker1, Some (StatusError InternalError))
     (calls (snd (Reconcile Examples.request Examples.createFailsWorld))).
Proof. vm_compute. do 4 right. left. reflexivity. Defined.

(** A pass whose create call fails: the error is returned, and the last call
    writes the status NodeConfigsCreationFailed for the cluster configuration
    that the pass loaded under the request's key. *)
Lemma sync_failure_status_witness :
  fst (Reconcile Examples.request Examples.createFailsWorld) =
    Some (emptyResult, Some (StatusError InternalError)) /\
  exists loaded pre outcome,
    fst (Get_ClusterConfig (Req_NamespacedName Examples.request)
                           Examples.createFailsWorld) = inr loaded /\
    In loaded (clusterConfigs Examples.createFailsWorld) /\
    keyOf (CC_ObjectMeta loaded) = Req_NamespacedName Examples.request /\
    calls (snd (Reconcile Examples.request Examples.createFailsWorld)) =
      pre ++ [(StatusUpdateCall (withStatus creationFailed loaded), outcome)] /\
    (outcome = None ->
     exists stored,
       In stored (clusterConfigs
                    (snd (Reconcile Examples.request Examples.createFailsWorld))) /\
       keyOf (CC_ObjectMeta stored) = Req_NamespacedName Examples.request /\
       CC_Status stored = creationFailed).
Proof.
  exact (sync_failure_status Examples.request Examples.createFailsWorld
           (calls (snd (Reconcile Examples.request Examples.createFailsWorld)))
           Examples.createWorker1 (StatusError InternalError)
           eq_refl create_fails_in_pass eq_refl).
Defined.

(** C3 as stated fails.  In this pass the create call fails with an internal
    error; the pass returns the error, and it does write the status: the
    status of the stored cluster configuration, empty before the pass, is
    NodeConfigsCreationFailed after it, set by the fault-free status write
    that is the last call of the pass. *)
Lemma sync_failure_status_written :
  In (Examples.createWorker1, Some (StatusError InternalError))
     (calls (snd (Reconcile Examples.request Examples.createFailsWorld))) /\
  fst (Reconcile Examples.request Examples.createFailsWorld) =
    Some (emptyResult, Some (StatusError InternalError)) /\
  map CC_Status (clusterConfigs Examples.createFailsWorld) =
    [{| SyncStatus := ""; LastSyncError := "" |}] /\
  map CC_Status (clusterConfigs
                   (snd (Reconcile Examples.request Examples.createFailsWorld))) =
    [{| SyncStatus := "NodeConfigsCreationFailed";
        LastSyncError := "failed to create NodeConfigs - check logs" |}] /\
  last (map snd (calls (snd (Reconcile Examples.request Examples.createFailsWorld))))
    = Some None /\
  exists clusterConfig,
    last (map fst (calls (snd (Reconcile Examples.request Examples.createFailsWorld))))
      = Some (StatusUpdateCall clusterConfig) /\
    SyncStatus (CC_Status clusterConfig) = "NodeConfigsCreationFailed".
Proof.
  split; [exact create_fails_in_pass|].
  repeat split; try (vm_compute; reflexivity).
  eexists. split; vm_compute; reflexivity.
Qed.

End ControllersProofs.

(** ** Further properties of the daemon *)

Module DaemonExtra.
Import Daemon DaemonLayout.

(** *** The generators *)

Lemma logAndSave_result (cfg : ini_File) (file : string) (w : World) :
  logAndSave cfg file w =
  if decide (file ∈ unwritable w)
  then (Some (errorString ("Unable to write config to file: " +:+ file)),
        withLogged (LogConfig cfg) w)
  else (None, withFiles (<[file := IniData cfg]> (files w))
                        (withLogged (LogConfig cfg) w)).
Proof.
  unfold logAndSave. unfold bind at 1.
  rewrite DaemonProofs.logBBDevConfigFile_spec.
  unfold bind, ini_SaveTo. cbn [unwritable files exec_outcome cmds logs].
  destruct (decide (file ∈ unwritable w)); reflexivity.
Qed.

Lemma generateACC100_result (nc : ACC100BBDevConfig) (file : string) (w : World) :
  generateACC100BBDevConfigFile (Some nc) file w =
  if totalQueueGroups nc >? maxQueueGroups
  then (Some (errorString
          "Total number of requested queue groups (4G/5G) exceeds the maximum (8)"), w)
  else logAndSave (acc100Artifact nc) file w.
Proof.
  unfold generateACC100BBDevConfigFile.
  destruct (totalQueueGroups nc >? maxQueueGroups); reflexivity.
Qed.

Section WithExternals.
Context `{Externals}.

Lemma generateN3000_result (nc : N3000BBDevConfig) (file : string) (w : World) :
  generateN3000BBDevConfigFile (Some nc) file w = logAndSave (n3000Artifact nc) file w.
Proof. reflexivity. Qed.

Lemma generateBBDevConfigFile_result (pfCfg : BBDevConfig) (file : string)
    (w : World) :
  generateBBDevConfigFile pfCfg file w =
  match ACC100 pfCfg, N3000 pfCfg with
  | Some a, _ =>
      if totalQueueGroups a >? maxQueueGroups
      then (Some (errorString
              ("ACC100 config file creation failed, " +:+
               "Total number of requested queue groups (4G/5G) exceeds the maximum (8)")),
            w)
      else if decide (file ∈ unwritable w)
      then (Some (errorString
              ("ACC100 config file creation failed, " +:+
               ("Unable to write config to file: " +:+ file))),
            withLogged (LogConfig (acc100Artifact a)) w)
      else (None, withFiles (<[file := IniData (acc100Artifact a)]> (files w))
                            (withLogged (LogConfig (acc100Artifact a)) w))
  | None, Some n =>
      if decide (file ∈ unwritable w)
      then (Some (errorString
              ("N3000 config file creation failed, " +:+
               ("Unable to write config to file: " +:+ file))),
            withLogged (LogConfig (n3000Artifact n)) w)
      else (None, withFiles (<[file := IniData (n3000Artifact n)]> (files w))
                            (withLogged (LogConfig (n3000Artifact n)) w))
  | None, None => (Some (errorString "Received nil configs"), w)
  end.
Proof.
  unfold generateBBDevConfigFile, bind.
  destruct (ACC100 pfCfg) as [a|].
  - rewrite generateACC100_result.
    destruct (totalQueueGroups a >? maxQueueGroups); [reflexivity|].
    rewrite logAndSave_result. destruct (decide (file ∈ unwritable w)); reflexivity.
  - destruct (N3000 pfCfg) as [n|]; [|reflexivity].
    rewrite generateN3000_result, logAndSave_result.
    destruct (decide (file ∈ unwritable w)); reflexivity.
Qed.

(** X1.  The generator returns nil exactly when the target path can be
    written and the configuration compiles: a variant is set, and for the
    ACC100 variant the sum of the queue-group counts, as Go adds them, is at
    most 8. *)
Theorem generate_succeeds_iff (pfCfg : BBDevConfig) (file : string) (w : World) :
  fst (generateBBDevConfigFile pfCfg file w) = None <->
  (file ∉ unwritable w) /\ compiles pfCfg.
Proof.
  rewrite generateBBDevConfigFile_result. unfold compiles.
  destruct (ACC100 pfCfg) as [a|]; [|destruct (N3000 pfCfg) as [n|]].
  - destruct (totalQueueGroups a >? maxQueueGroups) eqn:Hcap.
    + apply Z.gtb_lt in Hcap. cbn. split; [discriminate | lia].
    + rewrite Z.gtb_ltb in Hcap. apply Z.ltb_ge in Hcap.
      destruct (decide (file ∈ unwritable w)); cbn; split; try tauto; discriminate.
  - destruct (decide (file ∈ unwritable w)); cbn; split; try tauto; discriminate.
  - cbn. split; [discriminate | tauto].
Qed.

(** X2.  When the generator returns nil, the file at the target path holds
    the artifact of the configuration, the same content is the log's last
    entry, every other file is as before and no command was run. *)
Theorem generate_success_content (pfCfg : BBDevConfig) (file : string) (w : World) :
  fst (generateBBDevConfigFile pfCfg file w) = None ->
  exists content,
    artifactOf pfCfg = Some content /\
    files (snd (generateBBDevConfigFile pfCfg file w)) =
      <[file := IniData content]> (files w) /\
    logs (snd (generateBBDevConfigFile pfCfg file w)) =
      logs w ++ [LogConfig content] /\
    cmds (snd (generateBBDevConfigFile pfCfg file w)) = cmds w.
Proof.
  rewrite generateBBDevConfigFile_result. unfold artifactOf.
  destruct (ACC100 pfCfg) as [a|]; [|destruct (N3000 pfCfg) as [n|]].
  - destruct (totalQueueGroups a >? maxQueueGroups); [discriminate|].
    destruct (decide (file ∈ unwritable w)); [discriminate|].
    intros _. eexists. repeat split.
  - destruct (decide (file ∈ unwritable w)); [discriminate|].
    intros _. eexists. repeat split.
  - discriminate.
Qed.

Lemma generate_error_world (pfCfg : BBDevConfig) (file : string)
    (w : World) (e : error) :
  fst (generateBBDevConfigFile pfCfg file w) = Some e ->
  files (snd (generateBBDevConfigFile pfCfg file w)) = files w /\
  cmds (snd (generateBBDevConfigFile pfCfg file w)) = cmds w.
Proof.
  rewrite generateBBDevConfigFile_result.
  destruct (ACC100 pfCfg) as [a|]; [|destruct (N3000 pfCfg) as [n|]].
  - destruct (totalQueueGroups a >? maxQueueGroups);
      [|destruct (decide (file ∈ unwritable w)); [|discriminate]];
      intros _; split; reflexivity.
  - destruct (decide (file ∈ unwritable w)); [|discriminate].
    intros _; split; reflexivity.
  - intros _; split; reflexivity.
Qed.

(** X3.  When the generator returns an error, no file was written or
    changed and no command was run; the error is a string error whose text
    starts with the variant's prefix, or is "Received nil configs" when no
    variant is set. *)
Theorem generate_error_keeps_files (pfCfg : BBDevConfig) (file : string)
    (w : World) (e : error) :
  fst (generateBBDevConfigFile pfCfg file w) = Some e ->
  files (snd (generateBBDevConfigFile pfCfg file w)) = files w /\
  cmds (snd (generateBBDevConfigFile pfCfg file w)) = cmds w /\
  exists msg,
    e = errorString msg /\
    match ACC100 pfCfg, N3000 pfCfg with
    | Some _, _ => exists inner, msg = "ACC100 config file creation failed, " +:+ inner
    | None, Some _ => exists inner, msg = "N3000 config file creation failed, " +:+ inner
    | None, None => msg = "Received nil configs"
    end.
Proof.
  rewrite generateBBDevConfigFile_result.
  destruct (ACC100 pfCfg) as [a|]; [|destruct (N3000 pfCfg) as [n|]].
  - destruct (totalQueueGroups a >? maxQueueGroups);
      [|destruct (decide (file ∈ unwritable w)); [|discriminate]];
      cbn [fst snd]; intros [= <-]; repeat split; eexists; split;
      try reflexivity; eexists; reflexivity.
  - destruct (decide (file ∈ unwritable w)); [|discriminate].
    cbn [fst snd]. intros [= <-]. repeat split. eexists. split; [reflexivity|].
    eexists. reflexivity.
  - cbn [fst snd]. intros [= <-]. repeat split. eexists. split; reflexivity.
Qed.

(** *** Initialisation of a card *)

Lemma generate_success_world (pfCfg : BBDevConfig) (file : string) (w : World) :
  fst (generateBBDevConfigFile pfCfg file w) = None ->
  (file ∉ unwritable w) /\
  (notNil (N3000 pfCfg) || notNil (ACC100 pfCfg) = true) /\
  exists content,
    artifactOf pfCfg = Some content /\
    generateBBDevConfigFile pfCfg file w =
    (None, withFiles (<[file := IniData content]> (files w))
                     (withLogged (LogConfig content) w)).
Proof.
  rewrite generateBBDevConfigFile_result. unfold artifactOf.
  destruct (ACC100 pfCfg) as [a|]; [|destruct (N3000 pfCfg) as [n|]].
  - destruct (totalQueueGroups a >? maxQueueGroups); [discriminate|].
    destruct (decide (file ∈ unwritable w)); [discriminate|].
    intros _. split; [assumption|]. split; [apply orb_true_r|].
    eexists. split; reflexivity.
  - destruct (decide (file ∈ unwritable w)); [discriminate|].
    intros _. split; [assumption|]. split; [reflexivity|].
    eexists. split; reflexivity.
  - discriminate.
Qed.

(** What [initializePfBBConfig] does once the artifact is generated: the
    result and the command are those of the configuration step, and the
    deferred removal takes the artifact away or, when the file system
    refuses, leaves it and logs the refusal. *)
Lemma initialize_after_generation (p : pfBBConfigController)
    (acc : SriovAccelerator) (pf : PhysicalFunctionConfigExt) (w : World) :
  fst (generateBBDevConfigFile (PF_BBDevConfig pf) (artifactPath pf) w) = None ->
  fst (initializePfBBConfig p acc pf w) =
    (if acceptedDeviceName (deviceNameOf acc)
     then exec_outcome w (applyArgs p acc pf)
     else Some (errorString
                  ("incorrect deviceName for pf config: " +:+ deviceNameOf acc))) /\
  cmds (snd (initializePfBBConfig p acc pf w)) =
    cmds w ++ (if acceptedDeviceName (deviceNameOf acc)
               then [applyArgs p acc pf] else []) /\
  exists content,
    artifactOf (PF_BBDevConfig pf) = Some content /\
    if decide (artifactPath pf ∈ unremovable w)
    then files (snd (initializePfBBConfig p acc pf w)) =
           <[artifactPath pf := IniData content]> (files w) /\
         last (logs (snd (initializePfBBConfig p acc pf w))) =
           Some (LogError "failed to remove old bbdev config file"
                   (PathError "remove" (artifactPath pf) "operation not permitted"))
    else files (snd (initializePfBBConfig p acc pf w)) =
           delete (artifactPath pf) (files w).
Proof.
  intros Hgen.
  destruct (generate_success_world _ _ _ Hgen) as (Hw & Hset & content & Hart & Heq).
  destruct (initializePfBBConfig p acc pf w) as [r w'] eqn:Hinit. cbn [fst snd].
  unfold initializePfBBConfig in Hinit. rewrite Hset in Hinit.
  fold (artifactPath pf) in Hinit. fold (deviceNameOf acc) in Hinit.
  unfold bind at 1 in Hinit. rewrite Heq in Hinit.
  unfold bind at 1 in Hinit. unfold runPFConfig, tokenFor in Hinit.
  unfold applyArgs.
  assert (Hremove : forall w0 : World,
            files w0 = <[artifactPath pf := IniData content]> (files w) ->
            unremovable w0 = unremovable w ->
            os_Remove (artifactPath pf) w0 =
            if decide (artifactPath pf ∈ unremovable w)
            then (Some (PathError "remove" (artifactPath pf)
                                  "operation not permitted"), w0)
            else (None, mkWorld (delete (artifactPath pf) (files w))
                                (unwritable w0) (unremovable w)
                                (exec_outcome w0) (cmds w0) (logs w0))).
  { intros w0 Hf Hu. unfold os_Remove. rewrite Hf, lookup_insert_eq, Hu.
    destruct (decide (artifactPath pf ∈ unremovable w)); [reflexivity|].
    rewrite delete_insert_eq. reflexivity. }
  destruct (acceptedDeviceName (deviceNameOf acc)); cbn [negb] in Hinit.
  - destruct (String.eqb _ _);
      unfold bind at 1 in Hinit;
      cbn [runExecCmd withFiles withLogged exec_outcome
           files unwritable unremovable cmds logs fst snd] in Hinit;
      match type of Hinit with
      | context [exec_outcome w ?args] =>
          destruct (exec_outcome w args) as [xe|]
      end;
      cbn [log ret bind] in Hinit; unfold bind in Hinit; cbn [log ret] in Hinit;
      rewrite Hremove in Hinit by reflexivity;
      (split; [|split; [|exists content; split; [exact Hart|]]]);
      destruct (decide (artifactPath pf ∈ unremovable w));
      cbn [ret bind log fst snd withFiles files cmds logs] in Hinit;
      injection Hinit as <- <-; cbn [files cmds logs];
      rewrite ?last_snoc; repeat split; reflexivity.
  - cbn [ret] in Hinit. unfold bind in Hinit. cbn [log ret] in Hinit.
    rewrite Hremove in Hinit by reflexivity.
    (split; [|split; [|exists content; split; [exact Hart|]]]);
      destruct (decide (artifactPath pf ∈ unremovable w));
      cbn [ret log fst snd withFiles files cmds logs withLogged] in Hinit;
      injection Hinit as <- <-; cbn [files cmds logs];
      rewrite ?app_nil_r, ?last_snoc; repeat split; reflexivity.
Qed.


(** X5.  Once the artifact is generated, [initializePfBBConfig] returns what
    the configuration tool ended with on the card's command line, and for a
    device name that is not accepted the error "incorrect deviceName for pf
    config: <name>".  The removal of the artifact has no part in the result:
    this is the result also where the file system refuses the removal. *)
Theorem initialize_result (p : pfBBConfigController)
    (acc : SriovAccelerator) (pf : PhysicalFunctionConfigExt) (w : World) :
  fst (generateBBDevConfigFile (PF_BBDevConfig pf) (artifactPath pf) w) = None ->
  fst (initializePfBBConfig p acc pf w) =
    if acceptedDeviceName (deviceNameOf acc)
    then exec_outcome w (applyArgs p acc pf)
    else Some (errorString
                 ("incorrect deviceName for pf config: " +:+ deviceNameOf acc)).
Proof. intros Hgen. apply (initialize_after_generation p acc pf w Hgen). Qed.

(** X6.  A device id that the table of supported accelerators does not hold
    gives the empty device name: the configuration tool is not run and the
    result is the error "incorrect deviceName for pf config: ". *)
Theorem initialize_unknown_device (p : pfBBConfigController)
    (acc : SriovAccelerator) (pf : PhysicalFunctionConfigExt) (w : World) :
  supportedAccelerators_Devices !! DeviceID acc = None ->
  fst (generateBBDevConfigFile (PF_BBDevConfig pf) (artifactPath pf) w) = None ->
  fst (initializePfBBConfig p acc pf w) =
    Some (errorString "incorrect deviceName for pf config: ") /\
  cmds (snd (initializePfBBConfig p acc pf w)) = cmds w.
Proof.
  intros Hmissing Hgen.
  destruct (initialize_after_generation p acc pf w Hgen) as (Hres & Hcmds & _).
  assert (Hname : deviceNameOf acc = "")
    by (unfold deviceNameOf; rewrite Hmissing; reflexivity).
  rewrite Hname in Hres, Hcmds. cbn in Hres, Hcmds.
  rewrite app_nil_r in Hcmds. split; assumption.
Qed.

(** X7.  When the artifact cannot be generated, [initializePfBBConfig]
    returns the generator's error, logs it, runs no command and leaves the
    file system as it was. *)
Theorem initialize_generation_failure (p : pfBBConfigController)
    (acc : SriovAccelerator) (pf : PhysicalFunctionConfigExt) (w : World)
    (e : error) :
  notNil (N3000 (PF_BBDevConfig pf)) || notNil (ACC100 (PF_BBDevConfig pf)) = true ->
  fst (generateBBDevConfigFile (PF_BBDevConfig pf) (artifactPath pf) w) = Some e ->
  fst (initializePfBBConfig p acc pf w) = Some e /\
  files (snd (initializePfBBConfig p acc pf w)) = files w /\
  cmds (snd (initializePfBBConfig p acc pf w)) = cmds w /\
  last (logs (snd (initializePfBBConfig p acc pf w))) =
    Some (LogError "failed to create bbdev config file" e).
Proof.
  intros Hset Hgen.
  destruct (generate_error_world _ _ _ _ Hgen) as (Hfiles & Hcmds).
  destruct (initializePfBBConfig p acc pf w) as [r w'] eqn:Hinit. cbn [fst snd].
  unfold initializePfBBConfig in Hinit. rewrite Hset in Hinit.
  fold (artifactPath pf) in Hinit. unfold bind at 1 in Hinit.
  destruct (generateBBDevConfigFile (PF_BBDevConfig pf) (artifactPath pf) w)
    as [r1 w1]. cbn [fst snd] in *. subst r1.
  unfold bind in Hinit. cbn [log ret] in Hinit. injection Hinit as <- <-.
  cbn [files cmds logs]. rewrite last_snoc. auto.
Qed.

End WithExternals.

(** *** Teardown *)

Lemma kill_step_cmds (args : list string) (w : World) :
  cmds (snd (execAndSuppress args pkillSuppress w)) = cmds w ++ [args].
Proof.
  unfold execAndSuppress, runExecCmd, bind. cbn [fst snd].
  destruct (exec_outcome w args) as [[msg|code|op path reason]|];
    cbn [pkillSuppress]; try destruct (code =? 1); reflexivity.
Qed.

Lemma stopPfBBConfig_world (p : pfBBConfigController) (pciAddress : string)
    (w : World) :
  cmds (snd (stopPfBBConfig p pciAddress w)) = cmds w ++ [pkillArgs pciAddress] /\
  files (snd (stopPfBBConfig p pciAddress w)) =
    match files w !! socketPath pciAddress with
    | None => files w
    | Some _ =>
        if decide (socketPath pciAddress ∈ unremovable w) then files w
        else delete (socketPath pciAddress) (files w)
    end.
Proof.
  destruct (stopPfBBConfig p pciAddress w) as [r w'] eqn:Hstop. cbn [fst snd].
  unfold stopPfBBConfig in Hstop.
  fold (socketPath pciAddress) in Hstop. fold (pkillArgs pciAddress) in Hstop.
  unfold bind at 1 in Hstop.
  destruct (DaemonProofs.kill_step (pkillArgs pciAddress) w) as (_ & Hf & Hu).
  pose proof (kill_step_cmds (pkillArgs pciAddress) w) as Hc.
  destruct (execAndSuppress (pkillArgs pciAddress) pkillSuppress w) as [err w1].
  cbn [fst snd] in Hf, Hu, Hc.
  unfold bind, log, os_Remove in Hstop.
  cbn [files unwritable unremovable cmds logs exec_outcome] in Hstop.
  rewrite Hf, Hu in Hstop.
  destruct (files w !! socketPath pciAddress);
    [destruct (decide (socketPath pciAddress ∈ unremovable w))|];
    cbn [ret] in Hstop; injection Hstop as <- <-; cbn [files cmds]; auto.
Qed.

(** X8.  Teardown runs one command, the kill command line for the card's
    address, and touches one path of the file system: the card's socket
    file is removed when it exists and can be removed, and nothing else
    changes. *)
Theorem teardown_effects (p : pfBBConfigController) (pciAddress : string)
    (w : World) :
  cmds (snd (stopPfBBConfig p pciAddress w)) = cmds w ++ [pkillArgs pciAddress] /\
  files (snd (stopPfBBConfig p pciAddress w)) !! socketPath pciAddress =
    (if decide (socketPath pciAddress ∈ unremovable w)
     then files w !! socketPath pciAddress else None) /\
  forall path, path <> socketPath pciAddress ->
    files (snd (stopPfBBConfig p pciAddress w)) !! path = files w !! path.
Proof.
  destruct (stopPfBBConfig_world p pciAddress w) as [Hcmds Hfiles].
  split; [exact Hcmds|]. rewrite Hfiles.
  destruct (files w !! socketPath pciAddress) eqn:Hsock;
    [destruct (decide (socketPath pciAddress ∈ unremovable w))|].
  - split; [exact Hsock | reflexivity].
  - split; [apply lookup_delete_eq|]. intros path Hne.
    apply lookup_delete_ne. congruence.
  - split; [destruct (decide _); exact Hsock | reflexivity].
Qed.

(** X9.  When the card's socket file exists and can be removed, teardown
    reports the kill step: nil when the kill utility ended with exit code 0
    or 1, and the utility's error otherwise. *)
Theorem teardown_reports_kill_step (p : pfBBConfigController)
    (pciAddress : string) (w : World) (d : FileData) :
  files w !! socketPath pciAddress = Some d ->
  socketPath pciAddress ∉ unremovable w ->
  fst (stopPfBBConfig p pciAddress w) =
    match exec_outcome w (pkillArgs pciAddress) with
    | None => None
    | Some (ExitError code) => if code =? 1 then None else Some (ExitError code)
    | Some e => Some e
    end.
Proof.
  intros Hsock Hw.
  pose proof (DaemonProofs.stopPfBBConfig_result p pciAddress w) as Hres.
  cbv zeta in Hres. fold (socketPath pciAddress) in Hres.
  fold (pkillArgs pciAddress) in Hres. rewrite Hres, Hsock.
  destruct (decide (socketPath pciAddress ∈ unremovable w)); [contradiction|].
  unfold killStepResult.
  destruct (exec_outcome w (pkillArgs pciAddress)) as [[msg|code|op path reason]|];
    reflexivity.
Qed.

(** *** The properties at concrete inputs *)

Lemma generate_success_content_witness :
  exists content,
    @artifactOf Examples.externals Examples.onlyN3000 = Some content /\
    files (snd (@generateBBDevConfigFile Examples.externals Examples.onlyN3000
                  Examples.artifact Examples.quietWorld)) =
      <[Examples.artifact := IniData content]> ∅ /\
    logs (snd (@generateBBDevConfigFile Examples.externals Examples.onlyN3000
                 Examples.artifact Examples.quietWorld)) = [LogConfig content] /\
    cmds (snd (@generateBBDevConfigFile Examples.externals Examples.onlyN3000
                 Examples.artifact Examples.quietWorld)) = [].
Proof.
  exact (@generate_success_content Examples.externals Examples.onlyN3000
           Examples.artifact Examples.quietWorld eq_refl).
Defined.

(** The N3000 artifact of the example configuration, as it is written. *)
Example n3000_artifact_example :
  @artifactOf Examples.externals Examples.onlyN3000 =
  Some [("DEFAULT", []);
        ("MODE", [("pf_mode_en", "0")]);
        ("UL", [("bandwidth", "3"); ("load_balance", "128");
                ("vfqmap", "16,16,0,0,0,0,0,0")]);
        ("DL", [("bandwidth", "3"); ("load_balance", "128");
                ("vfqmap", "16,16,0,0,0,0,0,0")]);
        ("FLR", [("flr_time_out", "610")])].
Proof. vm_compute. reflexivity. Qed.

Lemma generate_error_keeps_files_witness :
  files (snd (@generateBBDevConfigFile Examples.externals Examples.nineGroups
                Examples.artifact Examples.quietWorld)) = ∅ /\
  cmds (snd (@generateBBDevConfigFile Examples.externals Examples.nineGroups
               Examples.artifact Examples.quietWorld)) = [] /\
  exists msg,
    errorString
      ("ACC100 config file creation failed, " +:+
       "Total number of requested queue groups (4G/5G) exceeds the maximum (8)")
      = errorString msg /\
    exists inner, msg = "ACC100 config file creation failed, " +:+ inner.
Proof.
  exact (@generate_error_keeps_files Examples.externals Examples.nineGroups
           Examples.artifact Examples.quietWorld _ eq_refl).
Defined.


(** The result is the tool's: its exit code 3 where the artifact is removed,
    and nil where the tool succeeds and the removal is refused. *)
Lemma initialize_result_witness :
  fst (@initializePfBBConfig Examples.externals Examples.controller
         Examples.accelerator (Examples.pfWith "vfio-pci" Examples.onlyACC100)
         Examples.toolFailsWorld) = Some (ExitError 3) /\
  Examples.artifact ∈ unremovable Examples.stickyWorld /\
  fst (@initializePfBBConfig Examples.externals Examples.controller
         Examples.accelerator (Examples.pfWith "vfio-pci" Examples.onlyACC100)
         Examples.stickyWorld) = None.
Proof.
  split; [|split].
  - exact (@initialize_result Examples.externals Examples.controller
             Examples.accelerator (Examples.pfWith "vfio-pci" Examples.onlyACC100)
             Examples.toolFailsWorld eq_refl).
  - change (Examples.artifact ∈ ({[ Examples.artifact ]} : gset string)).
    apply elem_of_singleton_2. reflexivity.
  - exact (@initialize_result Examples.externals Examples.controller
             Examples.accelerator (Examples.pfWith "vfio-pci" Examples.onlyACC100)
             Examples.stickyWorld eq_refl).
Defined.

Lemma initialize_unknown_device_witness :
  fst (@initializePfBBConfig Examples.externals Examples.controller
         Examples.unknownAccelerator
         (Examples.pfWith "vfio-pci" Examples.onlyACC100)
         Examples.quietWorld)
    = Some (errorString "incorrect deviceName for pf config: ") /\
  cmds (snd (@initializePfBBConfig Examples.externals Examples.controller
               Examples.unknownAccelerator
               (Examples.pfWith "vfio-pci" Examples.onlyACC100)
               Examples.quietWorld)) = [].
Proof.
  exact (@initialize_unknown_device Examples.externals Examples.controller
           Examples.unknownAccelerator
           (Examples.pfWith "vfio-pci" Examples.onlyACC100)
           Examples.quietWorld eq_refl eq_refl).
Defined.

Lemma initialize_generation_failure_witness :
  fst (@initializePfBBConfig Examples.externals Examples.controller
         Examples.accelerator (Examples.pfWith "vfio-pci" Examples.onlyACC100)
         Examples.readOnlyWorld)
    = Some (errorString
              ("ACC100 config file creation failed, " +:+
               ("Unable to write config to file: " +:+ Examples.artifact))) /\
  cmds (snd (@initializePfBBConfig Examples.externals Examples.controller
               Examples.accelerator
               (Examples.pfWith "vfio-pci" Examples.onlyACC100)
               Examples.readOnlyWorld)) = [].
Proof.
  destruct (@initialize_generation_failure Examples.externals Examples.controller
              Examples.accelerator
              (Examples.pfWith "vfio-pci" Examples.onlyACC100)
              Examples.readOnlyWorld _ eq_refl eq_refl) as (Hres & _ & Hcmds & _).
  split; [exact Hres | exact Hcmds].
Defined.

Lemma teardown_reports_kill_step_witness :
  fst (stopPfBBConfig Examples.controller "0000:af:00.0"
         (Examples.killWorld 2 true)) = Some (ExitError 2) /\
  fst (stopPfBBConfig Examples.controller "0000:af:00.0"
         (Examples.killWorld 1 true)) = None.
Proof.
  split.
  - exact (teardown_reports_kill_step Examples.controller "0000:af:00.0"
             (Examples.killWorld 2 true) OtherData eq_refl
             (fun Hin => proj1 (elem_of_empty _) Hin)).
  - exact (teardown_reports_kill_step Examples.controller "0000:af:00.0"
             (Examples.killWorld 1 true) OtherData eq_refl
             (fun Hin => proj1 (elem_of_empty _) Hin)).
Defined.

End DaemonExtra.

(** ** Further properties of the reconciler *)

Module ControllersExtra.
Import Controllers ReconcilerStore.

(** *** Client calls on an API server that injects no fault *)

Lemma quiet_nextFault (w : World) : faults w = [] -> nextFault w = (None, []).
Proof. unfold nextFault. intros ->. reflexivity. Qed.

Lemma sameKey_meta (ns name : string) (m : ObjectMeta) :
  sameKey ns name m = true <-> Namespace m = ns /\ Name m = name.
Proof.
  unfold sameKey. rewrite andb_true_iff, !String.eqb_eq. tauto.
Qed.

Lemma sameKey_refl (m : ObjectMeta) : sameKey (Namespace m) (Name m) m = true.
Proof. apply sameKey_meta. auto. Qed.

Lemma isObj_iff (a o : SriovFecNodeConfig) :
  isObj a o = true <->
  GetNamespace o = GetNamespace a /\ GetName o = GetName a.
Proof. unfold isObj. apply sameKey_meta. Qed.

Lemma isObj_meta (a b o : SriovFecNodeConfig) :
  NC_ObjectMeta a = NC_ObjectMeta b -> isObj a o = isObj b o.
Proof. unfold isObj, GetNamespace, GetName. intros ->. reflexivity. Qed.

Lemma findNodeConfig_Some (key : NamespacedName) (store : list SriovFecNodeConfig)
    (o : SriovFecNodeConfig) :
  findNodeConfig key store = Some o ->
  In o store /\ GetNamespace o = NN_Namespace key /\ GetName o = NN_Name key.
Proof.
  unfold findNodeConfig. intros Hfind. apply find_some in Hfind as [Hin Hkey].
  apply sameKey_meta in Hkey. auto.
Qed.

Lemma findNodeConfig_In (key : NamespacedName) (store : list SriovFecNodeConfig)
    (o : SriovFecNodeConfig) :
  In o store -> GetNamespace o = NN_Namespace key -> GetName o = NN_Name key ->
  findNodeConfig key store <> None.
Proof.
  unfold findNodeConfig. intros Hin Hns Hname Hnone.
  pose proof (find_none _ _ Hnone o Hin) as Hno.
  cbn in Hno. rewrite (proj2 (sameKey_meta _ _ _)) in Hno; [discriminate|].
  auto.
Qed.

Lemma Get_NodeConfig_quiet (key : NamespacedName) (w : World) :
  faults w = [] ->
  Get_NodeConfig key w =
  match findNodeConfig key (nodeConfigs w) with
  | None => (inl (StatusError NotFound),
             record (GetNodeConfigCall key) (Some (StatusError NotFound)) w)
  | Some o => (inr o, record (GetNodeConfigCall key) None w)
  end.
Proof.
  intros Hq. unfold Get_NodeConfig. rewrite (quiet_nextFault w Hq). reflexivity.
Qed.

Lemma Create_quiet (obj : SriovFecNodeConfig) (w : World) :
  faults w = [] ->
  findNodeConfig (nodeConfigKey obj) (nodeConfigs w) = None ->
  Create obj w =
  (None, record (CreateCall obj) None (withNodeConfigs (nodeConfigs w ++ [obj]) w)).
Proof.
  intros Hq Hfind. unfold Create. rewrite (quiet_nextFault w Hq). cbn [fst].
  change (keyOf (NC_ObjectMeta obj)) with (nodeConfigKey obj). rewrite Hfind.
  reflexivity.
Qed.

Lemma Update_quiet (obj : SriovFecNodeConfig) (w : World) :
  faults w = [] ->
  findNodeConfig (nodeConfigKey obj) (nodeConfigs w) <> None ->
  Update obj w =
  (None, record (UpdateCall obj) None
           (withNodeConfigs
              (List.map (fun o => if isObj obj o then obj else o) (nodeConfigs w)) w)).
Proof.
  intros Hq Hfind. unfold Update. rewrite (quiet_nextFault w Hq). cbn [fst].
  change (keyOf (NC_ObjectMeta obj)) with (nodeConfigKey obj).
  destruct (findNodeConfig (nodeConfigKey obj) (nodeConfigs w)); [reflexivity|].
  congruence.
Qed.

Lemma Delete_quiet (obj : SriovFecNodeConfig) (w : World) :
  faults w = [] ->
  Delete obj w =
  match findNodeConfig (nodeConfigKey obj) (nodeConfigs w) with
  | None => (Some (StatusError NotFound),
             record (DeleteCall obj) (Some (StatusError NotFound)) w)
  | Some _ => (None, record (DeleteCall obj) None
                       (withNodeConfigs (storeDelete obj (nodeConfigs w)) w))
  end.
Proof.
  intros Hq. unfold Delete. rewrite (quiet_nextFault w Hq). reflexivity.
Qed.

Lemma record_quiet (c : Call) (o : option error) (w : World) :
  faults w = [] -> faults (record c o w) = [].
Proof. intros Hq. cbn. rewrite (quiet_nextFault w Hq). reflexivity. Qed.

(** *** One target object *)

(** The effect of [updateOrCreateNodeConfig] in full when no fault is
    injected: it succeeds, with a get and an update when an object of the
    key is stored, and a get and a create when none is. *)
Lemma updateOrCreateNodeConfig_quiet (nodeCfg : SriovFecNodeConfig) (w : World) :
  faults w = [] ->
  fst (updateOrCreateNodeConfig nodeCfg w) = None /\
  faults (snd (updateOrCreateNodeConfig nodeCfg w)) = [] /\
  nodeConfigs (snd (updateOrCreateNodeConfig nodeCfg w)) =
    storeUpsert nodeCfg (nodeConfigs w) /\
  calls (snd (updateOrCreateNodeConfig nodeCfg w)) =
    calls w ++
    match findNodeConfig (nodeConfigKey nodeCfg) (nodeConfigs w) with
    | None => [(GetNodeConfigCall (nodeConfigKey nodeCfg), Some (StatusError NotFound));
               (CreateCall nodeCfg, None)]
    | Some prev => [(GetNodeConfigCall (nodeConfigKey nodeCfg), None);
                    (UpdateCall (withSpec (NC_Spec nodeCfg) prev), None)]
    end.
Proof.
  intros Hq.
  destruct (updateOrCreateNodeConfig nodeCfg w) as [r w'] eqn:Hrun. cbn [fst snd].
  unfold updateOrCreateNodeConfig in Hrun. unfold bind at 1 in Hrun.
  change {| NN_Namespace := GetNamespace nodeCfg; NN_Name := GetName nodeCfg |}
    with (nodeConfigKey nodeCfg) in Hrun.
  rewrite (Get_NodeConfig_quiet _ w Hq) in Hrun. unfold storeUpsert.
  destruct (findNodeConfig (nodeConfigKey nodeCfg) (nodeConfigs w)) as [prev|] eqn:Hfind.
  - fold (withSpec (NC_Spec nodeCfg) prev) in Hrun.
    unfold bind in Hrun.
    rewrite Update_quiet in Hrun.
    + injection Hrun as <- <-. split; [reflexivity|]. split; [|split].
      * apply record_quiet. cbn [withNodeConfigs faults].
        apply record_quiet, Hq.
      * reflexivity.
      * cbn [snd calls record withNodeConfigs]. rewrite <- app_assoc. reflexivity.
    + apply record_quiet. exact Hq.
    + apply findNodeConfig_Some in Hfind as (Hin & Hns & Hname).
      apply (findNodeConfig_In _ _ prev); [exact Hin | reflexivity | reflexivity].
  - cbn [IsNotFound] in Hrun. unfold bind in Hrun.
    rewrite Create_quiet in Hrun.
    + injection Hrun as <- <-. split; [reflexivity|]. split; [|split].
      * apply record_quiet. cbn [withNodeConfigs faults].
        apply record_quiet, Hq.
      * reflexivity.
      * cbn [snd calls record withNodeConfigs]. rewrite <- app_assoc. reflexivity.
    + apply record_quiet. exact Hq.
    + exact Hfind.
Qed.

(** *** The store after each phase *)

Lemma deleteNC_name (a b : SriovFecNodeConfig) (l : list SriovFecNodeConfig) :
  GetName a = GetName b -> deleteNC a l = deleteNC b l.
Proof.
  intros Hname. induction l as [|x rest IH]; [reflexivity|].
  cbn. rewrite Hname, IH. reflexivity.
Qed.

Lemma filter_filter_and {A} (p q : A -> bool) (l : list A) :
  List.filter p (List.filter q l) = List.filter (fun x => q x && p x) l.
Proof.
  induction l as [|x rest IH]; [reflexivity|].
  cbn. destruct (q x); cbn; [destruct (p x)|]; rewrite IH; reflexivity.
Qed.

Lemma fold_storeDelete (items store : list SriovFecNodeConfig) :
  fold_left (fun st nc => storeDelete nc st) items store =
  List.filter (fun o => negb (existsb (fun nc => isObj nc o) items)) store.
Proof.
  revert store. induction items as [|nc rest IH]; intros store.
  - cbn. induction store as [|o st IHst]; [reflexivity|].
    cbn. rewrite <- IHst. reflexivity.
  - cbn [fold_left]. rewrite IH. unfold storeDelete.
    rewrite filter_filter_and. apply filter_ext. intros o. cbn.
    rewrite negb_orb. reflexivity.
Qed.

(** Deleting the stale objects of a listing from the listed store leaves
    the objects whose name is in the target set. *)
Lemma fold_storeDelete_stale (newNodeCfgs store : list SriovFecNodeConfig) :
  fold_left (fun st nc => storeDelete nc st) (stale newNodeCfgs store) store =
  keepNamed newNodeCfgs store.
Proof.
  rewrite fold_storeDelete. unfold keepNamed. apply filter_ext_in.
  intros o Ho. f_equal.
  destruct (deleteNC o newNodeCfgs) eqn:Hdel.
  - apply existsb_exists. exists o. split.
    + apply filter_In. auto.
    + apply isObj_iff. auto.
  - destruct (existsb _ _) eqn:Hex; [|reflexivity].
    apply existsb_exists in Hex as (nc & Hin & Hobj).
    apply filter_In in Hin as [_ Hst]. apply isObj_iff in Hobj as [_ Hname].
    rewrite (deleteNC_name o nc) in Hdel by exact Hname. congruence.
Qed.

Lemma removeEach_quiet (newNodeCfgs items : list SriovFecNodeConfig) (w : World) :
  faults w = [] ->
  fst (removeEach newNodeCfgs items w) = None ->
  faults (snd (removeEach newNodeCfgs items w)) = [] /\
  nodeConfigs (snd (removeEach newNodeCfgs items w)) =
    fold_left (fun st nc => storeDelete nc st) (stale newNodeCfgs items)
              (nodeConfigs w).
Proof.
  revert w. induction items as [|nc rest IH]; intros w Hq Hres.
  - cbn. auto.
  - cbn [removeEach stale List.filter] in *.
    destruct (deleteNC nc newNodeCfgs); [|apply IH; assumption].
    unfold bind in *. rewrite (Delete_quiet nc w Hq) in *.
    destruct (findNodeConfig (nodeConfigKey nc) (nodeConfigs w)); [|discriminate].
    cbn [fold_left].
    apply IH; [|exact Hres].
    apply record_quiet. exact Hq.
Qed.

Lemma removeEach_nothing_stale (newNodeCfgs items : list SriovFecNodeConfig)
    (w : World) :
  stale newNodeCfgs items = [] -> removeEach newNodeCfgs items w = (None, w).
Proof.
  induction items as [|nc rest IH]; [reflexivity|].
  cbn [stale List.filter removeEach].
  destruct (deleteNC nc newNodeCfgs); [discriminate | exact IH].
Qed.

Lemma List_NodeConfigs_quiet (w : World) :
  faults w = [] ->
  List_NodeConfigs w = ((None, nodeConfigs w), record ListNodeConfigsCall None w).
Proof.
  intros Hq. unfold List_NodeConfigs. rewrite (quiet_nextFault w Hq). reflexivity.
Qed.

Lemma removeOldNodeConfigs_quiet (newNodeCfgs : list SriovFecNodeConfig) (w : World) :
  faults w = [] ->
  fst (removeOldNodeConfigs newNodeCfgs w) = None ->
  faults (snd (removeOldNodeConfigs newNodeCfgs w)) = [] /\
  nodeConfigs (snd (removeOldNodeConfigs newNodeCfgs w)) =
    keepNamed newNodeCfgs (nodeConfigs w).
Proof.
  intros Hq. unfold removeOldNodeConfigs, bind.
  rewrite (List_NodeConfigs_quiet w Hq). intros Hres.
  rewrite <- fold_storeDelete_stale.
  apply (removeEach_quiet newNodeCfgs (nodeConfigs w)
           (record ListNodeConfigsCall None w)); [|exact Hres].
  apply record_quiet. exact Hq.
Qed.

Lemma updateOrCreateEach_quiet (nodeCfgs : list SriovFecNodeConfig) (w : World) :
  faults w = [] ->
  fst (updateOrCreateEach nodeCfgs w) = None /\
  faults (snd (updateOrCreateEach nodeCfgs w)) = [] /\
  nodeConfigs (snd (updateOrCreateEach nodeCfgs w)) =
    fold_left (fun st nodeCfg => storeUpsert nodeCfg st) nodeCfgs (nodeConfigs w).
Proof.
  revert w. induction nodeCfgs as [|nodeCfg rest IH]; intros w Hq.
  - cbn. auto.
  - cbn [updateOrCreateEach fold_left]. unfold bind.
    destruct (updateOrCreateNodeConfig_quiet nodeCfg w Hq) as (Hr & Hq1 & Hst & _).
    destruct (updateOrCreateNodeConfig nodeCfg w) as [r w1]. cbn [fst snd] in *.
    subst r. rewrite <- Hst. apply IH. exact Hq1.
Qed.

(** The store after a synchronisation that succeeded with no fault
    injected. *)
Lemma syncNodeConfigs_quiet (nodeCfgs : list SriovFecNodeConfig) (w : World) :
  faults w = [] ->
  fst (syncNodeConfigs nodeCfgs w) = None ->
  faults (snd (syncNodeConfigs nodeCfgs w)) = [] /\
  nodeConfigs (snd (syncNodeConfigs nodeCfgs w)) = synced nodeCfgs (nodeConfigs w).
Proof.
  intros Hq. unfold syncNodeConfigs, bind, synced.
  pose proof (removeOldNodeConfigs_quiet nodeCfgs w Hq) as Hrm.
  destruct (removeOldNodeConfigs nodeCfgs w) as [[e|] w1]; cbn [fst snd] in *;
    [discriminate|].
  intros _. destruct (Hrm eq_refl) as [Hq1 Hst1].
  destruct (updateOrCreateEach_quiet nodeCfgs w1 Hq1) as (_ & Hq2 & Hst2).
  rewrite <- Hst1. auto.
Qed.

(** *** [storeUpsert] *)

Lemma find_map_same {A} (P : A -> bool) (f : A -> A) (l : list A) :
  (forall x, P (f x) = P x) ->
  List.find P (List.map f l) = option_map f (List.find P l).
Proof.
  intros Hf. induction l as [|x rest IH]; [reflexivity|].
  cbn. rewrite Hf. destruct (P x); [reflexivity | exact IH].
Qed.

Lemma find_app_Some {A} (P : A -> bool) (l l' : list A) (x : A) :
  List.find P l = Some x -> List.find P (l ++ l') = Some x.
Proof.
  induction l as [|y rest IH]; [discriminate|].
  cbn. destruct (P y); auto.
Qed.

Lemma find_app_None {A} (P : A -> bool) (l l' : list A) :
  List.find P l = None -> List.find P (l ++ l') = List.find P l'.
Proof.
  induction l as [|y rest IH]; [reflexivity|].
  cbn. destruct (P y); [discriminate | exact IH].
Qed.

Lemma findNodeConfig_isObj (t : SriovFecNodeConfig)
    (store : list SriovFecNodeConfig) :
  findNodeConfig (nodeConfigKey t) store = List.find (isObj t) store.
Proof. reflexivity. Qed.

Lemma withSpec_same (o : SriovFecNodeConfig) (spec : SriovFecNodeConfigSpec) :
  NC_Spec o = spec -> withSpec spec o = o.
Proof. intros <-. destruct o. reflexivity. Qed.

(** With an object of the key stored, the update replaces the objects of
    the target's key. *)
Lemma storeUpsert_found (t prev : SriovFecNodeConfig)
    (store : list SriovFecNodeConfig) :
  findNodeConfig (nodeConfigKey t) store = Some prev ->
  isObj t prev = true /\
  storeUpsert t store =
    List.map (fun o => if isObj t o then withSpec (NC_Spec t) prev else o) store.
Proof.
  intros Hfind. unfold storeUpsert. rewrite Hfind.
  rewrite findNodeConfig_isObj in Hfind. apply find_some in Hfind as [_ Hobj].
  split; [exact Hobj|]. apply map_ext. intros o.
  assert (Hsame : isObj (withSpec (NC_Spec t) prev) o = isObj t o).
  { apply isObj_iff in Hobj as [Hns Hname].
    unfold isObj, withSpec, GetNamespace, GetName in *. cbn.
    rewrite Hns, Hname. reflexivity. }
  rewrite Hsame. reflexivity.
Qed.

Lemma storeUpsert_names (P : string -> Prop) (t : SriovFecNodeConfig)
    (store : list SriovFecNodeConfig) :
  (forall o, In o store -> P (GetName o)) -> P (GetName t) ->
  forall o, In o (storeUpsert t store) -> P (GetName o).
Proof.
  intros Hstore Ht o Ho.
  destruct (findNodeConfig (nodeConfigKey t) store) as [prev|] eqn:Hfind.
  - destruct (storeUpsert_found t prev store Hfind) as [_ Heq].
    rewrite Heq in Ho. apply in_map_iff in Ho as (o0 & <- & Hin).
    destruct (isObj t o0); [|auto].
    apply findNodeConfig_Some in Hfind as (Hprev & _ & _).
    apply (Hstore prev Hprev).
  - unfold storeUpsert in Ho. rewrite Hfind in Ho.
    apply in_app_iff in Ho as [Hin|[<-|[]]]; auto.
Qed.

Lemma storeUpsert_settles (t : SriovFecNodeConfig)
    (store : list SriovFecNodeConfig) :
  settled t (storeUpsert t store).
Proof.
  destruct (findNodeConfig (nodeConfigKey t) store) as [prev|] eqn:Hfind.
  - destruct (storeUpsert_found t prev store Hfind) as [Hobj Heq].
    rewrite Heq. exists (withSpec (NC_Spec t) prev).
    assert (Hnew : isObj t (withSpec (NC_Spec t) prev) = true) by exact Hobj.
    split; [|split; [reflexivity|]].
    + rewrite findNodeConfig_isObj, find_map_same.
      * rewrite <- findNodeConfig_isObj, Hfind. cbn. rewrite Hobj. reflexivity.
      * intros o. destruct (isObj t o) eqn:Ho; [exact Hnew | exact Ho].
    + intros o' Hin Ho'. apply in_map_iff in Hin as (o0 & <- & _).
      destruct (isObj t o0) eqn:Ho0; [reflexivity | congruence].
  - unfold storeUpsert. rewrite Hfind. exists t.
    assert (Hself : isObj t t = true) by (apply isObj_iff; auto).
    split; [|split; [reflexivity|]].
    + rewrite findNodeConfig_isObj in *. rewrite find_app_None by exact Hfind.
      cbn. rewrite Hself. reflexivity.
    + intros o' Hin Ho'. apply in_app_iff in Hin as [Hin|[<-|[]]]; [|reflexivity].
      rewrite findNodeConfig_isObj in Hfind.
      pose proof (find_none _ _ Hfind o' Hin) as Hno. cbn in Hno. congruence.
Qed.

Lemma storeUpsert_keeps_settled (t t' : SriovFecNodeConfig)
    (store : list SriovFecNodeConfig) :
  GetName t' <> GetName t ->
  settled t' store -> settled t' (storeUpsert t store).
Proof.
  intros Hne (o & Hfind' & Hspec & Huniq).
  assert (Hapart : forall x, isObj t x = true -> isObj t' x = false).
  { intros x Hx. destruct (isObj t' x) eqn:Hx'; [|reflexivity].
    apply isObj_iff in Hx as [_ Hn]. apply isObj_iff in Hx' as [_ Hn'].
    congruence. }
  exists o. split; [|split; [exact Hspec|]].
  - destruct (findNodeConfig (nodeConfigKey t) store) as [prev|] eqn:Hfind.
    + destruct (storeUpsert_found t prev store Hfind) as [Hobj Heq].
      rewrite Heq, findNodeConfig_isObj, find_map_same.
      * rewrite <- findNodeConfig_isObj, Hfind'. cbn.
        apply findNodeConfig_Some in Hfind' as (_ & Hns & Hname).
        assert (Ho : isObj t' o = true) by (apply isObj_iff; auto).
        destruct (isObj t o) eqn:Hto; [|reflexivity].
        apply Hapart in Hto. congruence.
      * intros x. destruct (isObj t x) eqn:Hx; [|reflexivity].
        rewrite (Hapart x Hx). apply Hapart.
        apply isObj_iff in Hobj as [Hns Hname]. apply isObj_iff. auto.
    + unfold storeUpsert. rewrite Hfind.
      rewrite findNodeConfig_isObj in *. apply find_app_Some. exact Hfind'.
  - intros o' Hin Ho'.
    destruct (findNodeConfig (nodeConfigKey t) store) as [prev|] eqn:Hfind.
    + destruct (storeUpsert_found t prev store Hfind) as [Hobj Heq].
      rewrite Heq in Hin. apply in_map_iff in Hin as (o0 & <- & Hin0).
      destruct (isObj t o0) eqn:Ho0; [|auto].
      assert (Hnew : isObj t (withSpec (NC_Spec t) prev) = true) by exact Hobj.
      apply Hapart in Hnew. congruence.
    + unfold storeUpsert in Hin. rewrite Hfind in Hin.
      apply in_app_iff in Hin as [Hin|[<-|[]]]; [auto|].
      apply isObj_iff in Ho' as [_ Hn]. congruence.
Qed.

Lemma storeUpsert_settled_id (t : SriovFecNodeConfig)
    (store : list SriovFecNodeConfig) :
  settled t store -> storeUpsert t store = store.
Proof.
  intros (o & Hfind & Hspec & Huniq).
  destruct (storeUpsert_found t o store Hfind) as [_ Heq]. rewrite Heq.
  rewrite (withSpec_same o (NC_Spec t) Hspec).
  rewrite <- (map_id store) at 2. apply map_ext_in. intros o' Hin.
  destruct (isObj t o') eqn:Ho'; [symmetry; auto | reflexivity].
Qed.

Lemma fold_storeUpsert_names (P : string -> Prop)
    (nodeCfgs store : list SriovFecNodeConfig) :
  (forall o, In o store -> P (GetName o)) ->
  (forall t, In t nodeCfgs -> P (GetName t)) ->
  forall o, In o (fold_left (fun st t => storeUpsert t st) nodeCfgs store) ->
            P (GetName o).
Proof.
  revert store. induction nodeCfgs as [|t rest IH]; intros store Hstore Hts.
  - exact Hstore.
  - cbn [fold_left]. apply IH.
    + apply storeUpsert_names; [exact Hstore | apply Hts; left; reflexivity].
    + intros t' Ht'. apply Hts. right. exact Ht'.
Qed.

Lemma fold_storeUpsert_settled (nodeCfgs store : list SriovFecNodeConfig)
    (done : SriovFecNodeConfig -> Prop) :
  List.NoDup (map GetName nodeCfgs) ->
  (forall d, done d -> settled d store /\ ~ In (GetName d) (map GetName nodeCfgs)) ->
  forall t, done t \/ In t nodeCfgs ->
            settled t (fold_left (fun st t => storeUpsert t st) nodeCfgs store).
Proof.
  revert store done. induction nodeCfgs as [|t0 rest IH];
    intros store done Hnodup Hdone t Ht.
  - cbn. destruct Ht as [Ht|[]]. apply Hdone. exact Ht.
  - cbn [fold_left]. cbn [map] in Hnodup. apply List.NoDup_cons_iff in Hnodup as [Hfresh Hnodup].
    apply (IH (storeUpsert t0 store) (fun d => done d \/ d = t0) Hnodup).
    + intros d [Hd| ->].
      * destruct (Hdone d Hd) as [Hset Hnot]. split.
        -- apply storeUpsert_keeps_settled; [|exact Hset].
           intros Heq. apply Hnot. left. symmetry. exact Heq.
        -- intros Hin. apply Hnot. right. exact Hin.
      * split; [apply storeUpsert_settles | exact Hfresh].
    + destruct Ht as [Ht|[<-|Ht]]; auto.
Qed.

Lemma fold_storeUpsert_id (nodeCfgs store : list SriovFecNodeConfig) :
  (forall t, In t nodeCfgs -> settled t store) ->
  fold_left (fun st t => storeUpsert t st) nodeCfgs store = store.
Proof.
  induction nodeCfgs as [|t rest IH]; intros Hall; [reflexivity|].
  cbn [fold_left]. rewrite storeUpsert_settled_id by (apply Hall; left; reflexivity).
  apply IH. intros t' Ht'. apply Hall. right. exact Ht'.
Qed.

Lemma keepNamed_names (nodeCfgs store : list SriovFecNodeConfig) :
  forall o, In o (keepNamed nodeCfgs store) ->
            In (GetName o) (map GetName nodeCfgs).
Proof.
  intros o Ho. apply filter_In in Ho as [_ Hkeep].
  destruct (deleteNC o nodeCfgs) eqn:Hdel; [discriminate|].
  destruct (in_dec string_dec (GetName o) (map GetName nodeCfgs)) as [Hin|Hout];
    [exact Hin|].
  apply ControllersProofs.deleteNC_absent in Hout. congruence.
Qed.

Lemma synced_names (nodeCfgs store : list SriovFecNodeConfig) :
  forall o, In o (synced nodeCfgs store) -> In (GetName o) (map GetName nodeCfgs).
Proof.
  unfold synced.
  apply (fold_storeUpsert_names (fun name => In name (map GetName nodeCfgs))).
  - apply keepNamed_names.
  - intros t Ht. apply in_map. exact Ht.
Qed.

Lemma synced_settled (nodeCfgs store : list SriovFecNodeConfig) :
  List.NoDup (map GetName nodeCfgs) ->
  forall t, In t nodeCfgs -> settled t (synced nodeCfgs store).
Proof.
  intros Hnodup t Ht. unfold synced.
  apply (fold_storeUpsert_settled nodeCfgs _ (fun _ => False) Hnodup).
  - intros d [].
  - right. exact Ht.
Qed.

Lemma keepNamed_id (nodeCfgs store : list SriovFecNodeConfig) :
  (forall o, In o store -> In (GetName o) (map GetName nodeCfgs)) ->
  keepNamed nodeCfgs store = store /\ stale nodeCfgs store = [].
Proof.
  intros Hall. unfold keepNamed, stale.
  induction store as [|o rest IH]; [auto|].
  assert (Hkeep : deleteNC o nodeCfgs = false).
  { destruct (deleteNC o nodeCfgs) eqn:Hdel; [|reflexivity].
    apply ControllersProofs.deleteNC_absent in Hdel.
    exfalso. apply Hdel, Hall. left. reflexivity. }
  destruct IH as [IH1 IH2]; [intros o' Ho'; apply Hall; right; exact Ho'|].
  cbn. rewrite Hkeep. cbn. rewrite IH1, IH2. auto.
Qed.

(** *** Creating or updating one object *)

(** X10.  With no fault injected and an object of the target's key stored,
    [updateOrCreateNodeConfig] makes a get and an update and no create; the
    updated object has the target's spec and the stored object's metadata,
    type and status; the store keeps its length and every object of another
    key. *)
Theorem update_keeps_status (nodeCfg prev : SriovFecNodeConfig) (w : World) :
  faults w = [] ->
  findNodeConfig (nodeConfigKey nodeCfg) (nodeConfigs w) = Some prev ->
  exists updated,
    fst (updateOrCreateNodeConfig nodeCfg w) = None /\
    calls (snd (updateOrCreateNodeConfig nodeCfg w)) =
      calls w ++ [(GetNodeConfigCall (nodeConfigKey nodeCfg), None);
                  (UpdateCall updated, None)] /\
    In updated (nodeConfigs (snd (updateOrCreateNodeConfig nodeCfg w))) /\
    NC_Spec updated = NC_Spec nodeCfg /\
    NC_ObjectMeta updated = NC_ObjectMeta prev /\
    NC_TypeMeta updated = NC_TypeMeta prev /\
    NC_Status updated = NC_Status prev /\
    length (nodeConfigs (snd (updateOrCreateNodeConfig nodeCfg w))) =
      length (nodeConfigs w) /\
    forall o, In o (nodeConfigs w) -> isObj nodeCfg o = false ->
              In o (nodeConfigs (snd (updateOrCreateNodeConfig nodeCfg w))).
Proof.
  intros Hq Hfind.
  destruct (updateOrCreateNodeConfig_quiet nodeCfg w Hq) as (Hr & _ & Hst & Hcalls).
  rewrite Hfind in Hcalls.
  destruct (storeUpsert_found nodeCfg prev _ Hfind) as [Hobj Heq].
  rewrite Heq in Hst. exists (withSpec (NC_Spec nodeCfg) prev).
  rewrite Hst. repeat split; try assumption.
  - apply findNodeConfig_Some in Hfind as (Hin & _ & _).
    apply in_map_iff. exists prev. rewrite Hobj. auto.
  - apply length_map.
  - intros o Hin Ho. apply in_map_iff. exists o. rewrite Ho. auto.
Qed.

(** X11.  With no fault injected and no object of the target's key stored,
    [updateOrCreateNodeConfig] makes a get, which reports NotFound, and a
    create; the store is the one before with the target appended. *)
Theorem create_when_missing (nodeCfg : SriovFecNodeConfig) (w : World) :
  faults w = [] ->
  findNodeConfig (nodeConfigKey nodeCfg) (nodeConfigs w) = None ->
  fst (updateOrCreateNodeConfig nodeCfg w) = None /\
  calls (snd (updateOrCreateNodeConfig nodeCfg w)) =
    calls w ++ [(GetNodeConfigCall (nodeConfigKey nodeCfg), Some (StatusError NotFound));
                (CreateCall nodeCfg, None)] /\
  nodeConfigs (snd (updateOrCreateNodeConfig nodeCfg w)) = nodeConfigs w ++ [nodeCfg].
Proof.
  intros Hq Hfind.
  destruct (updateOrCreateNodeConfig_quiet nodeCfg w Hq) as (Hr & _ & Hst & Hcalls).
  rewrite Hfind in Hcalls. unfold storeUpsert in Hst. rewrite Hfind in Hst. auto.
Qed.

(** X12.  When the get of [updateOrCreateNodeConfig] fails with an error
    other than NotFound, that error is returned, the get is the only call,
    and the store is as before: nothing is created or updated. *)
Theorem get_failure_aborts_upsert (nodeCfg : SriovFecNodeConfig) (w : World)
    (e : error) (rest : list (option error)) :
  faults w = Some e :: rest ->
  IsNotFound e = false ->
  fst (updateOrCreateNodeConfig nodeCfg w) = Some e /\
  calls (snd (updateOrCreateNodeConfig nodeCfg w)) =
    calls w ++ [(GetNodeConfigCall (nodeConfigKey nodeCfg), Some e)] /\
  nodeConfigs (snd (updateOrCreateNodeConfig nodeCfg w)) = nodeConfigs w.
Proof.
  intros Hf Hnf. unfold updateOrCreateNodeConfig, bind, Get_NodeConfig, nextFault.
  rewrite Hf. cbn [fst snd]. rewrite Hnf. cbn. auto.
Qed.

(** X13.  When the list call of [removeOldNodeConfigs] fails, nothing is
    deleted and the list call is the only call; the error is returned,
    except NotFound, on which the function returns nil. *)
Theorem list_failure_deletes_nothing (newNodeCfgs : list SriovFecNodeConfig)
    (w : World) (e : error) (rest : list (option error)) :
  faults w = Some e :: rest ->
  fst (removeOldNodeConfigs newNodeCfgs w) =
    (if IsNotFound e then None else Some e) /\
  calls (snd (removeOldNodeConfigs newNodeCfgs w)) =
    calls w ++ [(ListNodeConfigsCall, Some e)] /\
  nodeConfigs (snd (removeOldNodeConfigs newNodeCfgs w)) = nodeConfigs w.
Proof.
  intros Hf. unfold removeOldNodeConfigs, bind, List_NodeConfigs, nextFault.
  rewrite Hf. cbn [fst snd]. destruct (IsNotFound e); cbn; auto.
Qed.

(** *** Convergence *)

(** X14.  After a synchronisation that succeeded with no fault injected,
    every stored node configuration has the name of a target object; and
    when the target names are distinct, every target object is stored under
    its namespace and name with its spec. *)
Theorem sync_converges (nodeCfgs : list SriovFecNodeConfig) (w : World) :
  faults w = [] ->
  fst (syncNodeConfigs nodeCfgs w) = None ->
  (forall o, In o (nodeConfigs (snd (syncNodeConfigs nodeCfgs w))) ->
             In (GetName o) (map GetName nodeCfgs)) /\
  (List.NoDup (map GetName nodeCfgs) ->
   forall t, In t nodeCfgs ->
     exists o, In o (nodeConfigs (snd (syncNodeConfigs nodeCfgs w))) /\
               GetNamespace o = GetNamespace t /\
               GetName o = GetName t /\
               NC_Spec o = NC_Spec t).
Proof.
  intros Hq Hres.
  destruct (syncNodeConfigs_quiet nodeCfgs w Hq Hres) as [_ Hst]. rewrite Hst.
  split; [apply synced_names|].
  intros Hnodup t Ht.
  destruct (synced_settled nodeCfgs (nodeConfigs w) Hnodup t Ht)
    as (o & Hfind & Hspec & _).
  apply findNodeConfig_Some in Hfind as (Hin & Hns & Hname).
  exists o. auto.
Qed.

Lemma updateOrCreateEach_settled (nodeCfgs : list SriovFecNodeConfig) (w : World) :
  faults w = [] ->
  (forall t, In t nodeCfgs -> settled t (nodeConfigs w)) ->
  fst (updateOrCreateEach nodeCfgs w) = None /\
  nodeConfigs (snd (updateOrCreateEach nodeCfgs w)) = nodeConfigs w /\
  exists ups,
    calls (snd (updateOrCreateEach nodeCfgs w)) = calls w ++ ups /\
    List.Forall isQuietRefresh ups.
Proof.
  revert w. induction nodeCfgs as [|t rest IH]; intros w Hq Hall.
  - cbn. repeat split. exists []. rewrite app_nil_r. auto.
  - cbn [updateOrCreateEach]. unfold bind.
    destruct (updateOrCreateNodeConfig_quiet t w Hq) as (Hr & Hq1 & Hst & Hcalls).
    assert (Hset : settled t (nodeConfigs w)) by (apply Hall; left; reflexivity).
    rewrite (storeUpsert_settled_id t _ Hset) in Hst.
    destruct Hset as (o & Hfind & _). rewrite Hfind in Hcalls.
    destruct (updateOrCreateNodeConfig t w) as [r w1]. cbn [fst snd] in *. subst r.
    destruct (IH w1 Hq1) as (Hr2 & Hst2 & ups & Hc2 & Hups).
    { intros t' Ht'. rewrite Hst. apply Hall. right. exact Ht'. }
    split; [exact Hr2 | split; [congruence|]].
    eexists. split.
    + rewrite Hc2, Hcalls, <- app_assoc. reflexivity.
    + apply List.Forall_app. split; [|exact Hups].
      repeat constructor.
Qed.

(** X15.  Synchronisation is idempotent.  After a synchronisation to
    distinctly named targets that succeeded with no fault injected, a second
    synchronisation to the same targets succeeds, leaves the store exactly
    as it is, and makes no delete and no create call: after the list call,
    its calls are successful gets and updates only. *)
Theorem sync_idempotent (nodeCfgs : list SriovFecNodeConfig) (w : World) :
  faults w = [] ->
  fst (syncNodeConfigs nodeCfgs w) = None ->
  List.NoDup (map GetName nodeCfgs) ->
  let w1 := snd (syncNodeConfigs nodeCfgs w) in
  fst (syncNodeConfigs nodeCfgs w1) = None /\
  nodeConfigs (snd (syncNodeConfigs nodeCfgs w1)) = nodeConfigs w1 /\
  exists ups,
    calls (snd (syncNodeConfigs nodeCfgs w1)) =
      calls w1 ++ (ListNodeConfigsCall, None) :: ups /\
    List.Forall isQuietRefresh ups.
Proof.
  intros Hq Hres Hnodup w1.
  destruct (syncNodeConfigs_quiet nodeCfgs w Hq Hres) as [Hq1 Hst1].
  fold w1 in Hq1, Hst1.
  assert (Hnames : forall o, In o (nodeConfigs w1) ->
                             In (GetName o) (map GetName nodeCfgs))
    by (rewrite Hst1; apply synced_names).
  assert (Hsettled : forall t, In t nodeCfgs -> settled t (nodeConfigs w1))
    by (rewrite Hst1; apply synced_settled; exact Hnodup).
  destruct (keepNamed_id nodeCfgs (nodeConfigs w1) Hnames) as [_ Hstale].
  unfold syncNodeConfigs, removeOldNodeConfigs. unfold bind at 1 2 3 4 5 6.
  rewrite (List_NodeConfigs_quiet w1 Hq1).
  rewrite (removeEach_nothing_stale nodeCfgs (nodeConfigs w1) _ Hstale).
  destruct (updateOrCreateEach_settled nodeCfgs
              (record ListNodeConfigsCall None w1))
    as (Hr & Hst & ups & Hcalls & Hups);
    [apply record_quiet; exact Hq1 | exact Hsettled |].
  split; [exact Hr | split; [exact Hst|]].
  exists ups. split; [|exact Hups].
  rewrite Hcalls. cbn [calls record]. rewrite <- app_assoc. reflexivity.
Qed.

(** *** The validation loop *)

Lemma firstInvalidNode_range (idx found : Z) (specNodes : list NodeConfig) :
  firstInvalidNode idx specNodes = Some found ->
  exists before nodeConfig after,
    specNodes = before ++ nodeConfig :: after /\
    found = idx + Go.len before /\
    forallb cardCountValid before = true /\
    cardCountValid nodeConfig = false.
Proof.
  revert idx. induction specNodes as [|n rest IH]; intros idx Hfound; [discriminate|].
  cbn [firstInvalidNode] in Hfound.
  destruct (OneCardConfigForAll n && negb (Go.len (Cards n) =? 1)) eqn:Hbad.
  - injection Hfound as <-. exists [], n, rest. cbn.
    repeat split; [unfold Go.len; cbn; lia|].
    unfold cardCountValid. apply andb_prop in Hbad as [-> Hlen].
    cbn. apply negb_true_iff in Hlen. exact Hlen.
  - destruct (IH (idx + 1) Hfound) as (before & bad & after & -> & -> & Hok & Hbadn).
    exists (n :: before), bad, after. cbn [app forallb].
    repeat split; [unfold Go.len; cbn [length]; lia | | exact Hbadn].
    rewrite Hok, andb_true_r. unfold cardCountValid.
    destruct (OneCardConfigForAll n); [|reflexivity].
    cbn in Hbad |- *. apply negb_false_iff in Hbad. exact Hbad.
Qed.

Lemma firstInvalidNode_None (idx : Z) (specNodes : list NodeConfig) :
  firstInvalidNode idx specNodes = None <->
  forallb cardCountValid specNodes = true.
Proof.
  revert idx. induction specNodes as [|n rest IH]; intros idx; [cbn; tauto|].
  cbn [firstInvalidNode forallb]. unfold cardCountValid at 1.
  destruct (OneCardConfigForAll n); cbn [negb andb orb].
  - destruct (Go.len (Cards n) =? 1); cbn [negb]; [apply IH|].
    split; discriminate.
  - apply IH.
Qed.

(** X16.  The validation loop of [Reconcile] reports the position of the
    first node entry that asks for one card configuration for all cards
    without carrying exactly one: every entry before it passes the check,
    and it reports none exactly when every entry passes. *)
Theorem firstInvalidNode_first (specNodes : list NodeConfig) :
  match firstInvalidNode 0 specNodes with
  | Some idx =>
      exists before nodeConfig after,
        specNodes = before ++ nodeConfig :: after /\
        idx = Go.len before /\
        forallb cardCountValid before = true /\
        OneCardConfigForAll nodeConfig = true /\
        length (Cards nodeConfig) <> 1%nat
  | None => forallb cardCountValid specNodes = true
  end.
Proof.
  destruct (firstInvalidNode 0 specNodes) as [idx|] eqn:Hfirst.
  - destruct (firstInvalidNode_range 0 idx specNodes Hfirst)
      as (before & bad & after & Heq & Hidx & Hok & Hbad).
    exists before, bad, after. repeat split; try assumption.
    + unfold cardCountValid in Hbad. destruct (OneCardConfigForAll bad);
        [reflexivity | discriminate].
    + unfold cardCountValid, Go.len in Hbad.
      apply orb_false_iff in Hbad as [_ Hlen]. apply Z.eqb_neq in Hlen. lia.
  - apply (firstInvalidNode_None 0). exact Hfirst.
Qed.

(** *** The early exits of a pass *)

Lemma updateStatus_world (clusterConfig : SriovFecClusterConfig)
    (status reason : string) (w : World) :
  nodeConfigs (snd (updateStatus clusterConfig status reason w)) = nodeConfigs w /\
  exists outcome,
    calls (snd (updateStatus clusterConfig status reason w)) =
      calls w ++ [(StatusUpdateCall
                     (withStatus (statusOf status reason) clusterConfig), outcome)].
Proof.
  split; [|apply ControllersProofs.updateStatus_calls].
  unfold updateStatus, bind, Status_Update.
  destruct (fst (nextFault w)); [reflexivity|].
  destruct (findClusterConfig _ _); reflexivity.
Qed.

Lemma Get_ClusterConfig_world (key : NamespacedName) (w : World) :
  NAMESPACE (snd (Get_ClusterConfig key w)) = NAMESPACE w /\
  nodeConfigs (snd (Get_ClusterConfig key w)) = nodeConfigs w /\
  clusterConfigs (snd (Get_ClusterConfig key w)) = clusterConfigs w /\
  nodes (snd (Get_ClusterConfig key w)) = nodes w /\
  faults (snd (Get_ClusterConfig key w)) = snd (nextFault w) /\
  calls (snd (Get_ClusterConfig key w)) =
    calls w ++ [(GetClusterConfigCall key,
                 outcomeOf (fst (Get_ClusterConfig key w)))].
Proof.
  unfold Get_ClusterConfig. destruct (fst (nextFault w)); [repeat split|].
  destruct (findClusterConfig _ _); repeat split.
Qed.

Lemma len_one {A} (l : list A) :
  (Go.len l =? 1) = match l with [_] => true | _ => false end.
Proof.
  destruct l as [|a [|b rest]]; try reflexivity.
  apply Z.eqb_neq. unfold Go.len. cbn [length]. lia.
Qed.

(** The three ways a pass goes on once the cluster configuration is
    loaded. *)
Lemma Reconcile_loaded (req : Request) (w : World)
    (clusterConfig : SriovFecClusterConfig) :
  fst (Get_ClusterConfig (Req_NamespacedName req) w) = inr clusterConfig ->
  let w1 := snd (Get_ClusterConfig (Req_NamespacedName req) w) in
  (honoured req w = false /\
   Reconcile req w =
     (updateStatus clusterConfig "Ignored" (ignoredMessage w) ;;;
      ret (Some (emptyResult, None))) w1) \/
  (honoured req w = true /\
   structurallyValid (CC_Spec clusterConfig) = false /\
   exists reason,
     Reconcile req w =
       (updateStatus clusterConfig "InvalidConfig" reason ;;;
        ret (Some (emptyResult, None))) w1) \/
  (honoured req w = true /\
   structurallyValid (CC_Spec clusterConfig) = true /\
   firstInvalidNode 0 (Nodes (CC_Spec clusterConfig)) = None /\
   (OneNodeConfigForAll (CC_Spec clusterConfig) = true ->
    Nodes (CC_Spec clusterConfig) <> []) /\
   Reconcile req w = reconcileNodes clusterConfig w1).
Proof.
  intros Hget w1.
  destruct (Get_ClusterConfig_world (Req_NamespacedName req) w) as (Hns & _).
  fold w1 in Hns.
  assert (Hnodes : forall w0,
    (structurallyValid (CC_Spec clusterConfig) = false ->
     uniformValid (CC_Spec clusterConfig) = true ->
     exists reason,
       reconcileNodes clusterConfig w0 =
       (updateStatus clusterConfig "InvalidConfig" reason ;;;
        ret (Some (emptyResult, None))) w0) /\
    (structurallyValid (CC_Spec clusterConfig) = true ->
     firstInvalidNode 0 (Nodes (CC_Spec clusterConfig)) = None)).
  { intros w0. unfold structurallyValid. split.
    - intros Hinv Hu. rewrite Hu in Hinv. cbn [andb] in Hinv.
      unfold reconcileNodes.
      destruct (firstInvalidNode 0 (Nodes (CC_Spec clusterConfig))) as [idx|] eqn:Hf.
      + eexists. reflexivity.
      + apply firstInvalidNode_None in Hf. congruence.
    - intros Hv. apply andb_prop in Hv as [_ Hv].
      apply (firstInvalidNode_None 0). exact Hv. }
  destruct (Reconcile req w) as [r w'] eqn:Hrun.
  unfold Reconcile in Hrun. unfold bind at 1 in Hrun.
  destruct (Get_ClusterConfig (Req_NamespacedName req) w) as [res w1'].
  cbn [fst snd] in Hget, w1. subst res w1.
  unfold bind at 1 in Hrun. cbn [getNAMESPACE] in Hrun. rewrite Hns in Hrun.
  rewrite <- negb_andb in Hrun. fold (honoured req w) in Hrun.
  destruct (honoured req w); cbn [negb] in Hrun;
    [|left; split; [reflexivity | symmetry; exact Hrun]].
  right. cbv zeta in Hrun. unfold structurallyValid, uniformValid in *.
  destruct (OneNodeConfigForAll (CC_Spec clusterConfig));
    cbn [negb orb andb] in *.
  - rewrite len_one in Hrun.
    destruct (Nodes (CC_Spec clusterConfig)) as [|first [|second others]] eqn:Hn;
      cbn [negb andb] in *.
    + left. repeat split. eexists. symmetry. exact Hrun.
    + destruct (OneCardConfigForAll first); cbn [negb andb] in *.
      * destruct (forallb cardCountValid [first]) eqn:Hv.
        -- right. split; [reflexivity|]. split; [reflexivity|].
           split; [apply (proj2 (Hnodes w)); reflexivity|].
           split; [intros _; discriminate | symmetry; exact Hrun].
        -- left. split; [reflexivity|]. split; [reflexivity|].
           rewrite <- Hrun. apply (proj1 (Hnodes w1')); reflexivity.
      * left. repeat split. eexists. symmetry. exact Hrun.
    + left. repeat split. eexists. symmetry. exact Hrun.
  - destruct (forallb cardCountValid (Nodes (CC_Spec clusterConfig))) eqn:Hv.
    + right. split; [reflexivity|]. split; [reflexivity|].
      split; [apply (proj2 (Hnodes w)); reflexivity|].
      split; [discriminate | symmetry; exact Hrun].
    + left. split; [reflexivity|]. split; [reflexivity|].
      rewrite <- Hrun. apply (proj1 (Hnodes w1')); reflexivity.
Qed.

(** X17.  A pass for a request whose cluster configuration is not stored
    is a no-op: with no fault injected it makes the one get, returns no
    error, and leaves the stored node and cluster configurations as they
    are. *)
Theorem reconcile_absent_noop (req : Request) (w : World) :
  faults w = [] ->
  findClusterConfig (Req_NamespacedName req) (clusterConfigs w) = None ->
  fst (Reconcile req w) = Some (emptyResult, None) /\
  calls (snd (Reconcile req w)) =
    calls w ++ [(GetClusterConfigCall (Req_NamespacedName req),
                 Some (StatusError NotFound))] /\
  nodeConfigs (snd (Reconcile req w)) = nodeConfigs w /\
  clusterConfigs (snd (Reconcile req w)) = clusterConfigs w.
Proof.
  intros Hq Habsent. unfold Reconcile, bind, Get_ClusterConfig.
  rewrite (quiet_nextFault w Hq). cbn [fst]. rewrite Habsent. cbn. auto.
Qed.

(** X18.  A pass for a cluster configuration other than the honoured one
    (name "config" in the namespace of the operator) only writes the status
    Ignored with its message: it returns no error, makes the get and the
    status write and no other call, and leaves the node configurations as
    they are. *)
Theorem reconcile_ignored (req : Request) (w : World)
    (clusterConfig : SriovFecClusterConfig) :
  fst (Get_ClusterConfig (Req_NamespacedName req) w) = inr clusterConfig ->
  honoured req w = false ->
  fst (Reconcile req w) = Some (emptyResult, None) /\
  nodeConfigs (snd (Reconcile req w)) = nodeConfigs w /\
  exists outcome,
    calls (snd (Reconcile req w)) =
      calls w ++
      [(GetClusterConfigCall (Req_NamespacedName req), None);
       (StatusUpdateCall
          (withStatus (statusOf "Ignored" (ignoredMessage w)) clusterConfig),
        outcome)].
Proof.
  intros Hget Hhon.
  destruct (Get_ClusterConfig_world (Req_NamespacedName req) w)
    as (_ & Hnc & _ & _ & _ & Hcalls). rewrite Hget in Hcalls.
  destruct (Reconcile_loaded req w clusterConfig Hget)
    as [[_ Heq]|[(Hh & _)|(Hh & _)]]; try congruence.
  rewrite Heq, ControllersProofs.updateStatus_then_ret. cbn [fst snd].
  destruct (updateStatus_world clusterConfig "Ignored" (ignoredMessage w)
              (snd (Get_ClusterConfig (Req_NamespacedName req) w)))
    as (Hst & o & Hc).
  split; [reflexivity | split; [congruence|]].
  exists o. rewrite Hc, Hcalls, <- app_assoc. reflexivity.
Qed.

(** X19.  A pass for the honoured cluster configuration that fails the
    structural checks (uniform mode without exactly one node entry, or with
    an entry whose [OneCardConfigForAll] is false; an entry with
    [OneCardConfigForAll] and not exactly one card) only writes the status
    InvalidConfig: it returns no error, does not query the inventory, and
    makes no call about node configurations. *)
Theorem reconcile_invalid_config (req : Request) (w : World)
    (clusterConfig : SriovFecClusterConfig) :
  fst (Get_ClusterConfig (Req_NamespacedName req) w) = inr clusterConfig ->
  honoured req w = true ->
  structurallyValid (CC_Spec clusterConfig) = false ->
  fst (Reconcile req w) = Some (emptyResult, None) /\
  nodeConfigs (snd (Reconcile req w)) = nodeConfigs w /\
  exists reason outcome,
    calls (snd (Reconcile req w)) =
      calls w ++
      [(GetClusterConfigCall (Req_NamespacedName req), None);
       (StatusUpdateCall
          (withStatus (statusOf "InvalidConfig" reason) clusterConfig), outcome)].
Proof.
  intros Hget Hhon Hinv.
  destruct (Get_ClusterConfig_world (Req_NamespacedName req) w)
    as (_ & Hnc & _ & _ & _ & Hcalls). rewrite Hget in Hcalls.
  destruct (Reconcile_loaded req w clusterConfig Hget)
    as [[Hh _]|[(_ & _ & reason & Heq)|(_ & Hv & _)]]; try congruence.
  rewrite Heq, ControllersProofs.updateStatus_then_ret. cbn [fst snd].
  destruct (updateStatus_world clusterConfig "InvalidConfig" reason
              (snd (Get_ClusterConfig (Req_NamespacedName req) w)))
    as (Hst & o & Hc).
  split; [reflexivity | split; [congruence|]].
  exists reason, o. rewrite Hc, Hcalls, <- app_assoc. reflexivity.
Qed.

(** *** The inventory query *)

Lemma Get_ClusterConfig_found (key : NamespacedName) (w : World)
    (clusterConfig : SriovFecClusterConfig) (rest : list (option error)) :
  faults w = [] \/ faults w = None :: rest ->
  findClusterConfig key (clusterConfigs w) = Some clusterConfig ->
  Get_ClusterConfig key w =
  (inr clusterConfig, record (GetClusterConfigCall key) None w).
Proof.
  intros Hf Hfind. unfold Get_ClusterConfig, nextFault.
  destruct Hf as [-> | ->]; cbn [fst]; rewrite Hfind; reflexivity.
Qed.

(** X20.  When the inventory query of a pass for the honoured, structurally
    valid cluster configuration fails, the pass returns the query's error,
    writes the status NfdFailure as its last call, and makes no call about
    node configurations. *)
Theorem reconcile_nfd_failure (req : Request) (w : World)
    (clusterConfig : SriovFecClusterConfig) (e : error)
    (rest : list (option error)) :
  faults w = None :: Some e :: rest ->
  findClusterConfig (Req_NamespacedName req) (clusterConfigs w) = Some clusterConfig ->
  honoured req w = true ->
  structurallyValid (CC_Spec clusterConfig) = true ->
  fst (Reconcile req w) = Some (emptyResult, Some e) /\
  nodeConfigs (snd (Reconcile req w)) = nodeConfigs w /\
  exists outcome,
    calls (snd (Reconcile req w)) =
      calls w ++
      [(GetClusterConfigCall (Req_NamespacedName req), None);
       (ListNodesCall intelAcceleratorLabels, Some e);
       (StatusUpdateCall
          (withStatus
             (statusOf "NfdFailure"
                "failed to obtain nodes with Intel accelerator - check logs")
             clusterConfig), outcome)].
Proof.
  intros Hf Hfind Hhon Hvalid.
  pose proof (Get_ClusterConfig_found _ w clusterConfig (Some e :: rest)
                (or_intror Hf) Hfind) as Hget.
  destruct (Reconcile_loaded req w clusterConfig) as [[Hh _]|[(_ & Hv & _)|Hok]];
    [rewrite Hget; reflexivity | congruence | congruence |].
  destruct Hok as (_ & _ & Hfirst & _ & Heq).
  rewrite Heq, Hget. cbn [snd].
  destruct (reconcileNodes clusterConfig
              (record (GetClusterConfigCall (Req_NamespacedName req)) None w))
    as [r w'] eqn:Hrun. cbn [fst snd].
  unfold reconcileNodes in Hrun. rewrite Hfirst in Hrun.
  unfold bind at 1 in Hrun.
  unfold getNodesWithIntelAccelerator, bind at 1 in Hrun.
  unfold List_Nodes, nextFault in Hrun. cbn [record faults snd fst] in Hrun.
  unfold nextFault in Hrun. rewrite Hf in Hrun. cbn [snd fst ret] in Hrun.
  rewrite ControllersProofs.updateStatus_then_ret in Hrun.
  injection Hrun as <- <-.
  match goal with
  | |- context [updateStatus clusterConfig ?s ?r ?w0] =>
      destruct (updateStatus_world clusterConfig s r w0) as (Hst & o & Hc)
  end.
  split; [reflexivity | split; [rewrite Hst; reflexivity|]].
  exists o. rewrite Hc. cbn [calls record]. rewrite <- !app_assoc. reflexivity.
Qed.

(** *** One status write per pass *)

Lemma reconcileNodes_status_last (clusterConfig : SriovFecClusterConfig)
    (w : World) :
  (OneNodeConfigForAll (CC_Spec clusterConfig) = true ->
   Nodes (CC_Spec clusterConfig) <> []) ->
  exists d0 status outcome,
    calls (snd (reconcileNodes clusterConfig w)) =
      calls w ++ d0 ++ [(StatusUpdateCall (withStatus status clusterConfig), outcome)] /\
    List.Forall (fun x => isStatusCall (fst x) = false) d0.
Proof.
  intros Hone.
  destruct (reconcileNodes clusterConfig w) as [res w'] eqn:Hrun. cbn [snd].
  unfold reconcileNodes in Hrun.
  destruct (firstInvalidNode 0 (Nodes (CC_Spec clusterConfig))) as [idx|].
  { rewrite ControllersProofs.updateStatus_then_ret in Hrun.
    injection Hrun as <- <-.
    match goal with
    | |- context [updateStatus clusterConfig ?s ?r w] =>
        destruct (updateStatus_world clusterConfig s r w) as (_ & o & Hc)
    end.
    exists []. eexists. exists o. split; [exact Hc | constructor]. }
  unfold bind at 1 in Hrun. unfold getNodesWithIntelAccelerator, bind at 1 in Hrun.
  pose proof (ControllersProofs.List_Nodes_calls intelAcceleratorLabels w) as Hlist.
  destruct (List_Nodes intelAcceleratorLabels w) as [[err|nodeList] w1];
    cbn [fst snd ret outcomeOf] in *.
  { rewrite ControllersProofs.updateStatus_then_ret in Hrun.
    injection Hrun as <- <-.
    match goal with
    | |- context [updateStatus clusterConfig ?s ?r w1] =>
        destruct (updateStatus_world clusterConfig s r w1) as (_ & o & Hc)
    end.
    eexists [_]. eexists. exists o. split.
    - rewrite Hc, Hlist, <- app_assoc. reflexivity.
    - repeat constructor. }
  destruct (renderNodeConfigs clusterConfig nodeList) as [nodeConfigs|] eqn:Hrender.
  2: { apply ControllersProofs.renderNodeConfigs_panics in Hrender as [Hu Hnil].
       exfalso. apply (Hone Hu Hnil). }
  unfold bind at 1 in Hrun.
  destruct (ControllersProofs.syncNodeConfigs_trace nodeConfigs w1)
    as (lo & dels & ups & Hsync & Hdels & Hups & _).
  destruct (syncNodeConfigs nodeConfigs w1) as [r w2]. cbn [fst snd] in *.
  assert (Hquiet : List.Forall (fun x => isStatusCall (fst x) = false)
                     ((ListNodesCall intelAcceleratorLabels, @None error)
                      :: (ListNodeConfigsCall, lo) :: dels ++ ups)).
  { constructor; [reflexivity|]. constructor; [reflexivity|].
    apply List.Forall_app. split.
    - eapply List.Forall_impl; [|exact Hdels].
      intros x (nc & Hx & _). rewrite Hx. reflexivity.
    - eapply List.Forall_impl; [|exact Hups].
      intros [c o] Hc. cbn in *. destruct c; try discriminate; reflexivity. }
  destruct r as [e0|]; rewrite ControllersProofs.updateStatus_then_ret in Hrun;
    injection Hrun as <- <-;
    match goal with
    | |- context [updateStatus clusterConfig ?s ?r w2] =>
        destruct (updateStatus_world clusterConfig s r w2) as (_ & o & Hc)
    end;
    eexists; eexists; exists o; (split; [|exact Hquiet]);
    rewrite Hc, Hsync, Hlist, <- !app_assoc; reflexivity.
Qed.

(** X21.  A pass writes the status of the cluster configuration at most
    once, and only as its last call: when the cluster configuration cannot
    be loaded the get is the only call of the pass; when it is loaded, the
    calls of the pass end with one status write, for that cluster
    configuration, and no call before it is a status write. *)
Theorem status_written_once_last (req : Request) (w : World) :
  match fst (Get_ClusterConfig (Req_NamespacedName req) w) with
  | inl e =>
      calls (snd (Reconcile req w)) =
        calls w ++ [(GetClusterConfigCall (Req_NamespacedName req), Some e)]
  | inr clusterConfig =>
      exists d0 status outcome,
        calls (snd (Reconcile req w)) =
          calls w ++ d0
          ++ [(StatusUpdateCall (withStatus status clusterConfig), outcome)] /\
        List.Forall (fun x => isStatusCall (fst x) = false) d0
  end.
Proof.
  destruct (Get_ClusterConfig_world (Req_NamespacedName req) w)
    as (_ & _ & _ & _ & _ & Hcalls).
  destruct (fst (Get_ClusterConfig (Req_NamespacedName req) w))
    as [e|clusterConfig] eqn:Hget.
  - unfold Reconcile, bind.
    destruct (Get_ClusterConfig (Req_NamespacedName req) w) as [res w1].
    cbn [fst snd] in *. subst res. destruct (IsNotFound e); exact Hcalls.
  - cbn [outcomeOf] in Hcalls.
    destruct (Reconcile_loaded req w clusterConfig Hget)
      as [[_ Heq]|[(_ & _ & reason & Heq)|(_ & _ & _ & Hone & Heq)]];
      rewrite Heq.
    + rewrite ControllersProofs.updateStatus_then_ret. cbn [snd].
      match goal with
      | |- context [updateStatus clusterConfig ?s ?r ?w0] =>
          destruct (updateStatus_world clusterConfig s r w0) as (_ & o & Hc)
      end.
      eexists [_]. eexists. exists o. split.
      * rewrite Hc, Hcalls, <- app_assoc. reflexivity.
      * repeat constructor.
    + rewrite ControllersProofs.updateStatus_then_ret. cbn [snd].
      match goal with
      | |- context [updateStatus clusterConfig ?s ?r ?w0] =>
          destruct (updateStatus_world clusterConfig s r w0) as (_ & o & Hc)
      end.
      eexists [_]. eexists. exists o. split.
      * rewrite Hc, Hcalls, <- app_assoc. reflexivity.
      * repeat constructor.
    + destruct (reconcileNodes_status_last clusterConfig
                  (snd (Get_ClusterConfig (Req_NamespacedName req) w)) Hone)
        as (d0 & status & o & Hc & Hd0).
      exists ((GetClusterConfigCall (Req_NamespacedName req), None) :: d0).
      exists status, o. split.
      * rewrite Hc, Hcalls, <- app_assoc. reflexivity.
      * constructor; [reflexivity | exact Hd0].
Qed.

(** *** A whole pass *)

Lemma Delete_clusterConfigs (obj : SriovFecNodeConfig) (w : World) :
  clusterConfigs (snd (Delete obj w)) = clusterConfigs w.
Proof.
  unfold Delete. destruct (fst (nextFault w)); [reflexivity|].
  destruct (findNodeConfig _ _); reflexivity.
Qed.

Lemma removeEach_clusterConfigs (newNodeCfgs items : list SriovFecNodeConfig)
    (w : World) :
  clusterConfigs (snd (removeEach newNodeCfgs items w)) = clusterConfigs w.
Proof.
  revert w. induction items as [|nc rest IH]; intros w; [reflexivity|].
  cbn [removeEach]. destruct (deleteNC nc newNodeCfgs); [|apply IH].
  unfold bind. pose proof (Delete_clusterConfigs nc w) as Hd.
  destruct (Delete nc w) as [[e|] w1]; cbn [fst snd ret] in *; [exact Hd|].
  rewrite IH. exact Hd.
Qed.

Lemma removeOldNodeConfigs_clusterConfigs (newNodeCfgs : list SriovFecNodeConfig)
    (w : World) :
  clusterConfigs (snd (removeOldNodeConfigs newNodeCfgs w)) = clusterConfigs w.
Proof.
  unfold removeOldNodeConfigs, bind, List_NodeConfigs.
  destruct (fst (nextFault w)) as [e|]; cbn [negb].
  - destruct (IsNotFound e); cbn [negb];
      [rewrite removeEach_clusterConfigs|]; reflexivity.
  - rewrite removeEach_clusterConfigs. reflexivity.
Qed.

Lemma Get_NodeConfig_clusterConfigs (key : NamespacedName) (w : World) :
  clusterConfigs (snd (Get_NodeConfig key w)) = clusterConfigs w.
Proof.
  unfold Get_NodeConfig. destruct (fst (nextFault w)); [reflexivity|].
  destruct (findNodeConfig _ _); reflexivity.
Qed.

Lemma Create_clusterConfigs (obj : SriovFecNodeConfig) (w : World) :
  clusterConfigs (snd (Create obj w)) = clusterConfigs w.
Proof.
  unfold Create. destruct (fst (nextFault w)); [reflexivity|].
  destruct (findNodeConfig _ _); reflexivity.
Qed.

Lemma Update_clusterConfigs (obj : SriovFecNodeConfig) (w : World) :
  clusterConfigs (snd (Update obj w)) = clusterConfigs w.
Proof.
  unfold Update. destruct (fst (nextFault w)); [reflexivity|].
  destruct (findNodeConfig _ _); reflexivity.
Qed.

Lemma updateOrCreateNodeConfig_clusterConfigs (nodeCfg : SriovFecNodeConfig)
    (w : World) :
  clusterConfigs (snd (updateOrCreateNodeConfig nodeCfg w)) = clusterConfigs w.
Proof.
  unfold updateOrCreateNodeConfig. unfold bind at 1.
  match goal with
  | |- context [Get_NodeConfig ?key w] =>
      pose proof (Get_NodeConfig_clusterConfigs key w) as Hg;
      destruct (Get_NodeConfig key w) as [[err|prev] w1]
  end; cbn [snd] in Hg.
  - destruct (IsNotFound err); [|exact Hg].
    unfold bind. pose proof (Create_clusterConfigs nodeCfg w1) as Hc.
    destruct (Create nodeCfg w1) as [[e|] w2]; cbn [snd ret] in *; congruence.
  - unfold bind.
    match goal with
    | |- context [Update ?obj w1] =>
        pose proof (Update_clusterConfigs obj w1) as Hu;
        destruct (Update obj w1) as [[e|] w2]
    end; cbn [snd ret] in *; congruence.
Qed.

Lemma updateOrCreateEach_clusterConfigs (nodeCfgs : list SriovFecNodeConfig)
    (w : World) :
  clusterConfigs (snd (updateOrCreateEach nodeCfgs w)) = clusterConfigs w.
Proof.
  revert w. induction nodeCfgs as [|t rest IH]; intros w; [reflexivity|].
  cbn [updateOrCreateEach]. unfold bind.
  pose proof (updateOrCreateNodeConfig_clusterConfigs t w) as Hu.
  destruct (updateOrCreateNodeConfig t w) as [[e|] w1]; cbn [fst snd ret] in *;
    [exact Hu|].
  rewrite IH. exact Hu.
Qed.

(** Synchronisation leaves the stored cluster configurations alone. *)
Lemma syncNodeConfigs_clusterConfigs (nodeCfgs : list SriovFecNodeConfig)
    (w : World) :
  clusterConfigs (snd (syncNodeConfigs nodeCfgs w)) = clusterConfigs w.
Proof.
  unfold syncNodeConfigs, bind.
  pose proof (removeOldNodeConfigs_clusterConfigs nodeCfgs w) as Hr.
  destruct (removeOldNodeConfigs nodeCfgs w) as [[e|] w1]; cbn [fst snd ret] in *;
    [exact Hr|].
  rewrite updateOrCreateEach_clusterConfigs. exact Hr.
Qed.

Lemma Status_Update_quiet (obj : SriovFecClusterConfig) (w : World) :
  faults w = [] ->
  In obj (List.map (withStatus (CC_Status obj)) (clusterConfigs w)) ->
  fst (Status_Update obj w) = None.
Proof.
  intros Hq Hin. unfold Status_Update. rewrite (quiet_nextFault w Hq). cbn [fst].
  destruct (findClusterConfig _ _) eqn:Hfind; [reflexivity|].
  apply in_map_iff in Hin as (stored & Heq & Hstored).
  pose proof (find_none _ _ Hfind stored Hstored) as Hno. cbn in Hno.
  rewrite <- Heq in Hno. cbn in Hno. rewrite sameKey_refl in Hno. discriminate.
Qed.

(** X22.  A pass for the honoured, structurally valid cluster configuration
    that returns no error, on an API server that injects no fault, leaves
    the system converged: the target set is the rendering of the cluster
    configuration over the labelled nodes; every stored node configuration
    has the name of a target; when the target names are distinct every
    target is stored under its namespace and name with its spec; and the
    stored cluster configuration has the status NodeConfigsCreated with an
    empty message. *)
Theorem reconcile_converges (req : Request) (w : World)
    (clusterConfig : SriovFecClusterConfig) :
  faults w = [] ->
  findClusterConfig (Req_NamespacedName req) (clusterConfigs w) = Some clusterConfig ->
  honoured req w = true ->
  structurallyValid (CC_Spec clusterConfig) = true ->
  fst (Reconcile req w) = Some (emptyResult, None) ->
  exists targets,
    renderNodeConfigs clusterConfig (inventoryOf w) = Some targets /\
    (forall o, In o (nodeConfigs (snd (Reconcile req w))) ->
               In (GetName o) (map GetName targets)) /\
    (List.NoDup (map GetName targets) ->
     forall t, In t targets ->
       exists o, In o (nodeConfigs (snd (Reconcile req w))) /\
                 GetNamespace o = GetNamespace t /\
                 GetName o = GetName t /\
                 NC_Spec o = NC_Spec t) /\
    exists stored,
      In stored (clusterConfigs (snd (Reconcile req w))) /\
      CC_ObjectMeta stored = CC_ObjectMeta clusterConfig /\
      CC_Status stored = statusOf "NodeConfigsCreated" "".
Proof.
  intros Hq Hfind Hhon Hvalid.
  pose proof (Get_ClusterConfig_found _ w clusterConfig [] (or_introl Hq) Hfind)
    as Hget.
  destruct (Reconcile_loaded req w clusterConfig) as [[Hh _]|[(_ & Hv & _)|Hok]];
    [rewrite Hget; reflexivity | congruence | congruence |].
  destruct Hok as (_ & _ & Hfirst & _ & Heq).
  rewrite Heq, Hget. cbn [snd].
  set (w1 := record (GetClusterConfigCall (Req_NamespacedName req)) None w).
  assert (Hq1 : faults w1 = []) by (apply record_quiet; exact Hq).
  destruct (reconcileNodes clusterConfig w1) as [r w'] eqn:Hrun. cbn [fst snd].
  intros ->.
  unfold reconcileNodes in Hrun. rewrite Hfirst in Hrun.
  unfold bind at 1 in Hrun.
  unfold getNodesWithIntelAccelerator, bind at 1 in Hrun.
  unfold List_Nodes in Hrun. rewrite (quiet_nextFault w1 Hq1) in Hrun.
  cbn [fst snd ret] in Hrun.
  change (List.filter (matchesLabels intelAcceleratorLabels) (nodes w1))
    with (inventoryOf w) in Hrun.
  set (w2 := record (ListNodesCall intelAcceleratorLabels) None w1) in Hrun.
  assert (Hq2 : faults w2 = []) by (apply record_quiet; exact Hq1).
  destruct (renderNodeConfigs clusterConfig (inventoryOf w)) as [targets|];
    [|discriminate].
  exists targets. split; [reflexivity|].
  unfold bind at 1 in Hrun.
  pose proof (syncNodeConfigs_quiet targets w2 Hq2) as Hsync.
  pose proof (syncNodeConfigs_clusterConfigs targets w2) as Hcc.
  destruct (syncNodeConfigs targets w2) as [[e|] w3]; cbn [fst snd] in *;
    rewrite ControllersProofs.updateStatus_then_ret in Hrun;
    [discriminate Hrun|]. injection Hrun as <-.
  destruct (Hsync eq_refl) as [Hq3 Hstore].
  assert (Hnames : forall o, In o (nodeConfigs w3) ->
                             In (GetName o) (map GetName targets))
    by (rewrite Hstore; apply synced_names).
  assert (Hstored : List.NoDup (map GetName targets) ->
            forall t, In t targets ->
              exists o, In o (nodeConfigs w3) /\ GetNamespace o = GetNamespace t /\
                        GetName o = GetName t /\ NC_Spec o = NC_Spec t).
  { intros Hnodup t Ht. rewrite Hstore.
    destruct (synced_settled targets (nodeConfigs w2) Hnodup t Ht)
      as (o & Hfound & Hspec & _).
    apply findNodeConfig_Some in Hfound as (Hin & Hns & Hname).
    exists o. auto. }
  destruct (updateStatus_world clusterConfig "NodeConfigsCreated" "" w3)
    as (Hst & _).
  rewrite Hst. split; [exact Hnames | split; [exact Hstored|]].
  destruct (ControllersProofs.updateStatus_spec clusterConfig
              "NodeConfigsCreated" "" w3) as (o & Hc & Hsucc).
  apply Hsucc.
  assert (Hok : fst (Status_Update
                       (withStatus (statusOf "NodeConfigsCreated" "") clusterConfig)
                       w3) = None).
  { apply Status_Update_quiet; [exact Hq3|].
    apply in_map_iff. exists clusterConfig. split; [reflexivity|].
    rewrite Hcc. unfold findClusterConfig in Hfind.
    apply find_some in Hfind as [Hin _]. exact Hin. }
  pose proof (ControllersProofs.Status_Update_calls
                (withStatus (statusOf "NodeConfigsCreated" "") clusterConfig) w3)
    as Hsc.
  rewrite Hok in Hsc. unfold updateStatus, bind in Hc.
  change {| SyncStatus := "NodeConfigsCreated"; LastSyncError := "" |}
    with (statusOf "NodeConfigsCreated" "") in Hc.
  destruct (Status_Update _ w3) as [r3 w4]. cbn [fst snd ret] in *.
  rewrite Hsc in Hc. apply app_inv_head in Hc. injection Hc as <-. reflexivity.
Qed.

(** *** When a synchronisation succeeds *)

Lemma isObj_key (a b o : SriovFecNodeConfig) :
  isObj a o = true -> isObj b o = true -> nodeConfigKey a = nodeConfigKey b.
Proof.
  intros Ha Hb. apply isObj_iff in Ha as [Hna Hma]. apply isObj_iff in Hb as [Hnb Hmb].
  unfold nodeConfigKey. congruence.
Qed.

Lemma removeEach_succeeds (newNodeCfgs items : list SriovFecNodeConfig) (w : World) :
  faults w = [] ->
  List.NoDup (map nodeConfigKey items) ->
  (forall nc, In nc items ->
     findNodeConfig (nodeConfigKey nc) (nodeConfigs w) <> None) ->
  fst (removeEach newNodeCfgs items w) = None.
Proof.
  revert w. induction items as [|nc rest IH]; intros w Hq Hnodup Hfound;
    [reflexivity|].
  cbn [map] in Hnodup. apply List.NoDup_cons_iff in Hnodup as [Hfresh Hnodup].
  cbn [removeEach].
  destruct (deleteNC nc newNodeCfgs).
  - unfold bind. rewrite (Delete_quiet nc w Hq).
    destruct (findNodeConfig (nodeConfigKey nc) (nodeConfigs w)) eqn:Hnc;
      [|exfalso; apply (Hfound nc); [left; reflexivity | exact Hnc]].
    apply IH; [apply record_quiet; exact Hq | exact Hnodup |].
    intros nc' Hin'. cbn [nodeConfigs record withNodeConfigs].
    destruct (findNodeConfig (nodeConfigKey nc') (nodeConfigs w)) as [o|] eqn:Ho;
      [|exfalso; apply (Hfound nc'); [right; exact Hin' | exact Ho]].
    apply findNodeConfig_Some in Ho as (Hino & Hns & Hname).
    apply (findNodeConfig_In _ _ o); [|exact Hns | exact Hname].
    apply filter_In. split; [exact Hino|].
    destruct (isObj nc o) eqn:Hobj; [|reflexivity].
    exfalso. apply Hfresh.
    assert (Hobj' : isObj nc' o = true) by (apply isObj_iff; auto).
    rewrite (isObj_key nc nc' o Hobj Hobj'). apply in_map. exact Hin'.
  - apply IH; [exact Hq | exact Hnodup |].
    intros nc' Hin'. apply Hfound. right. exact Hin'.
Qed.

(** X24.  On an API server that injects no fault and stores at most one
    node configuration per namespace and name, a synchronisation succeeds
    for every target set. *)
Theorem sync_succeeds (nodeCfgs : list SriovFecNodeConfig) (w : World) :
  faults w = [] ->
  List.NoDup (map nodeConfigKey (nodeConfigs w)) ->
  fst (syncNodeConfigs nodeCfgs w) = None.
Proof.
  intros Hq Hnodup.
  assert (Hq0 : faults (record ListNodeConfigsCall None w) = [])
    by (apply record_quiet; exact Hq).
  assert (Hrm : fst (removeEach nodeCfgs (nodeConfigs w)
                       (record ListNodeConfigsCall None w)) = None).
  { apply removeEach_succeeds; [exact Hq0 | exact Hnodup |].
    intros nc Hin. apply (findNodeConfig_In _ _ nc); [exact Hin | reflexivity..]. }
  destruct (removeEach_quiet nodeCfgs (nodeConfigs w) _ Hq0 Hrm) as [Hq1 _].
  unfold syncNodeConfigs, removeOldNodeConfigs. unfold bind at 1 2.
  rewrite (List_NodeConfigs_quiet w Hq).
  destruct (removeEach nodeCfgs (nodeConfigs w) (record ListNodeConfigsCall None w))
    as [r w1]. cbn [fst snd] in *. subst r.
  apply updateOrCreateEach_quiet. exact Hq1.
Qed.

(** *** The names of the rendered objects *)

Lemma NoDup_map_filter {A B} (f : A -> B) (p : A -> bool) (l : list A) :
  List.NoDup (map f l) -> List.NoDup (map f (List.filter p l)).
Proof.
  induction l as [|x rest IH]; [auto|].
  cbn [map List.filter]. intros Hnodup.
  apply List.NoDup_cons_iff in Hnodup as [Hfresh Hnodup].
  destruct (p x); [|auto]. cbn [map]. constructor; [|auto].
  intros Hin. apply Hfresh. apply in_map_iff in Hin as (y & Hy & Hiny).
  apply filter_In in Hiny as [Hiny _]. apply in_map_iff. exists y. auto.
Qed.

(** X23.  The rendered objects have distinct names when their sources do:
    in uniform mode when the nodes of the inventory have distinct names, in
    per-node mode when the node entries have. *)
Theorem render_distinct_names (clusterConfig : SriovFecClusterConfig)
    (nodeList : list Node) (nodeConfigs : list SriovFecNodeConfig) :
  renderNodeConfigs clusterConfig nodeList = Some nodeConfigs ->
  (if OneNodeConfigForAll (CC_Spec clusterConfig)
   then List.NoDup (map Node_Name nodeList)
   else List.NoDup (map NodeName (Nodes (CC_Spec clusterConfig)))) ->
  List.NoDup (map GetName nodeConfigs).
Proof.
  unfold renderNodeConfigs.
  destruct (OneNodeConfigForAll (CC_Spec clusterConfig)).
  - destruct (Nodes (CC_Spec clusterConfig)) as [|first others].
    + destruct nodeList; cbn; [|discriminate]. intros [= <-] _. constructor.
    + rewrite ControllersProofs.renderForAll_map. intros [= <-].
      rewrite map_map. intros Hnodup.
      erewrite map_ext; [exact Hnodup|]. intros node. reflexivity.
  - rewrite ControllersProofs.renderPerNode_map. intros [= <-].
    rewrite map_map. intros Hnodup. apply NoDup_map_filter. exact Hnodup.
Qed.

(** *** The properties at concrete inputs *)

Lemma update_keeps_status_witness :
  exists updated,
    In updated (nodeConfigs (snd (updateOrCreateNodeConfig
                                    (Examples.storedNodeConfig "worker-1") Examples.staleStore))) /\
    NC_Spec updated = NC_Spec (Examples.storedNodeConfig "worker-1") /\
    NC_Status updated = [("inventory", "0000:af:00.0")].
Proof.
  destruct (update_keeps_status (Examples.storedNodeConfig "worker-1")
              Examples.reportedNodeConfig Examples.staleStore eq_refl eq_refl)
    as (updated & _ & _ & Hin & Hspec & _ & _ & Hstatus & _).
  exists updated. auto.
Defined.

Lemma create_when_missing_witness :
  nodeConfigs (snd (updateOrCreateNodeConfig
                      (Examples.storedNodeConfig "worker-2") Examples.staleStore)) =
  [Examples.leftoverNodeConfig; Examples.reportedNodeConfig;
   Examples.storedNodeConfig "worker-2"].
Proof.
  apply (create_when_missing (Examples.storedNodeConfig "worker-2") Examples.staleStore
           eq_refl eq_refl).
Defined.

Lemma get_failure_aborts_upsert_witness :
  fst (updateOrCreateNodeConfig (Examples.storedNodeConfig "worker-1")
         (Examples.clusterWorld Examples.twoWorkersConfig
            [Examples.reportedNodeConfig] [Some Examples.internalError]))
    = Some Examples.internalError /\
  nodeConfigs (snd (updateOrCreateNodeConfig (Examples.storedNodeConfig "worker-1")
         (Examples.clusterWorld Examples.twoWorkersConfig
            [Examples.reportedNodeConfig] [Some Examples.internalError])))
    = [Examples.reportedNodeConfig].
Proof.
  destruct (get_failure_aborts_upsert (Examples.storedNodeConfig "worker-1")
              (Examples.clusterWorld Examples.twoWorkersConfig
                 [Examples.reportedNodeConfig] [Some Examples.internalError])
              Examples.internalError [] eq_refl eq_refl) as (Hr & _ & Hst).
  split; assumption.
Defined.

Lemma list_failure_deletes_nothing_witness :
  fst (removeOldNodeConfigs Examples.twoTargets
         (Examples.clusterWorld Examples.twoWorkersConfig
            [Examples.leftoverNodeConfig] [Some (StatusError NotFound)])) = None /\
  nodeConfigs (snd (removeOldNodeConfigs Examples.twoTargets
         (Examples.clusterWorld Examples.twoWorkersConfig
            [Examples.leftoverNodeConfig] [Some (StatusError NotFound)])))
    = [Examples.leftoverNodeConfig].
Proof.
  destruct (list_failure_deletes_nothing Examples.twoTargets
              (Examples.clusterWorld Examples.twoWorkersConfig
                 [Examples.leftoverNodeConfig] [Some (StatusError NotFound)])
              (StatusError NotFound) [] eq_refl) as (Hr & _ & Hst).
  split; assumption.
Defined.

Lemma sync_converges_witness :
  (forall o, In o (nodeConfigs (snd (syncNodeConfigs Examples.twoTargets Examples.staleStore))) ->
             In (GetName o) ["worker-1"; "worker-2"]) /\
  (List.NoDup (map GetName Examples.twoTargets) ->
   forall t, In t Examples.twoTargets ->
     exists o, In o (nodeConfigs (snd (syncNodeConfigs Examples.twoTargets Examples.staleStore))) /\
               GetNamespace o = GetNamespace t /\
               GetName o = GetName t /\
               NC_Spec o = NC_Spec t).
Proof.
  exact (sync_converges Examples.twoTargets Examples.staleStore eq_refl eq_refl).
Defined.

Lemma twoTargets_distinct : List.NoDup (map GetName Examples.twoTargets).
Proof.
  repeat constructor; cbn; intros H;
    repeat (destruct H as [H|H]; [discriminate|]); exact H.
Defined.

Lemma sync_idempotent_witness :
  nodeConfigs (snd (syncNodeConfigs Examples.twoTargets
                      (snd (syncNodeConfigs Examples.twoTargets Examples.staleStore)))) =
  nodeConfigs (snd (syncNodeConfigs Examples.twoTargets Examples.staleStore)).
Proof.
  apply (sync_idempotent Examples.twoTargets Examples.staleStore eq_refl eq_refl
           twoTargets_distinct).
Defined.

(** The stores of the two passes: the leftover object is gone, the status
    that the node daemon wrote is kept. *)
Example sync_twice_store :
  nodeConfigs (snd (syncNodeConfigs Examples.twoTargets Examples.staleStore)) =
  [withSpec (NC_Spec (Examples.storedNodeConfig "worker-1"))
            Examples.reportedNodeConfig;
   Examples.storedNodeConfig "worker-2"].
Proof. vm_compute. reflexivity. Qed.

Lemma reconcile_absent_noop_witness :
  fst (Reconcile Examples.otherRequest
         (Examples.clusterWorld Examples.twoWorkersConfig [] []))
    = Some (emptyResult, None) /\
  nodeConfigs (snd (Reconcile Examples.otherRequest
         (Examples.clusterWorld Examples.twoWorkersConfig [] []))) = [].
Proof.
  destruct (reconcile_absent_noop Examples.otherRequest
              (Examples.clusterWorld Examples.twoWorkersConfig [] [])
              eq_refl eq_refl) as (Hr & _ & Hst & _).
  split; assumption.
Defined.

Lemma reconcile_ignored_witness :
  fst (Reconcile Examples.otherRequest
         (Examples.clusterWorld Examples.otherConfig [] []))
    = Some (emptyResult, None) /\
  nodeConfigs (snd (Reconcile Examples.otherRequest
         (Examples.clusterWorld Examples.otherConfig [] []))) = [].
Proof.
  destruct (reconcile_ignored Examples.otherRequest
              (Examples.clusterWorld Examples.otherConfig [] [])
              Examples.otherConfig eq_refl eq_refl) as (Hr & Hst & _).
  split; assumption.
Defined.

Lemma reconcile_invalid_config_witness :
  fst (Reconcile Examples.request
         (Examples.clusterWorld Examples.uniformDeclaredFalse [] []))
    = Some (emptyResult, None) /\
  nodeConfigs (snd (Reconcile Examples.request
         (Examples.clusterWorld Examples.uniformDeclaredFalse [] []))) = [].
Proof.
  destruct (reconcile_invalid_config Examples.request
              (Examples.clusterWorld Examples.uniformDeclaredFalse [] [])
              Examples.uniformDeclaredFalse eq_refl eq_refl eq_refl)
    as (Hr & Hst & _).
  split; assumption.
Defined.

Lemma reconcile_nfd_failure_witness :
  fst (Reconcile Examples.request
         (Examples.clusterWorld Examples.twoWorkersConfig []
            [None; Some Examples.internalError]))
    = Some (emptyResult, Some Examples.internalError) /\
  nodeConfigs (snd (Reconcile Examples.request
         (Examples.clusterWorld Examples.twoWorkersConfig []
            [None; Some Examples.internalError]))) = [].
Proof.
  destruct (reconcile_nfd_failure Examples.request
              (Examples.clusterWorld Examples.twoWorkersConfig []
                 [None; Some Examples.internalError])
              Examples.twoWorkersConfig Examples.internalError []
              eq_refl eq_refl eq_refl eq_refl) as (Hr & Hst & _).
  split; assumption.
Defined.

Lemma reconcile_converges_witness :
  exists targets,
    renderNodeConfigs Examples.twoWorkersConfig (inventoryOf Examples.staleStore)
      = Some targets /\
    (forall o, In o (nodeConfigs (snd (Reconcile Examples.request Examples.staleStore))) ->
               In (GetName o) (map GetName targets)) /\
    (List.NoDup (map GetName targets) ->
     forall t, In t targets ->
       exists o, In o (nodeConfigs (snd (Reconcile Examples.request Examples.staleStore))) /\
                 GetNamespace o = GetNamespace t /\
                 GetName o = GetName t /\
                 NC_Spec o = NC_Spec t) /\
    exists stored,
      In stored (clusterConfigs (snd (Reconcile Examples.request Examples.staleStore))) /\
      CC_ObjectMeta stored = CC_ObjectMeta Examples.twoWorkersConfig /\
      CC_Status stored = statusOf "NodeConfigsCreated" "".
Proof.
  exact (reconcile_converges Examples.request Examples.staleStore
           Examples.twoWorkersConfig eq_refl eq_refl eq_refl eq_refl eq_refl).
Defined.

Lemma staleStore_keys :
  List.NoDup (map nodeConfigKey (nodeConfigs Examples.staleStore)).
Proof.
  repeat constructor; cbn; intros H;
    repeat (destruct H as [H|H]; [discriminate|]); exact H.
Defined.

Lemma sync_succeeds_witness :
  fst (syncNodeConfigs Examples.twoTargets Examples.staleStore) = None.
Proof.
  exact (sync_succeeds Examples.twoTargets Examples.staleStore eq_refl
           staleStore_keys).
Defined.

Lemma render_distinct_names_witness :
  List.NoDup (map GetName Examples.twoTargets).
Proof.
  apply (render_distinct_names Examples.twoWorkersConfig Examples.inventory2
           Examples.twoTargets eq_refl).
  repeat constructor; cbn; intros H;
    repeat (destruct H as [H|H]; [discriminate|]); exact H.
Defined.

End ControllersExtra.
